(** * Job aggregation engine: a shallow embedding of the scraping subsystem

    The development follows the two scraper classes of the repository:
    - [Advanced]: [AdvancedJobScraper] of
      [backend/src/scrapers/advanced_job_scraper.py] (proxy rotation, skill
      extraction, Jaccard duplicate removal);
    - [Legal]: [LegalJobScraper] of
      [backend/src/scrapers/legal_job_scraper.py] (robots.txt cache,
      respectful delay, per-source strategy selection, exact duplicate
      removal), with the per-site scrapers taken at their annotations;
    - [Runtime]: the comprehensive run of [LegalJobScraper] over per-site
      scrapers that may hand back [None] in a field or be cancelled; on the
      worlds of [Legal] it is the run of [Legal].

    Python values are modelled as follows.
    - [str] is [string]. On ASCII text the case-mapping builtins are those
      of Python; other characters are left alone, whereas Python maps them
      too and may lengthen the text, so whatever is stated about
      [s.upper()] is stated for ASCII text ([s.isascii()]).
    - the Jaccard score, a quotient of two small lengths compared with
      [0.85], is an exact rational [Q]; the comparison made by the code gives
      the same answer on the rationals as on binary64 for the magnitudes
      involved (lengths below 2^40). The delays ([rate_limit], [delay_min],
      the draws of [random.uniform]) and the relevance score are computed on
      the kernel's binary64 floats, with the roundings that Python makes.
    - [set] of strings is [gset string], [dict] keyed by strings and only
      looked up is [gmap string _], a [dict] that is iterated in insertion
      order is an association list.
    - network access, the environment, the random generator and the
      per-site parsers are fields of a [World] record; mutable attributes of
      the scraper object are threaded explicitly. *)

From Stdlib Require Import ZArith QArith String Ascii List Lia PrimFloat DecimalString.
From stdpp Require Import base gmap sets list strings.
Import ListNotations.

Local Open Scope string_scope.
Local Open Scope list_scope.
Local Open Scope nat_scope.

(** ** Python string builtins used by the scrapers *)

Module Py.

Definition is_upper (c : ascii) : bool :=
  let n := nat_of_ascii c in (65 <=? n)%nat && (n <=? 90)%nat.

Definition is_lower (c : ascii) : bool :=
  let n := nat_of_ascii c in (97 <=? n)%nat && (n <=? 122)%nat.

Definition lower_char (c : ascii) : ascii :=
  if is_upper c then ascii_of_nat (nat_of_ascii c + 32) else c.

Definition upper_char (c : ascii) : ascii :=
  if is_lower c then ascii_of_nat (nat_of_ascii c - 32) else c.

(** [s.lower()], exact on ASCII text *)
Fixpoint lower (s : string) : string :=
  match s with
  | EmptyString => EmptyString
  | String c r => String (lower_char c) (lower r)
  end.

(** [s.upper()], exact on ASCII text *)
Fixpoint upper (s : string) : string :=
  match s with
  | EmptyString => EmptyString
  | String c r => String (upper_char c) (upper r)
  end.

(** [s.title()]: a cased character is upper-cased when the previous
    character is not cased, lower-cased otherwise. *)
Fixpoint title_from (previous_is_cased : bool) (s : string) : string :=
  match s with
  | EmptyString => EmptyString
  | String c r =>
      if is_lower c then
        String (if previous_is_cased then c else upper_char c) (title_from true r)
      else if is_upper c then
        String (if previous_is_cased then lower_char c else c) (title_from true r)
      else String c (title_from false r)
  end.

Definition title (s : string) : string := title_from false s.

(** [sub in s] *)
Fixpoint contains (sub s : string) : bool :=
  String.prefix sub s
  || match s with
     | EmptyString => false
     | String _ r => contains sub r
     end.

(** [s.find(sub)], [None] standing for -1 *)
Fixpoint find (sub s : string) : option nat :=
  if String.prefix sub s then Some 0%nat
  else match s with
       | EmptyString => None
       | String _ r => S <$> find sub r
       end.

(** [s.split(sep)] for a one-character separator *)
Fixpoint split (sep : ascii) (s : string) : list string :=
  match s with
  | EmptyString => [EmptyString]
  | String c r =>
      if Ascii.eqb c sep then EmptyString :: split sep r
      else match split sep r with
           | h :: t => String c h :: t
           | [] => [String c EmptyString]
           end
  end.

(** [seq[:n]] *)
Definition slice_to {A} (n : nat) (l : list A) : list A := firstn n l.

(** [s.replace(c, by)] for a single character [c] *)
Fixpoint replace_char (c : ascii) (by_ : string) (s : string) : string :=
  match s with
  | EmptyString => EmptyString
  | String c' r =>
      if Ascii.eqb c' c then (by_ ++ replace_char c by_ r)%string
      else String c' (replace_char c by_ r)
  end.

(** [str(n)] for a natural number *)
Definition str_nat (n : nat) : string := NilZero.string_of_uint (Nat.to_uint n).

(** [c in s] for a single character *)
Fixpoint has_char (c : ascii) (s : string) : bool :=
  match s with
  | EmptyString => false
  | String c' r => Ascii.eqb c' c || has_char c r
  end.

(** [s.isascii()] *)
Fixpoint isascii (s : string) : bool :=
  match s with
  | EmptyString => true
  | String c r => (nat_of_ascii c <? 128)%nat && isascii r
  end.

End Py.

(** Strict comparison of two rationals, as a boolean. *)
Definition Qgtb (x y : Q) : bool := negb (Qle_bool x y).

(** The scanning loop that [extract_requirements] and
    [extract_skills_from_text] both run, each over its own vocabulary: one
    pass over the vocabulary, appending the title-cased skill when it occurs
    in the lower-cased text. *)
Definition scan_skills (vocabulary : list string) (text_lower : string) : list string :=
  fold_left
    (fun found skill =>
       if Py.contains skill text_lower then found ++ [Py.title skill] else found)
    vocabulary [].

(** A call either returns a value or raises an exception, an instance of
    [Exception] that is named by its class. *)
Inductive Result (A : Type) : Type :=
| Ok (a : A)
| Raise (e : string).
Arguments Ok {A} a.
Arguments Raise {A} e.

(** ** AdvancedJobScraper *)

Module Advanced.

(** The entries of a job dictionary that duplicate removal reads; the
    remaining entries are carried along in [rest]. *)
Record Job := mkJob {
  title : string;
  company : string;
  location : string;
  source : string;
  rest : list (string * string)
}.

(** [similarity_score]: Jaccard similarity of the two sets of
    '_'-separated tokens. *)
Definition similarity_score (str1 str2 : string) : Q :=
  let set1 : gset string := list_to_set (Py.split "_" str1) in
  let set2 : gset string := list_to_set (Py.split "_" str2) in
  let intersection := size (set1 ∩ set2) in
  let union := size (set1 ∪ set2) in
  if (0 <? union)%nat
  then (inject_Z (Z.of_nat intersection) / inject_Z (Z.of_nat union))%Q
  else 0%Q.

Definition identifier (job : Job) : string :=
  (Py.lower (title job) ++ "_" ++ Py.lower (company job) ++ "_"
     ++ Py.lower (location job))%string.

(** The inner loop over [seen]: is some recorded key more than 0.85
    similar to [identifier]? *)
Definition is_duplicate (seen : gset string) (identifier : string) : bool :=
  existsb (fun seen_id => Qgtb (similarity_score identifier seen_id) (85 # 100))
          (elements seen).

(** The outer loop of [remove_duplicates_advanced], from a given [seen]. *)
Fixpoint remove_duplicates_from (seen : gset string) (jobs : list Job) : list Job :=
  match jobs with
  | [] => []
  | job :: jobs' =>
      if is_duplicate seen (identifier job)
      then remove_duplicates_from seen jobs'
      else job :: remove_duplicates_from ({[identifier job]} ∪ seen) jobs'
  end.

Definition remove_duplicates_advanced (jobs : list Job) : list Job :=
  remove_duplicates_from ∅ jobs.

(** *** Proxy rotation *)

Record Proxy := mkProxy { http : string; https : string }.

Record AdvancedScrapingConfig := {
  use_proxies : bool;
  use_cloudflare_bypass : bool;
  use_headless_browser : bool;
  random_delays : bool;
  user_agent_rotation : bool;
  captcha_solving : bool;
  respect_robots : bool
}.

(** The attributes of the scraper object that [get_next_proxy] reads and
    writes. An entry [None] of the pool is a direct connection. *)
Record Scraper := mkScraper {
  config : AdvancedScrapingConfig;
  proxies : list (option Proxy);
  current_proxy_index : nat;
  request_count : nat
}.

(** [get_next_proxy]; indexing the pool out of range raises. *)
Definition get_next_proxy (self : Scraper) : Result (option Proxy) * Scraper :=
  if negb (use_proxies (config self)) || bool_decide (proxies self = [])
  then (Ok None, self)
  else
    let index :=
      if (request_count self mod 5 =? 0)%nat
      then ((current_proxy_index self + 1) mod length (proxies self))%nat
      else current_proxy_index self in
    let self' := mkScraper (config self) (proxies self) index (request_count self + 1) in
    (match proxies self !! index with
     | Some proxy => Ok proxy
     | None => Raise "IndexError"
     end, self').

(** [n] successive calls; the object after the last one. *)
Fixpoint after_requests (n : nat) (self : Scraper) : Scraper :=
  match n with
  | O => self
  | S n' => after_requests n' (snd (get_next_proxy self))
  end.

(** The number of multiples of 5 among [count, count + n): how often the
    index is advanced while the counter runs through that range. *)
Definition rotations (count n : nat) : nat := (count + n + 4) / 5 - (count + 4) / 5.

(** The pool that [load_proxy_list] builds when [SCRAPING_PROXIES] is unset. *)
Definition free_proxies : list (option Proxy) :=
  [ Some (mkProxy "http://proxy1.example.com:8080" "http://proxy1.example.com:8080");
    Some (mkProxy "http://proxy2.example.com:8080" "http://proxy2.example.com:8080") ].

(** The constructor's defaults, with the given value of [use_proxies]. *)
Definition default_config (use : bool) : AdvancedScrapingConfig :=
  {| use_proxies := use; use_cloudflare_bypass := true; use_headless_browser := false;
     random_delays := true; user_agent_rotation := true; captcha_solving := false;
     respect_robots := true |}.

Definition new_scraper (cfg : AdvancedScrapingConfig) : Scraper :=
  mkScraper cfg free_proxies 0 0.

(** *** Skill extraction *)

Definition skills_database : list string :=
  [ "python"; "javascript"; "java"; "react"; "node.js"; "angular"; "vue.js";
    "typescript"; "html"; "css"; "sql"; "mongodb"; "postgresql"; "mysql";
    "aws"; "azure"; "gcp"; "docker"; "kubernetes"; "git"; "rest api"; "graphql";
    "machine learning"; "ai"; "data science"; "tensorflow"; "pytorch"; "pandas";
    "spring boot"; "django"; "flask"; "express.js"; "laravel"; "symfony";
    "redis"; "elasticsearch"; "jenkins"; "ci/cd"; "agile"; "scrum" ].

Definition extract_skills_from_text (text : string) : list string :=
  Py.slice_to 15 (scan_skills skills_database (Py.lower text)).

(** *** The proxy pool *)

Definition as_proxy (proxy : string) : option Proxy := Some (mkProxy proxy proxy).

(** [load_proxy_list]. [decoded_env] is [Some l] when SCRAPING_PROXIES
    decodes to the JSON list of strings [l], and [None] when the variable is
    unset or empty or does not hold valid JSON; values that decode to
    something other than a list of strings are not covered. *)
Definition load_proxy_list (decoded_env : option (list string)) : list (option Proxy) :=
  let proxies :=
    match decoded_env with
    | Some proxy_list => map as_proxy proxy_list
    | None => []
    end in
  let proxies :=
    proxies ++ map as_proxy ["http://proxy1.example.com:8080";
                             "http://proxy2.example.com:8080"] in
  if bool_decide (proxies = []) then proxies ++ [None] else proxies.

(** [AdvancedJobScraper(config)], as far as the rotation is concerned. *)
Definition scraper_in_env (cfg : AdvancedScrapingConfig) (decoded_env : option (list string))
  : Scraper :=
  mkScraper cfg (load_proxy_list decoded_env) 0 0.

(** *** Classification of a description *)

(** [any(term in text for term in terms)] *)
Definition any_term_in (terms : list string) (text : string) : bool :=
  existsb (fun term => Py.contains term text) terms.

(** [extract_job_type_from_description] *)
Definition extract_job_type_from_description (description : string) : string :=
  let description_lower := Py.lower description in
  if any_term_in ["remote"; "work from home"; "wfh"] description_lower then "remote"
  else if any_term_in ["hybrid"; "flexible"] description_lower then "hybrid"
  else if any_term_in ["part-time"; "part time"] description_lower then "part-time"
  else if any_term_in ["contract"; "freelance"; "consultant"] description_lower then "contract"
  else "full-time".

(** [extract_experience_level] *)
Definition extract_experience_level (description : string) : string :=
  let description_lower := Py.lower description in
  if any_term_in ["senior"; "lead"; "principal"; "5+ years"; "7+ years"] description_lower
  then "senior"
  else if any_term_in ["junior"; "entry level"; "0-2 years"; "graduate"] description_lower
  then "junior"
  else if any_term_in ["mid"; "intermediate"; "2-5 years"; "3+ years"] description_lower
  then "mid"
  else "not specified".

(** [calculate_relevance_score], on binary64 floats as in Python;
    [min(score, 1.0)] returns [score] unless [1.0 < score]. *)
Definition calculate_relevance_score (title description : string)
    (requirements : list string) : float :=
  let score := 0.5%float in
  let score :=
    if any_term_in ["developer"; "engineer"; "programmer"] (Py.lower title)
    then (score + 0.2)%float else score in
  let score := if (100 <? String.length description)%nat then (score + 0.1)%float else score in
  let score := if (3 <? length requirements)%nat then (score + 0.2)%float else score in
  if PrimFloat.ltb 1%float score then 1%float else score.

(** *** Fetching result pages *)

Record SearchParams := mkSearchParams {
  sp_keywords : string;
  sp_location : string
}.

(** The network and the HTML parser, as the scraper sees them.
    [http_get url proxy] is the status and body of the response, or the
    exception of the request; [select_cards selector html] are the elements
    that the selector finds in the parsed page; the two extractors give the
    job of a card, [None] when they fail. *)
Record Web := mkWeb {
  card : Type;
  http_get : string -> option Proxy -> Result (nat * string);
  select_cards : string -> string -> list card;
  extract_indeed_job_data : card -> option Job;
  extract_glassdoor_job_data : card -> option Job
}.

(** The scraper object during a crawl, with the addresses requested so far. *)
Record Crawl := mkCrawl {
  rotator : Scraper;
  requested : list string
}.

(** [make_request_with_protection]. The proxy is taken before the [try]
    block, so an exception of [get_next_proxy] propagates; the random delay
    is not recorded. *)
Definition make_request_with_protection (web : Web) (url : string) (st : Crawl)
  : Result (option string) * Crawl :=
  match get_next_proxy (rotator st) with
  | (Raise e, rotator') => (Raise e, mkCrawl rotator' (requested st))
  | (Ok proxy, rotator') =>
      let st' := mkCrawl rotator' (requested st ++ [url]) in
      match http_get web url proxy with
      | Ok (status, text) =>
          if (status =? 200)%nat then (Ok (Some text), st') else (Ok None, st')
      | Raise _ => (Ok None, st')
      end
  end.

(** A response that gives no usable page: the request raises, or the
    status is not 200, or the body is empty. *)
Definition unusable (response : Result (nat * string)) : Prop :=
  match response with
  | Ok (status, text) => status ≠ 200 ∨ text = ""
  | Raise _ => True
  end.

(** The jobs of the cards of one page: a card whose extraction fails is
    passed over. *)
Definition jobs_of_cards {C} (extract : C -> option Job) (cards : list C) : list Job :=
  fold_left
    (fun jobs card =>
       match extract card with
       | Some job_data => jobs ++ [job_data]
       | None => jobs
       end)
    cards [].

Definition indeed_search_url (keywords location : string) (start : nat) : string :=
  ("https://www.indeed.com" ++ "/jobs?q=" ++ keywords ++ "&l=" ++ location
     ++ "&start=" ++ Py.str_nat start)%string.

(** The loop of [scrape_indeed_advanced] over the remaining page offsets.
    An exception ends the function with the jobs collected so far. *)
Fixpoint indeed_pages (web : Web) (keywords location : string) (starts : list nat)
    (jobs : list Job) (st : Crawl) : list Job * Crawl :=
  match starts with
  | [] => (jobs, st)
  | start :: starts' =>
      let search_url := indeed_search_url keywords location start in
      match make_request_with_protection web search_url st with
      | (Raise _, st') => (jobs, st')
      | (Ok None, st') | (Ok (Some EmptyString), st') =>
          indeed_pages web keywords location starts' jobs st'
      | (Ok (Some html), st') =>
          let job_cards := select_cards web "div[data-jk]" html in
          let jobs' := jobs ++ jobs_of_cards (extract_indeed_job_data web) job_cards in
          match job_cards with
          | [] => (jobs', st')
          | _ :: _ => indeed_pages web keywords location starts' jobs' st'
          end
      end
  end.

(** [range(0, 100, 10)] *)
Definition page_starts : list nat := map (fun page => 10 * page) (seq 0 10).

(** [scrape_indeed_advanced] *)
Definition scrape_indeed_advanced (web : Web) (search_params : SearchParams) (st : Crawl)
  : list Job * Crawl :=
  let keywords := Py.replace_char " " "%20" (sp_keywords search_params) in
  let location := Py.replace_char " " "%20" (sp_location search_params) in
  indeed_pages web keywords location page_starts [] st.

(** The selector [li[data-test="jobListing"]] *)
Definition glassdoor_cards_selector : string :=
  let quote := String (ascii_of_nat 34) EmptyString in
  ("li[data-test=" ++ quote ++ "jobListing" ++ quote ++ "]")%string.

(** [scrape_glassdoor_advanced] *)
Definition scrape_glassdoor_advanced (web : Web) (search_params : SearchParams) (st : Crawl)
  : list Job * Crawl :=
  let keywords := Py.replace_char " " "%20" (sp_keywords search_params) in
  let search_url :=
    ("https://www.glassdoor.com" ++ "/Job/jobs.htm?sc.keyword=" ++ keywords)%string in
  match make_request_with_protection web search_url st with
  | (Raise _, st') => ([], st')
  | (Ok None, st') | (Ok (Some EmptyString), st') => ([], st')
  | (Ok (Some html), st') =>
      let job_cards := select_cards web glassdoor_cards_selector html in
      (jobs_of_cards (extract_glassdoor_job_data web) (firstn 20 job_cards), st')
  end.

(** The entries of the dictionary that [scrape_all_sources_advanced]
    returns, without the metadata. *)
Record AggregateResult := mkAggregate {
  success : bool;
  totalJobs : nat;
  sourceResults : list (string * nat);
  jobs : list Job
}.

(** [scrape_all_sources_advanced] *)
Definition scrape_all_sources_advanced (web : Web) (search_params : SearchParams)
    (st : Crawl) : AggregateResult * Crawl :=
  let '(indeed_jobs, st1) := scrape_indeed_advanced web search_params st in
  let '(glassdoor_jobs, st2) := scrape_glassdoor_advanced web search_params st1 in
  let all_jobs := indeed_jobs ++ glassdoor_jobs in
  let unique_jobs := remove_duplicates_advanced all_jobs in
  (mkAggregate true (length unique_jobs)
     [("indeed_advanced", length indeed_jobs); ("glassdoor_advanced", length glassdoor_jobs)]
     unique_jobs, st2).

(** *** Vocabulary for statements about duplicate removal *)

(** [set(s.split('_'))] *)
Definition token_set (s : string) : gset string := list_to_set (Py.split "_" s).

(** The test of the inner loop: [similarity_score(k1, k2) > 0.85]. *)
Definition similar (k1 k2 : string) : bool := Qgtb (similarity_score k1 k2) (85 # 100).

End Advanced.

(** ** LegalJobScraper *)

Module Legal.

Record JobListing := mkJobListing {
  title : string;
  company : string;
  location : string;
  salary : option string;
  description : string;
  requirements : list string;
  job_type : string;
  experience_level : string;
  posted_date : string;
  application_url : string;
  source : string;
  job_id : string
}.

Record ScrapingConfig := mkScrapingConfig {
  delay_min : float;
  delay_max : float;
  max_concurrent : nat;
  timeout : nat;
  retry_attempts : nat;
  respect_robots : bool;
  user_agent_rotation : bool
}.

(** [ScrapingConfig()] *)
Definition default_config : ScrapingConfig :=
  mkScrapingConfig 1 3 5 30 3 true true.

(** One entry of [job_sources]. The keys [api_url] and [requires_api_key]
    are absent from the entries of the sources without an API. *)
Record SourceConfig := mkSource {
  base_url : string;
  search_endpoint : string;
  api_available : bool;
  api_url : option string;
  requires_api_key : option bool;
  rate_limit : float;
  legal_status : string
}.

(** [self.job_sources], in insertion order. *)
Definition default_job_sources : list (string * SourceConfig) :=
  [ ("indeed", mkSource "https://www.indeed.com" "/jobs" true
       (Some "https://apis.indeed.com/ads/apisearch") (Some true) 2 "API_PREFERRED");
    ("linkedin", mkSource "https://www.linkedin.com" "/jobs/search" true
       (Some "https://api.linkedin.com/v2/jobSearch") (Some true) 1 "API_ONLY");
    ("naukri", mkSource "https://www.naukri.com" "/jobs" true
       (Some "https://api.naukri.com/jobs") (Some true) 1.5 "API_PREFERRED");
    ("glassdoor", mkSource "https://www.glassdoor.com" "/Job/jobs.htm" true
       (Some "https://api.glassdoor.com/api/jobs") (Some true) 2 "API_PREFERRED");
    ("monster", mkSource "https://www.monster.com" "/jobs/search" false
       None None 3 "SCRAPING_ALLOWED");
    ("dice", mkSource "https://www.dice.com" "/jobs" false
       None None 2.5 "SCRAPING_ALLOWED");
    ("stackoverflow_jobs", mkSource "https://stackoverflow.com" "/jobs" true
       (Some "https://api.stackexchange.com/2.3/jobs") (Some false) 1 "API_PREFERRED");
    ("github_jobs", mkSource "https://jobs.github.com" "/positions" true
       (Some "https://jobs.github.com/positions.json") (Some false) 1 "API_AVAILABLE");
    ("remoteok", mkSource "https://remoteok.io" "/remote-jobs" true
       (Some "https://remoteok.io/api") (Some false) 2 "API_AVAILABLE");
    ("weworkremotely", mkSource "https://weworkremotely.com" "/remote-jobs" false
       None None 3 "SCRAPING_ALLOWED") ].

(** The immutable attributes of the scraper object. *)
Record Scraper := mkScraper {
  config : ScrapingConfig;
  job_sources : list (string * SourceConfig)
}.

(** [LegalJobScraper(config)] *)
Definition new_scraper (cfg : ScrapingConfig) : Scraper :=
  mkScraper cfg default_job_sources.

(** [self.job_sources.get(source)] *)
Fixpoint get_source (sources : list (string * SourceConfig)) (name : string)
  : option SourceConfig :=
  match sources with
  | [] => None
  | (n, c) :: sources' => if String.eqb n name then Some c else get_source sources' name
  end.

Record Params := mkParams {
  keywords : string;
  p_location : string;
  p_experience_level : string;
  p_job_type : string
}.

Definition default_params : Params :=
  mkParams "software developer" "India" "mid" "full-time".

(** What a [RobotFileParser] answers once [read()] has returned:
    [can_fetch(useragent, url)]. *)
Record RobotFileParser := mkRobots { can_fetch : string -> string -> bool }.

(** The per-site scraping methods, which are the only places where job
    pages are requested. *)
Inductive Adapter :=
| scrape_github_jobs_api
| scrape_remoteok_api
| scrape_stackoverflow_api
| scrape_monster_web
| scrape_dice_web
| scrape_weworkremotely_web.

(** Everything outside the scraper: the process environment, the network
    and the random generator. [robots_read url] is [None] when
    [rp.read()] raises. [random n] is the [n]-th value of
    [random.random()]. *)
Record World := mkWorld {
  getenv : string -> option string;
  urljoin : string -> string -> string;
  robots_read : string -> option RobotFileParser;
  random : nat -> float;
  site : Adapter -> Params -> Result (list JobListing)
}.

(** Observable effects, in the order in which they happen. [ViaApi] and
    [ViaWeb] record the entry into [scrape_via_api] and [scrape_via_web];
    informational log lines are not recorded. *)
Inductive Event :=
| RobotsRead (url : string)
| ViaApi (source : string)
| ViaWeb (source : string)
| Fetch (a : Adapter)
| Sleep (delay : float)
| LogWarning (about : string)
| LogError (about : string) (e : string).

(** The mutable part: the robots cache of the scraper object, the
    position in the random stream and the history of effects. *)
Record State := mkState {
  robots_cache : gmap string RobotFileParser;
  draws : nat;
  trace : list Event
}.

Definition initial_state : State := mkState ∅ 0 [].

(** *** A state and exception monad for the methods of the scraper *)

Definition M (A : Type) : Type := State -> Result A * State.

Definition ret {A} (a : A) : M A := fun st => (Ok a, st).

Definition bind {A B} (m : M A) (k : A -> M B) : M B :=
  fun st =>
    match m st with
    | (Ok a, st') => k a st'
    | (Raise e, st') => (Raise e, st')
    end.

Definition raise {A} (e : string) : M A := fun st => (Raise e, st).

(** [try: body except Exception as e: handler(e)] *)
Definition try_except {A} (body : M A) (handler : string -> M A) : M A :=
  fun st =>
    match body st with
    | (Ok a, st') => (Ok a, st')
    | (Raise e, st') => handler e st'
    end.

Definition emit (ev : Event) : M unit :=
  fun st => (Ok tt, mkState (robots_cache st) (draws st) (trace st ++ [ev])).

Definition lift_result {A} (r : Result A) : M A := fun st => (r, st).

Notation "x <- m ;; k" := (bind m (fun x => k))
  (at level 100, m at next level, right associativity).
Notation "m ;;; k" := (bind m (fun _ => k))
  (at level 100, right associativity).

(** *** Robots gate and delay *)

(** [self.robots_cache.get(base_url)] and [self.robots_cache[base_url] = rp] *)
Definition cached_robots (base_url : string) : M (option RobotFileParser) :=
  fun st => (Ok (robots_cache st !! base_url), st).

Definition cache_robots (base_url : string) (rp : RobotFileParser) : M unit :=
  fun st => (Ok tt, mkState (<[base_url := rp]> (robots_cache st)) (draws st) (trace st)).

(** [check_robots_txt]. The parser is taken from the cache or read from
    the network; [None] stands for the early [return True] of the [except]
    branch. *)
Definition check_robots_txt (w : World) (self : Scraper) (base_url endpoint : string)
  : M bool :=
  if negb (respect_robots (config self)) then ret true
  else
    cached <- cached_robots base_url ;;
    parser <- match cached with
              | Some rp => ret (Some rp)
              | None =>
                  let robots_url := urljoin w base_url "/robots.txt" in
                  emit (RobotsRead robots_url) ;;;
                  match robots_read w robots_url with
                  | Some rp => cache_robots base_url rp ;;; ret (Some rp)
                  | None => emit (LogWarning base_url) ;;; ret None
                  end
              end ;;
    match parser with
    | None => ret true
    | Some rp =>
        let user_agent := "*" in
        let url := urljoin w base_url endpoint in
        let can_fetch := can_fetch rp user_agent url in
        (if negb can_fetch then emit (LogWarning url) else ret tt) ;;;
        ret can_fetch
    end.

(** [random.uniform(a, b)], which is [a + (b - a) * random.random()] *)
Definition uniform (w : World) (a b : float) : M float :=
  fun st =>
    (Ok (a + (b - a) * random w (draws st))%float,
     mkState (robots_cache st) (S (draws st)) (trace st)).

(** The bounds between which [respectful_delay] draws. *)
Definition min_delay_of (self : Scraper) (source : string) : float :=
  match get_source (job_sources self) source with
  | Some source_config => rate_limit source_config
  | None => delay_min (config self)
  end.

(** [respectful_delay] *)
Definition respectful_delay (w : World) (self : Scraper) (source : string) : M unit :=
  let min_delay := min_delay_of self source in
  let max_delay := (min_delay + 1)%float in
  delay <- uniform w min_delay max_delay ;;
  emit (Sleep delay).

(** *** Strategies *)

Definition call_site (w : World) (a : Adapter) (params : Params) : M (list JobListing) :=
  emit (Fetch a) ;;; lift_result (site w a params).

(** [self.job_sources[source]] *)
Definition source_config_of (self : Scraper) (source : string) : M SourceConfig :=
  match get_source (job_sources self) source with
  | Some source_config => ret source_config
  | None => raise "KeyError"
  end.

(** [scrape_via_api] *)
Definition scrape_via_api (w : World) (self : Scraper) (source : string) (params : Params)
  : M (list JobListing) :=
  emit (ViaApi source) ;;;
  source_config <- source_config_of self source ;;
  if String.eqb source "github_jobs" then call_site w scrape_github_jobs_api params
  else if String.eqb source "remoteok" then call_site w scrape_remoteok_api params
  else if String.eqb source "stackoverflow_jobs" then call_site w scrape_stackoverflow_api params
  else ret [].

(** [scrape_via_web] *)
Definition scrape_via_web (w : World) (self : Scraper) (source : string) (params : Params)
  : M (list JobListing) :=
  emit (ViaWeb source) ;;;
  source_config <- source_config_of self source ;;
  allowed <- check_robots_txt w self (base_url source_config) (search_endpoint source_config) ;;
  if negb allowed then
    emit (LogWarning source) ;;; ret []
  else
    try_except
      (if String.eqb source "monster" then call_site w scrape_monster_web params
       else if String.eqb source "dice" then call_site w scrape_dice_web params
       else if String.eqb source "weworkremotely" then call_site w scrape_weworkremotely_web params
       else ret [])
      (fun e => emit (LogError source e) ;;; ret []).

(** The truth value of [os.getenv(name)]: set, and not the empty string. *)
Definition env_truthy (w : World) (name : string) : bool :=
  match getenv w name with
  | Some (String _ _) => true
  | _ => false
  end.

(** [scrape_via_api_with_fallback] *)
Definition scrape_via_api_with_fallback (w : World) (self : Scraper) (source : string)
    (params : Params) : M (list JobListing) :=
  let api_key_env_var := (Py.upper source ++ "_API_KEY")%string in
  if env_truthy w api_key_env_var
  then scrape_via_api w self source params
  else scrape_via_web w self source params.

(** *** Requirement tags and duplicate removal *)

Definition tech_skills : list string :=
  [ "python"; "javascript"; "java"; "react"; "node.js"; "angular"; "vue";
    "typescript"; "html"; "css"; "sql"; "mongodb"; "postgresql"; "mysql";
    "aws"; "azure"; "docker"; "kubernetes"; "git"; "rest api"; "graphql";
    "machine learning"; "ai"; "data science"; "tensorflow"; "pytorch" ].

(** [extract_requirements] *)
Definition extract_requirements (description : string) : list string :=
  Py.slice_to 10 (scan_skills tech_skills (Py.lower description)).

Definition identifier (job : JobListing) : string :=
  (Py.lower (title job) ++ "_" ++ Py.lower (company job) ++ "_"
     ++ Py.lower (location job))%string.

(** The loop of [remove_duplicates], from a given [seen]. *)
Fixpoint remove_duplicates_from (seen : gset string) (jobs : list JobListing)
  : list JobListing :=
  match jobs with
  | [] => []
  | job :: jobs' =>
      if bool_decide (identifier job ∉ seen)
      then job :: remove_duplicates_from ({[identifier job]} ∪ seen) jobs'
      else remove_duplicates_from seen jobs'
  end.

Definition remove_duplicates (jobs : list JobListing) : list JobListing :=
  remove_duplicates_from ∅ jobs.

(** *** The comprehensive run *)

(** The strategy choice at the head of the [try] block: the jobs of the
    source, or [None] where the loop [continue]s. *)
Definition select_and_scrape (w : World) (self : Scraper) (params : Params)
    (source_name : string) (source_config : SourceConfig)
  : M (option (list JobListing)) :=
  if String.eqb (legal_status source_config) "API_AVAILABLE" then
    jobs <- scrape_via_api w self source_name params ;; ret (Some jobs)
  else if String.eqb (legal_status source_config) "API_PREFERRED" then
    jobs <- scrape_via_api_with_fallback w self source_name params ;; ret (Some jobs)
  else if String.eqb (legal_status source_config) "SCRAPING_ALLOWED" then
    jobs <- scrape_via_web w self source_name params ;; ret (Some jobs)
  else if String.eqb (legal_status source_config) "API_ONLY" then
    ret None
  else ret None.

(** One iteration of the loop over [job_sources]: the [try] block and its
    [except] clause. The result is the value of [all_jobs] afterwards. *)
Definition process_source (w : World) (self : Scraper) (params : Params)
    (all_jobs : list JobListing) (entry : string * SourceConfig)
  : M (list JobListing) :=
  let '(source_name, source_config) := entry in
  try_except
    (selected <- select_and_scrape w self params source_name source_config ;;
     match selected with
     | None => ret all_jobs
     | Some jobs =>
         let all_jobs' := all_jobs ++ jobs in
         respectful_delay w self source_name ;;;
         ret all_jobs'
     end)
    (fun e => emit (LogError source_name e) ;;; ret all_jobs).

Fixpoint process_sources (w : World) (self : Scraper) (params : Params)
    (all_jobs : list JobListing) (entries : list (string * SourceConfig))
  : M (list JobListing) :=
  match entries with
  | [] => ret all_jobs
  | entry :: entries' =>
      all_jobs' <- process_source w self params all_jobs entry ;;
      process_sources w self params all_jobs' entries'
  end.

(** [scrape_jobs_comprehensive] *)
Definition scrape_jobs_comprehensive (w : World) (self : Scraper)
    (search_params : option Params) : M (list JobListing) :=
  let search_params := default default_params search_params in
  all_jobs <- process_sources w self search_params [] (job_sources self) ;;
  ret (remove_duplicates all_jobs).

(** *** Observations on a run *)

(** The strategy entries of a history. *)
Definition is_strategy (ev : Event) : bool :=
  match ev with
  | ViaApi _ | ViaWeb _ => true
  | _ => false
  end.

Definition strategies (events : list Event) : list Event := List.filter is_strategy events.

(** The robots.txt retrievals of a history. *)
Definition is_retrieval (ev : Event) : bool :=
  match ev with
  | RobotsRead _ => true
  | _ => false
  end.

Definition retrievals (events : list Event) : nat := length (List.filter is_retrieval events).

(** The error lines of a history. *)
Definition is_error (ev : Event) : bool :=
  match ev with
  | LogError _ _ => true
  | _ => false
  end.

Definition errors (events : list Event) : list Event := List.filter is_error events.

(** The sources that a history shows as attempted, in order. *)
Definition event_source (ev : Event) : string :=
  match ev with
  | ViaApi source | ViaWeb source => source
  | _ => ""
  end.

Definition attempted (events : list Event) : list string :=
  map event_source (strategies events).

Definition is_api_only (entry : string * SourceConfig) : bool :=
  String.eqb (legal_status (snd entry)) "API_ONLY".

(** The entries whose legal status selects a scraping strategy. *)
Definition has_strategy (entry : string * SourceConfig) : bool :=
  String.eqb (legal_status (snd entry)) "API_AVAILABLE"
  || String.eqb (legal_status (snd entry)) "API_PREFERRED"
  || String.eqb (legal_status (snd entry)) "SCRAPING_ALLOWED".

(** What one source adds to [all_jobs], given how its strategy ended. *)
Definition contribution (outcome : Result (option (list JobListing))) : list JobListing :=
  match outcome with
  | Ok (Some jobs) => jobs
  | Ok None => []
  | Raise _ => []
  end.

(** How the strategy of each source ends during a run from [st]: its jobs,
    a skip, or the exception it raises. *)
Fixpoint outcomes (w : World) (self : Scraper) (params : Params)
    (entries : list (string * SourceConfig)) (st : State)
  : list (string * Result (option (list JobListing))) :=
  match entries with
  | [] => []
  | entry :: entries' =>
      (fst entry, fst (select_and_scrape w self params (fst entry) (snd entry) st))
      :: outcomes w self params entries' (snd (process_source w self params [] entry st))
  end.

(** Nothing happened to the robots cache and no robots.txt was retrieved
    between [st] and [st']. *)
Definition robots_untouched (st st' : State) : Prop :=
  robots_cache st' = robots_cache st
  ∧ retrievals (trace st') = retrievals (trace st).

(** The calls of the per-site scrapers in a history. *)
Definition is_fetch (ev : Event) : bool :=
  match ev with
  | Fetch _ => true
  | _ => false
  end.

Definition fetches (events : list Event) : list Event := List.filter is_fetch events.

(** The waits of a history. *)
Definition is_sleep (ev : Event) : bool :=
  match ev with
  | Sleep _ => true
  | _ => false
  end.

Definition sleeps (events : list Event) : nat := length (List.filter is_sleep events).

(** The strategy of a source returned: it neither raised nor was skipped. *)
Definition returned (outcome : string * Result (option (list JobListing))) : bool :=
  match snd outcome with
  | Ok (Some _) => true
  | _ => false
  end.

(** The sources for which a per-site scraper exists. *)
Definition adapter_names : list string :=
  ["github_jobs"; "remoteok"; "stackoverflow_jobs"; "monster"; "dice"; "weworkremotely"].

(** *** The RemoteOK response *)

(** One decoded item of an API response: its string-valued entries, and
    its [tags] entry when present. *)
Record RawJob := mkRawJob {
  fields : gmap string string;
  tags : option (list string)
}.

(** [job_data.get(key, default)] *)
Definition raw_get (job_data : RawJob) (key default_ : string) : string :=
  default default_ (fields job_data !! key).

(** [matches_search_criteria] *)
Definition matches_search_criteria (job_data : RawJob) (params : Params) : bool :=
  let keywords := Py.lower (keywords params) in
  let location := Py.lower (p_location params) in
  let job_text :=
    Py.lower (raw_get job_data "position" "" ++ " " ++ raw_get job_data "description" "") in
  let job_location := Py.lower (raw_get job_data "location" "") in
  let keyword_match := String.eqb keywords "" || Py.contains keywords job_text in
  let location_match :=
    String.eqb location "" || Py.contains location job_location
    || Py.contains "remote" job_location in
  keyword_match && location_match.




(** *** The summary of [main] *)

(** The loop that counts the jobs of each source. *)
Definition count_by_source (jobs : list JobListing) : gmap string nat :=
  fold_left
    (fun sources job => <[source job := default 0 (sources !! source job) + 1]> sources)
    jobs ∅.

End Legal.

(** ** LegalJobScraper at run time

    [Legal] takes the per-site scrapers at their annotations: a call returns
    [JobListing]s whose fields hold strings, or raises an instance of
    [Exception]. The interpreter enforces neither. A per-site scraper stores
    [job_data.get('title', '')] in the listing, which is [None] when the
    decoded response holds a JSON null under the key; and an awaited call can
    end with a [BaseException] that is not an [Exception]
    ([asyncio.CancelledError], [KeyboardInterrupt], [SystemExit]), which no
    [except Exception] clause catches. This module runs the methods of the
    comprehensive run over such calls. *)

Module Runtime.

(** A [JobListing] object as a per-site scraper builds it: [title],
    [company] and [location], the fields that the run reads, hold a string
    or [None]. [None] also stands for the other values that a decoded
    response can hold in place of a string (a number, a list, an object),
    none of which has a method [lower]. *)
Record JobObject := mkJobObject {
  title : option string;
  company : option string;
  location : option string;
  salary : option string;
  description : string;
  requirements : list string;
  job_type : string;
  experience_level : string;
  posted_date : string;
  application_url : string;
  source : string;
  job_id : string
}.

(** The object that holds a listing whose fields keep to their
    annotations. *)
Definition of_listing (job : Legal.JobListing) : JobObject :=
  mkJobObject (Some (Legal.title job)) (Some (Legal.company job)) (Some (Legal.location job))
    (Legal.salary job) (Legal.description job) (Legal.requirements job) (Legal.job_type job)
    (Legal.experience_level job) (Legal.posted_date job) (Legal.application_url job)
    (Legal.source job) (Legal.job_id job).

(** The listing that an object holds, when none of the three fields is
    [None]. *)
Definition as_listing (job : JobObject) : option Legal.JobListing :=
  match title job, company job, location job with
  | Some title, Some company, Some location =>
      Some (Legal.mkJobListing title company location (salary job) (description job)
              (requirements job) (job_type job) (experience_level job) (posted_date job)
              (application_url job) (source job) (job_id job))
  | _, _, _ => None
  end.

Definition well_typed (job : JobObject) : Prop := is_Some (as_listing job).

(** How a call ends at run time: it returns, it raises an instance of
    [Exception], or it raises a [BaseException] that is not an
    [Exception]. *)
Inductive Outcome (A : Type) : Type :=
| Returned (a : A)
| Raised (e : string)
| Escaped (e : string).
Arguments Returned {A} a.
Arguments Raised {A} e.
Arguments Escaped {A} e.

(** The outside of the scraper at run time. [outside] gives the
    environment, the robots files and the random generator; its
    [Legal.site] is not consulted, the per-site scrapers being [site].
    [cancelled n] is the exception delivered to the task while it awaits its
    [n]-th wait, if any. *)
Record World := mkWorld {
  outside : Legal.World;
  site : Legal.Adapter -> Legal.Params -> Outcome (list JobObject);
  cancelled : nat -> option string
}.

Definition M (A : Type) : Type := Legal.State -> Outcome A * Legal.State.

Definition ret {A} (a : A) : M A := fun st => (Returned a, st).

Definition bind {A B} (m : M A) (k : A -> M B) : M B :=
  fun st =>
    match m st with
    | (Returned a, st') => k a st'
    | (Raised e, st') => (Raised e, st')
    | (Escaped e, st') => (Escaped e, st')
    end.

(** [try: body except Exception as e: handler(e)] *)
Definition try_except {A} (body : M A) (handler : string -> M A) : M A :=
  fun st =>
    match body st with
    | (Returned a, st') => (Returned a, st')
    | (Raised e, st') => handler e st'
    | (Escaped e, st') => (Escaped e, st')
    end.

(** A method of [Legal] that calls no per-site scraper and awaits nothing
    behaves at run time as it is typed. *)
Definition lift {A} (m : Legal.M A) : M A :=
  fun st =>
    match m st with
    | (Ok a, st') => (Returned a, st')
    | (Raise e, st') => (Raised e, st')
    end.

Definition finish {A} (outcome : Outcome A) : M A := fun st => (outcome, st).

Notation "x <- m ;; k" := (bind m (fun x => k))
  (at level 100, m at next level, right associativity).
Notation "m ;;; k" := (bind m (fun _ => k))
  (at level 100, right associativity).

(** [respectful_delay]: the wait of [Legal.respectful_delay], which ends
    normally unless the task is cancelled meanwhile. *)
Definition respectful_delay (w : World) (self : Legal.Scraper) (source : string) : M unit :=
  fun st =>
    (lift (Legal.respectful_delay (outside w) self source) ;;;
     finish (match cancelled w (Legal.draws st) with
             | Some e => Escaped e
             | None => Returned tt
             end)) st.

Definition call_site (w : World) (a : Legal.Adapter) (params : Legal.Params)
  : M (list JobObject) :=
  lift (Legal.emit (Legal.Fetch a)) ;;; finish (site w a params).

(** [scrape_via_api] *)
Definition scrape_via_api (w : World) (self : Legal.Scraper) (source : string)
    (params : Legal.Params) : M (list JobObject) :=
  lift (Legal.emit (Legal.ViaApi source)) ;;;
  source_config <- lift (Legal.source_config_of self source) ;;
  if String.eqb source "github_jobs" then call_site w Legal.scrape_github_jobs_api params
  else if String.eqb source "remoteok" then call_site w Legal.scrape_remoteok_api params
  else if String.eqb source "stackoverflow_jobs"
       then call_site w Legal.scrape_stackoverflow_api params
  else ret [].

(** [scrape_via_web] *)
Definition scrape_via_web (w : World) (self : Legal.Scraper) (source : string)
    (params : Legal.Params) : M (list JobObject) :=
  lift (Legal.emit (Legal.ViaWeb source)) ;;;
  source_config <- lift (Legal.source_config_of self source) ;;
  allowed <- lift (Legal.check_robots_txt (outside w) self (Legal.base_url source_config)
                     (Legal.search_endpoint source_config)) ;;
  if negb allowed then
    lift (Legal.emit (Legal.LogWarning source)) ;;; ret []
  else
    try_except
      (if String.eqb source "monster" then call_site w Legal.scrape_monster_web params
       else if String.eqb source "dice" then call_site w Legal.scrape_dice_web params
       else if String.eqb source "weworkremotely"
            then call_site w Legal.scrape_weworkremotely_web params
       else ret [])
      (fun e => lift (Legal.emit (Legal.LogError source e)) ;;; ret []).

(** [scrape_via_api_with_fallback] *)
Definition scrape_via_api_with_fallback (w : World) (self : Legal.Scraper) (source : string)
    (params : Legal.Params) : M (list JobObject) :=
  let api_key_env_var := (Py.upper source ++ "_API_KEY")%string in
  if Legal.env_truthy (outside w) api_key_env_var
  then scrape_via_api w self source params
  else scrape_via_web w self source params.

(** The f-string of [remove_duplicates]: [None] has no method [lower]. *)
Definition identifier (job : JobObject) : Outcome string :=
  match title job, company job, location job with
  | Some title, Some company, Some location =>
      Returned (Py.lower title ++ "_" ++ Py.lower company ++ "_" ++ Py.lower location)%string
  | _, _, _ => Raised "AttributeError"
  end.

(** The loop of [remove_duplicates], from a given [seen]. *)
Fixpoint remove_duplicates_from (seen : gset string) (jobs : list JobObject)
  : Outcome (list JobObject) :=
  match jobs with
  | [] => Returned []
  | job :: jobs' =>
      match identifier job with
      | Returned key =>
          if bool_decide (key ∉ seen)
          then match remove_duplicates_from ({[key]} ∪ seen) jobs' with
               | Returned unique_jobs => Returned (job :: unique_jobs)
               | Raised e => Raised e
               | Escaped e => Escaped e
               end
          else remove_duplicates_from seen jobs'
      | Raised e => Raised e
      | Escaped e => Escaped e
      end
  end.

Definition remove_duplicates (jobs : list JobObject) : Outcome (list JobObject) :=
  remove_duplicates_from ∅ jobs.

(** The strategy choice at the head of the [try] block: the jobs of the
    source, or [None] where the loop [continue]s. *)
Definition select_and_scrape (w : World) (self : Legal.Scraper) (params : Legal.Params)
    (source_name : string) (source_config : Legal.SourceConfig)
  : M (option (list JobObject)) :=
  if String.eqb (Legal.legal_status source_config) "API_AVAILABLE" then
    jobs <- scrape_via_api w self source_name params ;; ret (Some jobs)
  else if String.eqb (Legal.legal_status source_config) "API_PREFERRED" then
    jobs <- scrape_via_api_with_fallback w self source_name params ;; ret (Some jobs)
  else if String.eqb (Legal.legal_status source_config) "SCRAPING_ALLOWED" then
    jobs <- scrape_via_web w self source_name params ;; ret (Some jobs)
  else if String.eqb (Legal.legal_status source_config) "API_ONLY" then
    ret None
  else ret None.

(** One iteration of the loop over [job_sources]: the [try] block and its
    [except Exception] clause. *)
Definition process_source (w : World) (self : Legal.Scraper) (params : Legal.Params)
    (all_jobs : list JobObject) (entry : string * Legal.SourceConfig)
  : M (list JobObject) :=
  let '(source_name, source_config) := entry in
  try_except
    (selected <- select_and_scrape w self params source_name source_config ;;
     match selected with
     | None => ret all_jobs
     | Some jobs =>
         let all_jobs' := all_jobs ++ jobs in
         respectful_delay w self source_name ;;;
         ret all_jobs'
     end)
    (fun e => lift (Legal.emit (Legal.LogError source_name e)) ;;; ret all_jobs).

Fixpoint process_sources (w : World) (self : Legal.Scraper) (params : Legal.Params)
    (all_jobs : list JobObject) (entries : list (string * Legal.SourceConfig))
  : M (list JobObject) :=
  match entries with
  | [] => ret all_jobs
  | entry :: entries' =>
      all_jobs' <- process_source w self params all_jobs entry ;;
      process_sources w self params all_jobs' entries'
  end.

(** [scrape_jobs_comprehensive]; [remove_duplicates] is called after the
    loop, outside every [try]. *)
Definition scrape_jobs_comprehensive (w : World) (self : Legal.Scraper)
    (search_params : option Legal.Params) : M (list JobObject) :=
  let search_params := default Legal.default_params search_params in
  all_jobs <- process_sources w self search_params [] (Legal.job_sources self) ;;
  finish (remove_duplicates all_jobs).

(** What one source adds to [all_jobs], given how its strategy ended. *)
Definition contribution (outcome : Outcome (option (list JobObject))) : list JobObject :=
  match outcome with
  | Returned (Some jobs) => jobs
  | _ => []
  end.

(** How the strategy of each source ends during a run from [st], up to
    and including the source at which the run is left by an exception that
    the loop does not catch. *)
Fixpoint outcomes (w : World) (self : Legal.Scraper) (params : Legal.Params)
    (entries : list (string * Legal.SourceConfig)) (st : Legal.State)
  : list (string * Outcome (option (list JobObject))) :=
  match entries with
  | [] => []
  | entry :: entries' =>
      (fst entry, fst (select_and_scrape w self params (fst entry) (snd entry) st))
      :: match process_source w self params [] entry st with
         | (Returned _, st') => outcomes w self params entries' st'
         | _ => []
         end
  end.

(** The listings that the sources of a run hand to [remove_duplicates]. *)
Definition merged (w : World) (self : Legal.Scraper) (params : Legal.Params)
    (st : Legal.State) : list JobObject :=
  concat (map (fun outcome => contribution (snd outcome))
              (outcomes w self params (Legal.job_sources self) st)).

(** A world of [Legal] at run time: the per-site scrapers keep to their
    annotations and nothing is cancelled. *)
Definition annotated (w : Legal.World) : World :=
  mkWorld w
    (fun a params =>
       match Legal.site w a params with
       | Ok jobs => Returned (map of_listing jobs)
       | Raise e => Raised e
       end)
    (fun _ => None).

(** The run-time view of what a typed method does. *)
Definition at_run_time {A B} (f : A -> B) (run : Result A * Legal.State)
  : Outcome B * Legal.State :=
  match run with
  | (Ok a, st) => (Returned (f a), st)
  | (Raise e, st) => (Raised e, st)
  end.

(** Nothing that the run awaits ends with an exception outside
    [Exception]. *)
Definition uninterrupted (w : World) : Prop :=
  (∀ a params e, site w a params ≠ Escaped e) ∧ (∀ n, cancelled w n = None).


End Runtime.

(** ** The behaviour described by the specification, for comparison *)

Module Spec.

(** Insertion of a skill into a list kept in order of first appearance in
    [text]; a skill that does not appear goes last, ties keep their order. *)
Definition appears_before (text a b : string) : bool :=
  match Py.find a text, Py.find b text with
  | Some i, Some j => (i <=? j)%nat
  | Some _, None => true
  | None, Some _ => false
  | None, None => true
  end.

Fixpoint insert_by_appearance (text skill : string) (sorted : list string) : list string :=
  match sorted with
  | [] => [skill]
  | s :: sorted' =>
      if appears_before text s skill then s :: insert_by_appearance text skill sorted'
      else skill :: s :: sorted'
  end.

Definition sort_by_appearance (text : string) (skills : list string) : list string :=
  fold_left (fun sorted skill => insert_by_appearance text skill sorted) skills [].

(** Requirement tags as the specification words them: the vocabulary
    skills occurring in the text, in order of first appearance, title-cased
    and capped. *)
Definition requirement_tags (cap : nat) (vocabulary : list string) (text : string)
  : list string :=
  let text_lower := Py.lower text in
  let present := List.filter (fun skill => Py.contains skill text_lower) vocabulary in
  firstn cap (map Py.title (sort_by_appearance text_lower present)).

(** The floor the specification gives for a wait:
    [max(source.minDelay, globalMinDelay)]. *)
Definition delay_floor (self : Legal.Scraper) (source_config : Legal.SourceConfig) : float :=
  let a := Legal.rate_limit source_config in
  let b := Legal.delay_min (Legal.config self) in
  if PrimFloat.ltb a b then b else a.

End Spec.

(** ** Concrete inputs *)

Module Sample.

Definition job_a : Advanced.Job :=
  Advanced.mkJob "Senior Python Developer" "Acme Corp" "Remote" "indeed_advanced" [].

Definition job_b : Advanced.Job :=
  Advanced.mkJob "Senior Python Developer" "Acme Corp" "Remote USA" "glassdoor_advanced" [].

Definition rotating : Advanced.Scraper :=
  Advanced.new_scraper (Advanced.default_config true).

Definition not_rotating : Advanced.Scraper :=
  Advanced.new_scraper (Advanced.default_config false).

(** A host without network access, with an empty environment. *)
Definition offline : Legal.World :=
  Legal.mkWorld (fun _ => None) (fun base path => (base ++ path)%string)
                (fun _ => None) (fun _ => 0%float) (fun _ _ => Ok []).

(** A host on which the API calls raise. *)
Definition failing_api : Legal.World :=
  Legal.mkWorld (fun _ => None) (fun base path => (base ++ path)%string)
                (fun _ => None) (fun _ => 0%float) (fun _ _ => Raise "TimeoutError").

(** The same host with a LinkedIn credential in the environment. *)
Definition with_linkedin_key : Legal.World :=
  Legal.mkWorld (fun name => if String.eqb name "LINKEDIN_API_KEY" then Some "secret" else None)
                (fun base path => (base ++ path)%string)
                (fun _ => None) (fun _ => 0%float) (fun _ _ => Ok []).

(** The same host with an Indeed credential in the environment. *)
Definition with_indeed_key : Legal.World :=
  Legal.mkWorld (fun name => if String.eqb name "INDEED_API_KEY" then Some "secret" else None)
                (fun base path => (base ++ path)%string)
                (fun _ => None) (fun _ => 0%float) (fun _ _ => Ok []).

(** The host without network access when [random.random()] returns its
    largest value, 1 - 2^-53. *)
Definition offline_largest_draw : Legal.World :=
  Legal.mkWorld (fun _ => None) (fun base path => (base ++ path)%string)
                (fun _ => None) (fun _ => 0x1.fffffffffffffp-1%float) (fun _ _ => Ok []).

Definition scraper : Legal.Scraper := Legal.new_scraper Legal.default_config.

(** [LegalJobScraper(ScrapingConfig(respect_robots=False))] *)
Definition careless_scraper : Legal.Scraper :=
  Legal.new_scraper (Legal.mkScrapingConfig 1 3 5 30 3 false true).

(** [LegalJobScraper(ScrapingConfig(delay_min=5.0, delay_max=8.0))] *)
Definition patient_scraper : Legal.Scraper :=
  Legal.new_scraper (Legal.mkScrapingConfig 5 8 5 30 3 true true).

Definition linkedin : Legal.SourceConfig :=
  Legal.mkSource "https://www.linkedin.com" "/jobs/search" true
    (Some "https://api.linkedin.com/v2/jobSearch") (Some true) 1 "API_ONLY".

Definition github_jobs : Legal.SourceConfig :=
  Legal.mkSource "https://jobs.github.com" "/positions" true
    (Some "https://jobs.github.com/positions.json") (Some false) 1 "API_AVAILABLE".

Definition indeed : Legal.SourceConfig :=
  Legal.mkSource "https://www.indeed.com" "/jobs" true
    (Some "https://apis.indeed.com/ads/apisearch") (Some true) 2 "API_PREFERRED".

(** A site that answers every request with a server error. *)
Definition dead_site : Advanced.Web :=
  Advanced.mkWeb unit (fun _ _ => Ok (503, "Service Unavailable")) (fun _ _ => [])
                 (fun _ => None) (fun _ => None).

(** A site whose pages load but list no job. *)
Definition empty_site : Advanced.Web :=
  Advanced.mkWeb unit (fun _ _ => Ok (200, "<html></html>")) (fun _ _ => [])
                 (fun _ => None) (fun _ => None).

Definition python_remote : Advanced.SearchParams :=
  Advanced.mkSearchParams "python developer" "remote".

Definition new_crawl : Advanced.Crawl := Advanced.mkCrawl rotating [].

Definition backend_at_acme : Legal.JobListing :=
  Legal.mkJobListing "Backend_Python" "Acme" "Remote" None "" [] "full-time" "not specified"
    "2024-01-01" "" "monster" "1".

Definition backend_at_python_acme : Legal.JobListing :=
  Legal.mkJobListing "Backend" "Python_Acme" "Remote" None "" [] "full-time" "not specified"
    "2024-01-02" "" "dice" "2".

(** An item of the RemoteOK response without keywords in its text. *)
Definition remote_item : Legal.RawJob :=
  Legal.mkRawJob (<["position" := "Rust Engineer"]> (<["location" := "Remote (US)"]> ∅))
                 (Some ["rust"]).

Definition berlin_search : Legal.Params :=
  Legal.mkParams "rust" "Berlin" "mid" "full-time".

(** Two listings of one job, as two sources word it, and a third job. *)
Definition python_at_acme : Runtime.JobObject :=
  Runtime.mkJobObject (Some "Python Developer") (Some "Acme") (Some "Remote") None "" []
    "remote" "not specified" "2024-01-01" "" "remoteok" "7".



(** A listing built from a response whose [title] is a JSON null. *)
Definition untitled : Runtime.JobObject :=
  Runtime.mkJobObject None (Some "Acme") (Some "Remote") (Some "Not specified") "" []
    "" "not specified" "2024-01-01" "" "github_jobs" "3".



(** A host on which the task is cancelled during the first wait. *)
Definition cancelled_during_wait : Runtime.World :=
  Runtime.mkWorld offline
    (fun a _ =>
       match a with
       | Legal.scrape_remoteok_api => Runtime.Returned [python_at_acme]
       | _ => Runtime.Returned []
       end)
    (fun n => if (n =? 0)%nat then Some "CancelledError" else None).

(** A host on which GitHub Jobs answers with a null title. *)
Definition null_title : Runtime.World :=
  Runtime.mkWorld offline
    (fun a _ =>
       match a with
       | Legal.scrape_github_jobs_api => Runtime.Returned [untitled]
       | Legal.scrape_remoteok_api => Runtime.Returned [python_at_acme]
       | _ => Runtime.Returned []
       end)
    (fun _ => None).

(** A robots.txt that allows everything but the search pages. *)
Definition no_search : Legal.RobotFileParser :=
  Legal.mkRobots (fun _ url => negb (Py.contains "/search" url)).

(** A host on which every robots.txt is the one above. *)
Definition guarded : Legal.World :=
  Legal.mkWorld (fun _ => None) (fun base path => (base ++ path)%string)
                (fun _ => Some no_search) (fun _ => 0%float) (fun _ _ => Ok []).

End Sample.

(** * Duplicate removal *)

Lemma advanced_remove_duplicates_from_idem (jobs : list Advanced.Job) :
  ∀ seen : gset string,
    Advanced.remove_duplicates_from seen (Advanced.remove_duplicates_from seen jobs)
    = Advanced.remove_duplicates_from seen jobs.
Proof.
  induction jobs as [|job jobs IH]; intros seen; simpl; [reflexivity|].
  destruct (Advanced.is_duplicate seen (Advanced.identifier job)) eqn:Hdup.
  - apply IH.
  - simpl. rewrite Hdup. f_equal. apply IH.
Qed.

Lemma legal_remove_duplicates_from_idem (jobs : list Legal.JobListing) :
  ∀ seen : gset string,
    Legal.remove_duplicates_from seen (Legal.remove_duplicates_from seen jobs)
    = Legal.remove_duplicates_from seen jobs.
Proof.
  induction jobs as [|job jobs IH]; intros seen; simpl; [reflexivity|].
  destruct (bool_decide (Legal.identifier job ∉ seen)) eqn:Hnew.
  - simpl. rewrite Hnew. f_equal. apply IH.
  - apply IH.
Qed.

(** C3. Duplicate removal is idempotent: applied to its own output it
    returns that output unchanged, for the exact-key variant
    ([remove_duplicates]) and for the Jaccard variant
    ([remove_duplicates_advanced]). *)
Theorem remove_duplicates_idempotent :
  (∀ jobs : list Legal.JobListing,
      Legal.remove_duplicates (Legal.remove_duplicates jobs) = Legal.remove_duplicates jobs)
  ∧ (∀ jobs : list Advanced.Job,
      Advanced.remove_duplicates_advanced (Advanced.remove_duplicates_advanced jobs)
      = Advanced.remove_duplicates_advanced jobs).
Proof.
  split; intros jobs.
  - apply legal_remove_duplicates_from_idem.
  - apply advanced_remove_duplicates_from_idem.
Qed.

(** C1, as stated, fails: the two keys of the example have the token sets
    {senior python developer, acme corp, remote} and
    {senior python developer, acme corp, remote usa}, whose Jaccard
    similarity is 2/4, so the second listing is kept. *)
Lemma dedup_threshold_counterexample :
  Advanced.identifier Sample.job_a = "senior python developer_acme corp_remote"
  ∧ Advanced.identifier Sample.job_b = "senior python developer_acme corp_remote usa"
  ∧ Qgtb (Advanced.similarity_score (Advanced.identifier Sample.job_a)
                                    (Advanced.identifier Sample.job_b)) (85 # 100) = false
  ∧ Advanced.remove_duplicates_advanced [Sample.job_a; Sample.job_b]
    = [Sample.job_a; Sample.job_b].
Proof. repeat split; vm_compute; reflexivity. Qed.

(** C1, amended. For two listings whose composite keys are
    "senior python developer_acme corp_remote" and
    "senior python developer_acme corp_remote usa", the Jaccard similarity of
    the keys over '_'-separated tokens is one half, which does not exceed
    0.85, and duplicate removal applied to the two listings, in either order,
    retains both. *)
Theorem dedup_threshold_keeps_both (a b : Advanced.Job) :
  Advanced.identifier a = "senior python developer_acme corp_remote" →
  Advanced.identifier b = "senior python developer_acme corp_remote usa" →
  (Advanced.similarity_score (Advanced.identifier a) (Advanced.identifier b) == 1 # 2)%Q
  ∧ Advanced.is_duplicate {[Advanced.identifier a]} (Advanced.identifier b) = false
  ∧ Advanced.remove_duplicates_advanced [a; b] = [a; b]
  ∧ Advanced.remove_duplicates_advanced [b; a] = [b; a].
Proof.
  intros Ha Hb.
  unfold Advanced.remove_duplicates_advanced, Advanced.remove_duplicates_from.
  rewrite Ha, Hb.
  repeat split; vm_compute; reflexivity.
Qed.

Lemma dedup_threshold_keeps_both_witness :
  (Advanced.similarity_score (Advanced.identifier Sample.job_a)
                             (Advanced.identifier Sample.job_b) == 1 # 2)%Q
  ∧ Advanced.is_duplicate {[Advanced.identifier Sample.job_a]}
                          (Advanced.identifier Sample.job_b) = false
  ∧ Advanced.remove_duplicates_advanced [Sample.job_a; Sample.job_b]
    = [Sample.job_a; Sample.job_b]
  ∧ Advanced.remove_duplicates_advanced [Sample.job_b; Sample.job_a]
    = [Sample.job_b; Sample.job_a].
Proof.
  apply (dedup_threshold_keeps_both Sample.job_a Sample.job_b); reflexivity.
Defined.

(** * Proxy rotation *)

Lemma get_next_proxy_enabled (self : Advanced.Scraper) :
  Advanced.use_proxies (Advanced.config self) = true →
  Advanced.proxies self ≠ [] →
  snd (Advanced.get_next_proxy self)
  = Advanced.mkScraper (Advanced.config self) (Advanced.proxies self)
      (if (Advanced.request_count self mod 5 =? 0)%nat
       then (Advanced.current_proxy_index self + 1) mod length (Advanced.proxies self)
       else Advanced.current_proxy_index self)
      (Advanced.request_count self + 1).
Proof.
  intros Huse Hpool. unfold Advanced.get_next_proxy.
  rewrite Huse. rewrite bool_decide_eq_false_2 by exact Hpool. reflexivity.
Qed.

Lemma length_pos_of_nonempty {A} (l : list A) : l ≠ [] → 0 < length l.
Proof. destruct l; [congruence | simpl; lia]. Qed.

Lemma rotations_step (count n : nat) :
  Advanced.rotations count (S n)
  = (if (count mod 5 =? 0)%nat then 1 else 0) + Advanced.rotations (count + 1) n.
Proof.
  unfold Advanced.rotations.
  replace (count + 1 + n + 4) with (count + S n + 4) by lia.
  assert (H1 : (count + 4) / 5 ≤ (count + 1 + 4) / 5)
    by (apply Nat.Div0.div_le_mono; lia).
  assert (H2 : (count + 1 + 4) / 5 ≤ (count + S n + 4) / 5)
    by (apply Nat.Div0.div_le_mono; lia).
  pose proof (Nat.div_mod_eq count 5) as Hc.
  pose proof (Nat.mod_upper_bound count 5 ltac:(lia)) as Hb.
  pose proof (Nat.div_mod_eq (count + 4) 5) as Hc4.
  pose proof (Nat.mod_upper_bound (count + 4) 5 ltac:(lia)) as Hb4.
  pose proof (Nat.div_mod_eq (count + 1 + 4) 5) as Hc5.
  pose proof (Nat.mod_upper_bound (count + 1 + 4) 5 ltac:(lia)) as Hb5.
  destruct (Nat.eqb_spec (count mod 5) 0) as [Hz|Hnz]; lia.
Qed.

Lemma after_requests_index (n : nat) :
  ∀ self : Advanced.Scraper,
    Advanced.use_proxies (Advanced.config self) = true →
    Advanced.proxies self ≠ [] →
    Advanced.current_proxy_index self < length (Advanced.proxies self) →
    let self' := Advanced.after_requests n self in
    Advanced.config self' = Advanced.config self
    ∧ Advanced.proxies self' = Advanced.proxies self
    ∧ Advanced.request_count self' = Advanced.request_count self + n
    ∧ Advanced.current_proxy_index self'
      = (Advanced.current_proxy_index self + Advanced.rotations (Advanced.request_count self) n)
          mod length (Advanced.proxies self).
Proof.
  induction n as [|n IH]; intros self Huse Hpool Hidx; simpl.
  - repeat split; [lia|].
    unfold Advanced.rotations. rewrite Nat.add_0_r, Nat.sub_diag, Nat.add_0_r.
    symmetry. apply Nat.mod_small. exact Hidx.
  - pose proof (length_pos_of_nonempty _ Hpool) as Hlen.
    rewrite (get_next_proxy_enabled self Huse Hpool).
    match goal with |- context [Advanced.after_requests n ?s] => set (next := s) end.
    assert (Hnext : Advanced.current_proxy_index next < length (Advanced.proxies next)).
    { subst next; simpl. destruct (_ =? _)%nat; [apply Nat.mod_upper_bound; lia | exact Hidx]. }
    destruct (IH next Huse Hpool Hnext) as (Hc & Hp & Hr & Hi).
    rewrite Hc, Hp, Hr, Hi. subst next; simpl.
    repeat split; [lia|].
    rewrite rotations_step.
    destruct (_ =? _)%nat.
    + rewrite Nat.Div0.add_mod_idemp_l. f_equal. lia.
    + f_equal.
Qed.

(** C7, as stated, fails in its last part: with rotation disabled the code
    returns no proxy at all, not the first proxy of the pool. *)
Lemma get_next_proxy_disabled_counterexample :
  Advanced.use_proxies (Advanced.config Sample.not_rotating) = false
  ∧ Advanced.proxies Sample.not_rotating !! 0
    = Some (Some (Advanced.mkProxy "http://proxy1.example.com:8080"
                                   "http://proxy1.example.com:8080"))
  ∧ fst (Advanced.get_next_proxy Sample.not_rotating) = Ok None.
Proof. repeat split. Qed.

(** C7, amended. With [use_proxies] on and a non-empty pool, a call
    advances the proxy index by one (modulo the pool size) exactly when the
    single request counter of the scraper is a multiple of 5, increments that
    counter and returns the proxy at the resulting index; hence after [n]
    calls the index has advanced once per multiple of 5 met by the counter,
    and any 5 consecutive calls advance it exactly once. With [use_proxies]
    off the call returns no proxy (direct connection) and leaves counter and
    index unchanged. *)
Theorem get_next_proxy_rotation (self : Advanced.Scraper) :
  (Advanced.use_proxies (Advanced.config self) = false →
   Advanced.get_next_proxy self = (Ok None, self))
  ∧ (Advanced.use_proxies (Advanced.config self) = true →
     Advanced.proxies self ≠ [] →
     Advanced.current_proxy_index self < length (Advanced.proxies self) →
     let size := length (Advanced.proxies self) in
     let self' := snd (Advanced.get_next_proxy self) in
     Advanced.request_count self' = Advanced.request_count self + 1
     ∧ Advanced.current_proxy_index self'
       = (if (Advanced.request_count self mod 5 =? 0)%nat
          then (Advanced.current_proxy_index self + 1) mod size
          else Advanced.current_proxy_index self)
     ∧ (∃ proxy, Advanced.proxies self !! Advanced.current_proxy_index self' = Some proxy
                 ∧ fst (Advanced.get_next_proxy self) = Ok proxy)
     ∧ (∀ n, Advanced.request_count (Advanced.after_requests n self)
             = Advanced.request_count self + n
             ∧ Advanced.current_proxy_index (Advanced.after_requests n self)
               = (Advanced.current_proxy_index self
                  + Advanced.rotations (Advanced.request_count self) n) mod size)
     ∧ Advanced.current_proxy_index (Advanced.after_requests 5 self)
       = (Advanced.current_proxy_index self + 1) mod size).
Proof.
  split.
  - intros Huse. unfold Advanced.get_next_proxy. rewrite Huse. reflexivity.
  - intros Huse Hpool Hidx size self'.
    pose proof (length_pos_of_nonempty _ Hpool) as Hlen.
    assert (Hsnd := get_next_proxy_enabled self Huse Hpool).
    split; [subst self'; rewrite Hsnd; reflexivity|].
    split; [subst self'; rewrite Hsnd; reflexivity|].
    split.
    { assert (Hlt : Advanced.current_proxy_index self' < length (Advanced.proxies self)).
      { subst self'. rewrite Hsnd. simpl.
        destruct (_ =? _)%nat; [apply Nat.mod_upper_bound; lia | exact Hidx]. }
      destruct (lookup_lt_is_Some_2 _ _ Hlt) as [proxy Hproxy].
      exists proxy. split; [exact Hproxy|].
      subst self'. rewrite Hsnd in Hproxy. simpl in Hproxy.
      unfold Advanced.get_next_proxy.
      rewrite Huse. rewrite bool_decide_eq_false_2 by exact Hpool. simpl.
      rewrite Hproxy. reflexivity. }
    split.
    { intros n. destruct (after_requests_index n self Huse Hpool Hidx) as (_ & _ & Hr & Hi).
      split; assumption. }
    destruct (after_requests_index 5 self Huse Hpool Hidx) as (_ & _ & _ & Hi).
    rewrite Hi. f_equal. f_equal.
    unfold Advanced.rotations.
    pose proof (Nat.div_mod_eq (Advanced.request_count self + 4) 5).
    pose proof (Nat.div_mod_eq (Advanced.request_count self + 5 + 4) 5).
    pose proof (Nat.mod_upper_bound (Advanced.request_count self + 4) 5 ltac:(lia)).
    pose proof (Nat.mod_upper_bound (Advanced.request_count self + 5 + 4) 5 ltac:(lia)).
    lia.
Qed.

Lemma get_next_proxy_rotation_witness :
  Advanced.get_next_proxy Sample.not_rotating = (Ok None, Sample.not_rotating)
  ∧ Advanced.current_proxy_index (Advanced.after_requests 5 Sample.rotating) = 1.
Proof.
  split.
  - apply (proj1 (get_next_proxy_rotation Sample.not_rotating)). reflexivity.
  - assert (Hpool : Advanced.proxies Sample.rotating ≠ []) by discriminate.
    assert (Hidx : Advanced.current_proxy_index Sample.rotating
                   < length (Advanced.proxies Sample.rotating)) by (simpl; lia).
    exact (proj2 (proj2 (proj2 (proj2
             (proj2 (get_next_proxy_rotation Sample.rotating) eq_refl Hpool Hidx))))).
Defined.

(** * Requirement tags *)

Lemma scan_from (vocabulary : list string) (text_lower : string) :
  ∀ found,
    fold_left
      (fun found skill =>
         if Py.contains skill text_lower then found ++ [Py.title skill] else found)
      vocabulary found
    = found ++ map Py.title (List.filter (fun skill => Py.contains skill text_lower) vocabulary).
Proof.
  induction vocabulary as [|skill vocabulary IH]; intros found; simpl.
  - symmetry. apply app_nil_r.
  - rewrite IH. destruct (Py.contains skill text_lower); simpl.
    + rewrite <- app_assoc. reflexivity.
    + reflexivity.
Qed.

Lemma scan_filter (vocabulary : list string) (text_lower : string) :
  scan_skills vocabulary text_lower
  = map Py.title (List.filter (fun skill => Py.contains skill text_lower) vocabulary).
Proof. unfold scan_skills. rewrite scan_from. reflexivity. Qed.

Lemma filter_sublist {A} (f : A → bool) (l : list A) : sublist (List.filter f l) l.
Proof.
  induction l as [|x l IH]; simpl.
  - constructor.
  - destruct (f x); [apply sublist_skip | apply sublist_cons]; exact IH.
Qed.

Lemma map_sublist {A B} (f : A → B) (l1 l2 : list A) :
  sublist l1 l2 → sublist (map f l1) (map f l2).
Proof.
  induction 1; simpl; [constructor | apply sublist_skip | apply sublist_cons]; assumption.
Qed.

Lemma tags_in_vocabulary_order (cap : nat) (vocabulary : list string) (text_lower : string) :
  sublist (firstn cap (scan_skills vocabulary text_lower)) (map Py.title vocabulary).
Proof.
  rewrite scan_filter.
  transitivity (map Py.title (List.filter (fun skill => Py.contains skill text_lower) vocabulary)).
  - apply sublist_take.
  - apply map_sublist, filter_sublist.
Qed.

(** C8, as stated, fails: the tags come out in the order of the vocabulary,
    not in the order of first appearance in the text. In "java and python"
    the skill "java" appears first (position 0, "python" at 9), and the code
    returns Python before Java. *)
Lemma extract_requirements_order_counterexample :
  Py.find "java" (Py.lower "java and python") = Some 0
  ∧ Py.find "python" (Py.lower "java and python") = Some 9
  ∧ Spec.requirement_tags 10 Legal.tech_skills "java and python" = ["Java"; "Python"]
  ∧ Legal.extract_requirements "java and python" = ["Python"; "Java"]
  ∧ Advanced.extract_skills_from_text "java and python" = ["Python"; "Java"].
Proof. repeat split. Qed.

(** C8, amended. For every description, requirement-tag extraction returns
    the skills of the fixed vocabulary that occur as substrings of the
    lower-cased text, title-cased, listed in the order of the vocabulary, and
    truncated to the first 10 ([extract_requirements]) or 15
    ([extract_skills_from_text]) of them. *)
Theorem extract_requirements_vocabulary_order (text : string) :
  let occurs := fun skill => Py.contains skill (Py.lower text) in
  Legal.extract_requirements text
  = firstn 10 (map Py.title (List.filter occurs Legal.tech_skills))
  ∧ Advanced.extract_skills_from_text text
    = firstn 15 (map Py.title (List.filter occurs Advanced.skills_database))
  ∧ length (Legal.extract_requirements text) ≤ 10
  ∧ length (Advanced.extract_skills_from_text text) ≤ 15
  ∧ sublist (Legal.extract_requirements text) (map Py.title Legal.tech_skills)
  ∧ sublist (Advanced.extract_skills_from_text text) (map Py.title Advanced.skills_database).
Proof.
  intros occurs.
  unfold Legal.extract_requirements, Advanced.extract_skills_from_text, Py.slice_to.
  repeat split.
  - rewrite scan_filter. reflexivity.
  - rewrite scan_filter. reflexivity.
  - rewrite length_firstn. lia.
  - rewrite length_firstn. lia.
  - apply tags_in_vocabulary_order.
  - apply tags_in_vocabulary_order.
Qed.

(** * The robots gate *)

(** C2, as stated, fails: after a failed retrieval nothing is cached, and
    the next call for the same base address retrieves robots.txt again. *)
Lemma check_robots_txt_not_cached_counterexample :
  let call := Legal.check_robots_txt Sample.offline Sample.scraper
                "https://www.monster.com" "/jobs/search" in
  let st1 := snd (call Legal.initial_state) in
  let st2 := snd (call st1) in
  fst (call Legal.initial_state) = Ok true
  ∧ Legal.robots_cache st1 = ∅
  ∧ Legal.retrievals (Legal.trace st1) = 1
  ∧ Legal.retrievals (Legal.trace st2) = 2.
Proof. repeat split. Qed.

(** C2, amended. With the robots switch on, if no parser is cached for the
    base address and retrieving its robots.txt raises, [check_robots_txt]
    returns true (fail-open) after one retrieval and caches nothing; a second
    call for the same base address therefore retrieves robots.txt again. *)
Theorem check_robots_txt_fail_open (w : Legal.World) (self : Legal.Scraper)
    (base_url endpoint : string) (st : Legal.State) :
  Legal.respect_robots (Legal.config self) = true →
  Legal.robots_cache st !! base_url = None →
  Legal.robots_read w (Legal.urljoin w base_url "/robots.txt") = None →
  let attempt := [Legal.RobotsRead (Legal.urljoin w base_url "/robots.txt");
                  Legal.LogWarning base_url] in
  let st1 := Legal.mkState (Legal.robots_cache st) (Legal.draws st)
                           (Legal.trace st ++ attempt) in
  let st2 := Legal.mkState (Legal.robots_cache st) (Legal.draws st)
                           (Legal.trace st1 ++ attempt) in
  Legal.check_robots_txt w self base_url endpoint st = (Ok true, st1)
  ∧ Legal.check_robots_txt w self base_url endpoint st1 = (Ok true, st2)
  ∧ Legal.retrievals (Legal.trace st2) = 2 + Legal.retrievals (Legal.trace st).
Proof.
  intros Hrespect Hcache Hread attempt st1 st2.
  assert (Hcall : ∀ s, Legal.robots_cache s !! base_url = None →
            Legal.check_robots_txt w self base_url endpoint s
            = (Ok true, Legal.mkState (Legal.robots_cache s) (Legal.draws s)
                                      (Legal.trace s ++ attempt))).
  { intros s Hs. unfold Legal.check_robots_txt.
    rewrite Hrespect; simpl.
    unfold Legal.bind, Legal.cached_robots. rewrite Hs, Hread.
    unfold Legal.emit, Legal.ret; simpl.
    rewrite <- app_assoc. reflexivity. }
  split; [apply Hcall; exact Hcache|].
  split; [apply (Hcall st1); exact Hcache|].
  unfold Legal.retrievals. subst st2 st1; simpl.
  rewrite !List.filter_app, !length_app. simpl. lia.
Qed.

Lemma check_robots_txt_fail_open_witness :
  Legal.check_robots_txt Sample.offline Sample.scraper "https://www.dice.com" "/jobs"
    Legal.initial_state
  = (Ok true,
     Legal.mkState ∅ 0 [Legal.RobotsRead "https://www.dice.com/robots.txt";
                        Legal.LogWarning "https://www.dice.com"]).
Proof.
  apply (check_robots_txt_fail_open Sample.offline Sample.scraper
           "https://www.dice.com" "/jobs" Legal.initial_state); reflexivity.
Defined.

(** * The respectful delay *)

(** C6. The code does not keep the floor that the claim states and that
    the comment on [delay_min] promises ("Minimum delay between requests"):
    [delay_min] is read only as the default of the [rate_limit] lookup. For
    every source of [job_sources], whatever the configuration, the wait is
    [random.uniform(rate_limit, rate_limit + 1.0)]. With [delay_min = 5.0]
    the floor of the claim for github_jobs is 5.0 seconds, but the wait
    after github_jobs is 1.0 second for the draw 0.0 and 2.0 seconds for the
    largest draw; for indeed ([rate_limit] 2.0) the largest draw gives 3.0
    seconds, the upper end itself. In a whole run under [delay_min = 5.0] no
    wait reaches 5.0 seconds, and the request to remoteok ([rate_limit] 2.0)
    follows the request to github_jobs after a wait of 1.0 second. *)
Theorem respectful_delay_ignores_delay_min :
  (∀ (w : Legal.World) (cfg : Legal.ScrapingConfig) (st : Legal.State),
     Forall (fun entry =>
               let min_delay := Legal.rate_limit (snd entry) in
               Legal.respectful_delay w (Legal.new_scraper cfg) (fst entry) st
               = (Ok tt,
                  Legal.mkState (Legal.robots_cache st) (S (Legal.draws st))
                    (Legal.trace st
                     ++ [Legal.Sleep (min_delay + (min_delay + 1 - min_delay)
                                                  * Legal.random w (Legal.draws st))])))
            Legal.default_job_sources)
  ∧ Legal.get_source (Legal.job_sources Sample.patient_scraper) "github_jobs"
    = Some Sample.github_jobs
  ∧ Spec.delay_floor Sample.patient_scraper Sample.github_jobs = 5%float
  ∧ Legal.respectful_delay Sample.offline Sample.patient_scraper "github_jobs"
      Legal.initial_state
    = (Ok tt, Legal.mkState ∅ 1 [Legal.Sleep 1])
  ∧ Legal.respectful_delay Sample.offline_largest_draw Sample.patient_scraper "github_jobs"
      Legal.initial_state
    = (Ok tt, Legal.mkState ∅ 1 [Legal.Sleep 2])
  ∧ Legal.respectful_delay Sample.offline_largest_draw Sample.patient_scraper "indeed"
      Legal.initial_state
    = (Ok tt, Legal.mkState ∅ 1 [Legal.Sleep 3])
  ∧ PrimFloat.ltb 2 5 = true
  ∧ List.filter (fun ev => Legal.is_fetch ev || Legal.is_sleep ev)
      (Legal.trace (snd (Legal.scrape_jobs_comprehensive Sample.offline Sample.patient_scraper
                           None Legal.initial_state)))
    = [ Legal.Sleep 2; Legal.Sleep 1.5; Legal.Sleep 2;
        Legal.Fetch Legal.scrape_monster_web; Legal.Sleep 3;
        Legal.Fetch Legal.scrape_dice_web; Legal.Sleep 2.5;
        Legal.Sleep 1;
        Legal.Fetch Legal.scrape_github_jobs_api; Legal.Sleep 1;
        Legal.Fetch Legal.scrape_remoteok_api; Legal.Sleep 2;
        Legal.Fetch Legal.scrape_weworkremotely_web; Legal.Sleep 3 ].
Proof.
  split.
  { intros w cfg st. unfold Legal.default_job_sources.
    repeat (apply List.Forall_cons; [reflexivity|]). apply List.Forall_nil. }
  repeat split.
Qed.

(** * Strategy selection *)

Lemma strategies_app (l1 l2 : list Legal.Event) :
  Legal.strategies (l1 ++ l2) = Legal.strategies l1 ++ Legal.strategies l2.
Proof. apply List.filter_app. Qed.

Ltac run_monad :=
  unfold Legal.bind, Legal.try_except, Legal.emit, Legal.ret, Legal.raise,
    Legal.lift_result, Legal.call_site, Legal.source_config_of; simpl.

Ltac close_strategies :=
  simpl; rewrite ?strategies_app; simpl; rewrite <- ?app_assoc, ?app_nil_r; try reflexivity.

Lemma check_robots_txt_returns (w : Legal.World) (self : Legal.Scraper)
    (base_url endpoint : string) (st : Legal.State) :
  ∃ allowed st',
    Legal.check_robots_txt w self base_url endpoint st = (Ok allowed, st')
    ∧ Legal.strategies (Legal.trace st') = Legal.strategies (Legal.trace st).
Proof.
  unfold Legal.check_robots_txt.
  destruct (Legal.respect_robots (Legal.config self)); simpl;
    [|eexists _, _; split; reflexivity].
  unfold Legal.bind at 1, Legal.cached_robots.
  destruct (Legal.robots_cache st !! base_url) as [rp|].
  - run_monad.
    destruct (Legal.can_fetch rp "*" (Legal.urljoin w base_url endpoint));
      run_monad; eexists _, _; (split; [reflexivity|]); close_strategies.
  - destruct (Legal.robots_read w (Legal.urljoin w base_url "/robots.txt")) as [rp|].
    + unfold Legal.cache_robots. run_monad.
      destruct (Legal.can_fetch rp "*" (Legal.urljoin w base_url endpoint));
        run_monad; eexists _, _; (split; [reflexivity|]); close_strategies.
    + run_monad. eexists _, _. split; [reflexivity|]. close_strategies.
Qed.

Lemma scrape_via_api_strategies (w : Legal.World) (self : Legal.Scraper) (source : string)
    (params : Legal.Params) (st : Legal.State) :
  Legal.strategies (Legal.trace (snd (Legal.scrape_via_api w self source params st)))
  = Legal.strategies (Legal.trace st) ++ [Legal.ViaApi source].
Proof.
  unfold Legal.scrape_via_api. run_monad.
  destruct (Legal.get_source (Legal.job_sources self) source); simpl; [|close_strategies].
  repeat (destruct (String.eqb source _); simpl;
          [run_monad; close_strategies|]).
  close_strategies.
Qed.

Lemma scrape_via_web_strategies (w : Legal.World) (self : Legal.Scraper) (source : string)
    (params : Legal.Params) (st : Legal.State) :
  Legal.strategies (Legal.trace (snd (Legal.scrape_via_web w self source params st)))
  = Legal.strategies (Legal.trace st) ++ [Legal.ViaWeb source].
Proof.
  unfold Legal.scrape_via_web. unfold Legal.bind at 1. unfold Legal.emit at 1.
  set (st0 := Legal.mkState _ _ (Legal.trace st ++ [Legal.ViaWeb source])).
  assert (H0 : Legal.strategies (Legal.trace st0)
               = Legal.strategies (Legal.trace st) ++ [Legal.ViaWeb source])
    by (subst st0; close_strategies).
  unfold Legal.bind at 1, Legal.source_config_of.
  destruct (Legal.get_source (Legal.job_sources self) source) as [source_config|];
    [|simpl; exact H0].
  unfold Legal.ret at 1. unfold Legal.bind at 1.
  destruct (check_robots_txt_returns w self (Legal.base_url source_config)
              (Legal.search_endpoint source_config) st0) as (allowed & st1 & Hcheck & H1).
  rewrite Hcheck. rewrite <- H0, <- H1.
  destruct allowed; simpl.
  - run_monad.
    repeat (destruct (String.eqb source _); simpl;
            [run_monad; destruct (Legal.site w _ params); close_strategies|]).
    reflexivity.
  - run_monad. close_strategies.
Qed.

Lemma bind_ret_snd {A B} (m : Legal.M A) (f : A → B) (st : Legal.State) :
  snd (Legal.bind m (fun x => Legal.ret (f x)) st) = snd (m st).
Proof. unfold Legal.bind, Legal.ret. destruct (m st) as [[x|e] st']; reflexivity. Qed.

(** C5, as stated, fails for the API_AVAILABLE sources: github_jobs is
    fetched through its API although no credential is configured, and no
    HTML scrape is attempted. *)
Lemma api_available_no_fallback_counterexample :
  Legal.legal_status Sample.github_jobs = "API_AVAILABLE"
  ∧ (Py.upper "github_jobs" ++ "_API_KEY")%string = "GITHUB_JOBS_API_KEY"
  ∧ Legal.getenv Sample.offline "GITHUB_JOBS_API_KEY" = None
  ∧ Legal.strategies
      (Legal.trace (snd (Legal.select_and_scrape Sample.offline Sample.scraper
                           Legal.default_params "github_jobs" Sample.github_jobs
                           Legal.initial_state)))
    = [Legal.ViaApi "github_jobs"].
Proof. repeat split. Qed.

(** C5, amended. A source whose legal status is API_PREFERRED is scraped
    through [scrape_via_api] when the environment variable
    <SOURCE>_API_KEY is set to a non-empty value, and through
    [scrape_via_web] exactly when it is unset or empty; a source whose legal
    status is API_AVAILABLE is always scraped through [scrape_via_api],
    whether or not a credential is configured. *)
Theorem strategy_selection (w : Legal.World) (self : Legal.Scraper) (params : Legal.Params)
    (name : string) (source_config : Legal.SourceConfig) (st : Legal.State) :
  let key := (Py.upper name ++ "_API_KEY")%string in
  let run := Legal.select_and_scrape w self params name source_config st in
  let via_api :=
    Legal.bind (Legal.scrape_via_api w self name params) (fun jobs => Legal.ret (Some jobs)) in
  let via_web :=
    Legal.bind (Legal.scrape_via_web w self name params) (fun jobs => Legal.ret (Some jobs)) in
  (Legal.legal_status source_config = "API_AVAILABLE" →
   run = via_api st
   ∧ Legal.strategies (Legal.trace (snd run))
     = Legal.strategies (Legal.trace st) ++ [Legal.ViaApi name])
  ∧ (Legal.legal_status source_config = "API_PREFERRED" →
     (∃ c value, Legal.getenv w key = Some (String c value)) →
     run = via_api st
     ∧ Legal.strategies (Legal.trace (snd run))
       = Legal.strategies (Legal.trace st) ++ [Legal.ViaApi name])
  ∧ (Legal.legal_status source_config = "API_PREFERRED" →
     Legal.getenv w key = None ∨ Legal.getenv w key = Some "" →
     run = via_web st
     ∧ Legal.strategies (Legal.trace (snd run))
       = Legal.strategies (Legal.trace st) ++ [Legal.ViaWeb name]).
Proof.
  intros key run via_api via_web.
  assert (Hapi : Legal.strategies (Legal.trace (snd (via_api st)))
                 = Legal.strategies (Legal.trace st) ++ [Legal.ViaApi name]).
  { subst via_api. rewrite bind_ret_snd. apply scrape_via_api_strategies. }
  assert (Hweb : Legal.strategies (Legal.trace (snd (via_web st)))
                 = Legal.strategies (Legal.trace st) ++ [Legal.ViaWeb name]).
  { subst via_web. rewrite bind_ret_snd. apply scrape_via_web_strategies. }
  split; [|split].
  - intros Hstatus.
    assert (Hrun : run = via_api st).
    { subst run. unfold Legal.select_and_scrape. rewrite Hstatus. reflexivity. }
    rewrite Hrun. split; [reflexivity | exact Hapi].
  - intros Hstatus (c & value & Henv).
    assert (Hrun : run = via_api st).
    { subst run. unfold Legal.select_and_scrape, Legal.scrape_via_api_with_fallback,
        Legal.env_truthy.
      rewrite Hstatus. fold key. rewrite Henv. reflexivity. }
    rewrite Hrun. split; [reflexivity | exact Hapi].
  - intros Hstatus Henv.
    assert (Hrun : run = via_web st).
    { subst run. unfold Legal.select_and_scrape, Legal.scrape_via_api_with_fallback,
        Legal.env_truthy.
      rewrite Hstatus. fold key. destruct Henv as [Henv|Henv]; rewrite Henv; reflexivity. }
    rewrite Hrun. split; [reflexivity | exact Hweb].
Qed.

Lemma strategy_selection_witness :
  Legal.strategies
    (Legal.trace (snd (Legal.select_and_scrape Sample.offline Sample.scraper
                         Legal.default_params "github_jobs" Sample.github_jobs
                         Legal.initial_state)))
  = [Legal.ViaApi "github_jobs"]
  ∧ Legal.strategies
      (Legal.trace (snd (Legal.select_and_scrape Sample.with_indeed_key Sample.scraper
                           Legal.default_params "indeed" Sample.indeed
                           Legal.initial_state)))
    = [Legal.ViaApi "indeed"]
  ∧ Legal.strategies
      (Legal.trace (snd (Legal.select_and_scrape Sample.offline Sample.scraper
                           Legal.default_params "indeed" Sample.indeed
                           Legal.initial_state)))
    = [Legal.ViaWeb "indeed"].
Proof.
  split; [|split].
  - apply (proj1 (strategy_selection Sample.offline Sample.scraper Legal.default_params
                    "github_jobs" Sample.github_jobs Legal.initial_state)).
    reflexivity.
  - apply (proj1 (proj2 (strategy_selection Sample.with_indeed_key Sample.scraper
                           Legal.default_params "indeed" Sample.indeed Legal.initial_state))).
    + reflexivity.
    + exists "s"%char, "ecret". reflexivity.
  - apply (proj2 (proj2 (strategy_selection Sample.offline Sample.scraper
                           Legal.default_params "indeed" Sample.indeed Legal.initial_state))).
    + reflexivity.
    + left. reflexivity.
Defined.

(** * Skipped sources *)

Arguments Legal.process_source : simpl never.
Arguments Legal.select_and_scrape : simpl never.
Arguments Legal.respectful_delay : simpl never.

Lemma process_source_api_only (w : Legal.World) (self : Legal.Scraper)
    (params : Legal.Params) (all_jobs : list Legal.JobListing)
    (name : string) (source_config : Legal.SourceConfig) (st : Legal.State) :
  Legal.legal_status source_config = "API_ONLY" →
  Legal.process_source w self params all_jobs (name, source_config) st = (Ok all_jobs, st).
Proof.
  intros Hstatus. unfold Legal.process_source, Legal.select_and_scrape.
  rewrite Hstatus. reflexivity.
Qed.

(** C4. A source whose legal status is API_ONLY and for which no API
    credential is present is skipped: its iteration leaves the accumulated
    listings unchanged, raises nothing, and leaves the state, hence the
    history of fetches and error lines, unchanged. *)
Theorem api_only_without_credential_skipped (w : Legal.World) (self : Legal.Scraper)
    (params : Legal.Params) (all_jobs : list Legal.JobListing)
    (name : string) (source_config : Legal.SourceConfig) (st : Legal.State) :
  Legal.legal_status source_config = "API_ONLY" →
  Legal.env_truthy w (Py.upper name ++ "_API_KEY") = false →
  let step := Legal.process_source w self params all_jobs (name, source_config) st in
  fst step = Ok all_jobs
  ∧ snd step = st
  ∧ Legal.errors (Legal.trace (snd step)) = Legal.errors (Legal.trace st).
Proof.
  intros Hstatus _ step. subst step.
  rewrite (process_source_api_only w self params all_jobs name source_config st Hstatus).
  repeat split.
Qed.

Lemma api_only_without_credential_skipped_witness :
  let step := Legal.process_source Sample.offline Sample.scraper Legal.default_params []
                ("linkedin", Sample.linkedin) Legal.initial_state in
  fst step = Ok []
  ∧ snd step = Legal.initial_state
  ∧ Legal.errors (Legal.trace (snd step)) = Legal.errors (Legal.trace Legal.initial_state).
Proof.
  apply (api_only_without_credential_skipped Sample.offline Sample.scraper
           Legal.default_params [] "linkedin" Sample.linkedin Legal.initial_state);
    reflexivity.
Defined.

Lemma process_sources_skips_api_only (w : Legal.World) (self : Legal.Scraper)
    (params : Legal.Params) (entries : list (string * Legal.SourceConfig)) :
  ∀ (all_jobs : list Legal.JobListing) (st : Legal.State),
    Legal.process_sources w self params all_jobs entries st
    = Legal.process_sources w self params all_jobs
        (List.filter (fun entry => negb (Legal.is_api_only entry)) entries) st.
Proof.
  induction entries as [|[name source_config] entries IH]; intros all_jobs st; simpl.
  - reflexivity.
  - unfold Legal.is_api_only at 1; simpl.
    destruct (String.eqb_spec (Legal.legal_status source_config) "API_ONLY") as [Hstatus|_];
      simpl.
    + unfold Legal.bind at 1.
      rewrite (process_source_api_only w self params all_jobs name source_config st Hstatus).
      apply IH.
    + unfold Legal.bind.
      destruct (Legal.process_source w self params all_jobs (name, source_config) st)
        as [[all_jobs'|e] st']; [apply IH | reflexivity].
Qed.

(** C10. Every source whose legal status is API_ONLY is skipped
    unconditionally: whatever the environment holds, credentials included,
    its iteration changes neither the accumulated listings nor the state, and
    the comprehensive run gives the same listings and the same final state
    as the run whose loop leaves the API_ONLY entries out. *)
Theorem api_only_always_skipped (w : Legal.World) (self : Legal.Scraper)
    (search_params : option Legal.Params) (st : Legal.State) :
  let params := default Legal.default_params search_params in
  let others := List.filter (fun entry => negb (Legal.is_api_only entry))
                            (Legal.job_sources self) in
  Forall (fun entry =>
            Legal.is_api_only entry = true →
            ∀ all_jobs st0,
              Legal.process_source w self params all_jobs entry st0 = (Ok all_jobs, st0))
         (Legal.job_sources self)
  ∧ Legal.scrape_jobs_comprehensive w self search_params st
    = Legal.bind (Legal.process_sources w self params [] others)
                 (fun all_jobs => Legal.ret (Legal.remove_duplicates all_jobs)) st.
Proof.
  intros params others. split.
  - apply Forall_forall. intros [name source_config] _ Hstatus all_jobs st0.
    apply process_source_api_only.
    apply String.eqb_eq. exact Hstatus.
  - unfold Legal.scrape_jobs_comprehensive. fold params.
    unfold Legal.bind. rewrite process_sources_skips_api_only. reflexivity.
Qed.

Lemma api_only_always_skipped_witness :
  Legal.env_truthy Sample.with_linkedin_key (Py.upper "linkedin" ++ "_API_KEY") = true
  ∧ Legal.process_source Sample.with_linkedin_key Sample.scraper Legal.default_params []
      ("linkedin", Sample.linkedin) Legal.initial_state
    = (Ok [], Legal.initial_state).
Proof.
  split; [reflexivity|].
  pose proof (proj1 (api_only_always_skipped Sample.with_linkedin_key Sample.scraper None
                       Legal.initial_state)) as Hskip.
  rewrite Forall_forall in Hskip.
  apply (Hskip ("linkedin", Sample.linkedin)).
  - right; left; reflexivity.
  - reflexivity.
Defined.

(** * Error containment *)

Lemma respectful_delay_returns (w : Legal.World) (self : Legal.Scraper) (source : string)
    (st : Legal.State) :
  ∃ st', Legal.respectful_delay w self source st = (Ok tt, st')
         ∧ Legal.strategies (Legal.trace st') = Legal.strategies (Legal.trace st).
Proof.
  eexists. split; [reflexivity|]. close_strategies.
Qed.

Lemma process_source_cases (w : Legal.World) (self : Legal.Scraper) (params : Legal.Params)
    (all_jobs : list Legal.JobListing) (name : string) (source_config : Legal.SourceConfig)
    (st : Legal.State) :
  Legal.process_source w self params all_jobs (name, source_config) st
  = match Legal.select_and_scrape w self params name source_config st with
    | (Ok (Some jobs), st1) =>
        (Ok (all_jobs ++ jobs), snd (Legal.respectful_delay w self name st1))
    | (Ok None, st1) => (Ok all_jobs, st1)
    | (Raise e, st1) => (Ok all_jobs, snd (Legal.emit (Legal.LogError name e) st1))
    end.
Proof.
  unfold Legal.process_source, Legal.try_except, Legal.bind.
  destruct (Legal.select_and_scrape w self params name source_config st)
    as [[[jobs|]|e] st1]; reflexivity.
Qed.

Lemma process_source_returns (w : Legal.World) (self : Legal.Scraper) (params : Legal.Params)
    (all_jobs : list Legal.JobListing) (entry : string * Legal.SourceConfig)
    (st : Legal.State) :
  Legal.process_source w self params all_jobs entry st
  = (Ok (all_jobs
         ++ Legal.contribution
              (fst (Legal.select_and_scrape w self params (fst entry) (snd entry) st))),
     snd (Legal.process_source w self params [] entry st)).
Proof.
  destruct entry as [name source_config]; simpl.
  rewrite !process_source_cases.
  destruct (Legal.select_and_scrape w self params name source_config st)
    as [[[jobs|]|e] st1]; simpl; rewrite ?app_nil_r; reflexivity.
Qed.

Lemma process_source_attempted (w : Legal.World) (self : Legal.Scraper)
    (params : Legal.Params) (all_jobs : list Legal.JobListing)
    (entry : string * Legal.SourceConfig) (st : Legal.State) :
  Legal.attempted (Legal.trace (snd (Legal.process_source w self params all_jobs entry st)))
  = Legal.attempted (Legal.trace st) ++ (if Legal.has_strategy entry then [fst entry] else []).
Proof.
  destruct entry as [name source_config]; simpl.
  assert (Hsel :
    Legal.strategies
      (Legal.trace (snd (Legal.select_and_scrape w self params name source_config st)))
    = Legal.strategies (Legal.trace st)
      ++ (if Legal.has_strategy (name, source_config)
          then [if String.eqb (Legal.legal_status source_config) "API_AVAILABLE"
                then Legal.ViaApi name
                else if String.eqb (Legal.legal_status source_config) "API_PREFERRED"
                     then if Legal.env_truthy w (Py.upper name ++ "_API_KEY")
                          then Legal.ViaApi name else Legal.ViaWeb name
                     else Legal.ViaWeb name]
          else [])).
  { unfold Legal.select_and_scrape, Legal.has_strategy, Legal.scrape_via_api_with_fallback;
      simpl.
    destruct (String.eqb (Legal.legal_status source_config) "API_AVAILABLE"); simpl;
      [rewrite bind_ret_snd; apply scrape_via_api_strategies|].
    destruct (String.eqb (Legal.legal_status source_config) "API_PREFERRED"); simpl.
    { destruct (Legal.env_truthy w _); rewrite bind_ret_snd;
        [apply scrape_via_api_strategies | apply scrape_via_web_strategies]. }
    destruct (String.eqb (Legal.legal_status source_config) "SCRAPING_ALLOWED"); simpl;
      [rewrite bind_ret_snd; apply scrape_via_web_strategies|].
    destruct (String.eqb (Legal.legal_status source_config) "API_ONLY"); simpl;
      rewrite app_nil_r; reflexivity. }
  assert (Hstep :
    Legal.strategies
      (Legal.trace (snd (Legal.process_source w self params all_jobs (name, source_config) st)))
    = Legal.strategies
        (Legal.trace (snd (Legal.select_and_scrape w self params name source_config st)))).
  { rewrite process_source_cases.
    destruct (Legal.select_and_scrape w self params name source_config st)
      as [[[jobs|]|e] st1]; [| reflexivity | close_strategies].
    destruct (respectful_delay_returns w self name st1) as (st2 & Hdelay & Hsame).
    cbn [snd fst]. rewrite Hdelay. exact Hsame. }
  unfold Legal.attempted. rewrite Hstep, Hsel, map_app. f_equal.
  destruct (Legal.has_strategy (name, source_config)); [|reflexivity].
  simpl. repeat (destruct (_ : bool); simpl); reflexivity.
Qed.

Lemma process_sources_returns (w : Legal.World) (self : Legal.Scraper)
    (params : Legal.Params) (entries : list (string * Legal.SourceConfig)) :
  ∀ (all_jobs : list Legal.JobListing) (st : Legal.State),
    ∃ st',
      Legal.process_sources w self params all_jobs entries st
      = (Ok (all_jobs
             ++ concat (map (fun outcome => Legal.contribution (snd outcome))
                            (Legal.outcomes w self params entries st))), st')
      ∧ Legal.attempted (Legal.trace st')
        = Legal.attempted (Legal.trace st)
          ++ map fst (List.filter Legal.has_strategy entries).
Proof.
  induction entries as [|entry entries IH]; intros all_jobs st; simpl.
  - exists st. rewrite !app_nil_r. split; reflexivity.
  - unfold Legal.bind. rewrite process_source_returns.
    pose proof (process_source_attempted w self params [] entry st) as Hstep.
    set (st1 := snd (Legal.process_source w self params [] entry st)) in *.
    destruct (IH (all_jobs
                  ++ Legal.contribution
                       (fst (Legal.select_and_scrape w self params (fst entry) (snd entry) st)))
                 st1) as (st' & Hrun & Hatt).
    exists st'. split.
    + rewrite Hrun. rewrite <- app_assoc. reflexivity.
    + rewrite Hatt, Hstep, <- app_assoc. f_equal.
      destruct (Legal.has_strategy entry); reflexivity.
Qed.

Lemma outcomes_names (w : Legal.World) (self : Legal.Scraper) (params : Legal.Params)
    (entries : list (string * Legal.SourceConfig)) :
  ∀ st, map fst (Legal.outcomes w self params entries st) = map fst entries.
Proof.
  induction entries as [|entry entries IH]; intros st; simpl.
  - reflexivity.
  - rewrite IH. reflexivity.
Qed.

(** * Further properties of the Jaccard score *)

Lemma split_nonempty (sep : ascii) (s : string) : Py.split sep s ≠ [].
Proof.
  induction s as [|c r IH]; simpl; [discriminate|].
  destruct (Ascii.eqb c sep); [discriminate|].
  destruct (Py.split sep r); [congruence | discriminate].
Qed.

Lemma token_set_inhabited (s : string) : ∃ token, token ∈ Advanced.token_set s.
Proof.
  unfold Advanced.token_set.
  destruct (Py.split "_" s) as [|token tokens] eqn:Hsplit.
  - exfalso. exact (split_nonempty _ _ Hsplit).
  - exists token. set_solver.
Qed.

Lemma union_size_pos (s1 s2 : string) :
  0 < size (Advanced.token_set s1 ∪ Advanced.token_set s2).
Proof.
  destruct (token_set_inhabited s1) as [token Htoken].
  assert (Hne : size (Advanced.token_set s1 ∪ Advanced.token_set s2) ≠ 0).
  { apply size_non_empty_iff. intros Hempty.
    assert (token ∈ Advanced.token_set s1 ∪ Advanced.token_set s2) by set_solver.
    set_solver. }
  lia.
Qed.

Lemma intersection_size_le_union (s1 s2 : string) :
  size (Advanced.token_set s1 ∩ Advanced.token_set s2)
  ≤ size (Advanced.token_set s1 ∪ Advanced.token_set s2).
Proof. apply subseteq_size. set_solver. Qed.

Lemma similarity_score_ratio (s1 s2 : string) :
  (Advanced.similarity_score s1 s2
   == Z.of_nat (size (Advanced.token_set s1 ∩ Advanced.token_set s2))
      # Pos.of_nat (size (Advanced.token_set s1 ∪ Advanced.token_set s2)))%Q.
Proof.
  unfold Advanced.similarity_score. fold (Advanced.token_set s1) (Advanced.token_set s2).
  pose proof (union_size_pos s1 s2) as Hpos.
  destruct (Nat.ltb_spec 0 (size (Advanced.token_set s1 ∪ Advanced.token_set s2)));
    [|lia].
  rewrite Qmake_Qdiv. f_equiv. f_equiv.
  rewrite <- positive_nat_Z, Nat2Pos.id by lia. reflexivity.
Qed.

Lemma Zpos_of_nat (n : nat) : 0 < n → Z.pos (Pos.of_nat n) = Z.of_nat n.
Proof. intros Hn. rewrite <- positive_nat_Z, Nat2Pos.id by lia. reflexivity. Qed.

Lemma similar_iff (s1 s2 : string) :
  Advanced.similar s1 s2 = true
  ↔ 85 * size (Advanced.token_set s1 ∪ Advanced.token_set s2)
    < 100 * size (Advanced.token_set s1 ∩ Advanced.token_set s2).
Proof.
  unfold Advanced.similar, Qgtb.
  rewrite negb_true_iff, <- not_true_iff_false, Qle_bool_iff, similarity_score_ratio.
  pose proof (union_size_pos s1 s2) as Hpos.
  unfold Qle; simpl. rewrite Zpos_of_nat by exact Hpos. lia.
Qed.

Lemma token_sets_equal_iff (s1 s2 : string) :
  size (Advanced.token_set s1 ∩ Advanced.token_set s2)
  = size (Advanced.token_set s1 ∪ Advanced.token_set s2)
  ↔ Advanced.token_set s1 = Advanced.token_set s2.
Proof.
  split.
  - intros Hsize.
    assert (Heq : Advanced.token_set s1 ∩ Advanced.token_set s2
                  = Advanced.token_set s1 ∪ Advanced.token_set s2).
    { apply set_subseteq_size_eq; [set_solver | lia]. }
    apply set_eq. intros token. split; intros Hin.
    + assert (token ∈ Advanced.token_set s1 ∩ Advanced.token_set s2)
        by (rewrite Heq; set_solver).
      set_solver.
    + assert (token ∈ Advanced.token_set s1 ∩ Advanced.token_set s2)
        by (rewrite Heq; set_solver).
      set_solver.
  - intros Heq. rewrite Heq. f_equal. set_solver.
Qed.

(** X1. The Jaccard score is symmetric, lies between 0 and 1, and is 1
    exactly when the two keys have the same set of '_'-separated tokens; the
    guard for an empty union is never taken, because a split is never
    empty. *)
Theorem similarity_score_properties (s1 s2 : string) :
  (Advanced.similarity_score s1 s2 == Advanced.similarity_score s2 s1)%Q
  ∧ (0 <= Advanced.similarity_score s1 s2)%Q
  ∧ (Advanced.similarity_score s1 s2 <= 1)%Q
  ∧ ((Advanced.similarity_score s1 s2 == 1)%Q
     ↔ Advanced.token_set s1 = Advanced.token_set s2)
  ∧ 0 < size (Advanced.token_set s1 ∪ Advanced.token_set s2).
Proof.
  pose proof (union_size_pos s1 s2) as Hpos.
  pose proof (intersection_size_le_union s1 s2) as Hle.
  split; [|split; [|split; [|split]]].
  - rewrite !similarity_score_ratio.
    replace (Advanced.token_set s2 ∩ Advanced.token_set s1)
      with (Advanced.token_set s1 ∩ Advanced.token_set s2) by set_solver.
    replace (Advanced.token_set s2 ∪ Advanced.token_set s1)
      with (Advanced.token_set s1 ∪ Advanced.token_set s2) by set_solver.
    reflexivity.
  - rewrite similarity_score_ratio. unfold Qle; simpl. lia.
  - rewrite similarity_score_ratio. unfold Qle; simpl.
    rewrite Zpos_of_nat by exact Hpos. lia.
  - rewrite similarity_score_ratio, <- token_sets_equal_iff.
    unfold Qeq; simpl. rewrite Zpos_of_nat by exact Hpos. lia.
  - exact Hpos.
Qed.

Lemma size_list_to_set_le (l : list string) : size (list_to_set l : gset string) ≤ length l.
Proof.
  induction l as [|x l IH].
  - rewrite list_to_set_nil, size_empty. simpl. lia.
  - rewrite list_to_set_cons, size_union_alt, size_singleton. simpl.
    assert (size (list_to_set l ∖ {[x]} : gset string) ≤ size (list_to_set l : gset string))
      by (apply subseteq_size; set_solver).
    lia.
Qed.

(** X2. For two keys of at most three tokens each, as every composite key
    is whose fields hold no underscore, the similarity exceeds 0.85 exactly
    when the two token sets are equal: below seven tokens in the union the
    fuzzy match is an exact match of token sets. *)
Theorem similar_short_keys_iff_same_tokens (s1 s2 : string) :
  length (Py.split "_" s1) ≤ 3 →
  length (Py.split "_" s2) ≤ 3 →
  (Advanced.similar s1 s2 = true ↔ Advanced.token_set s1 = Advanced.token_set s2).
Proof.
  intros H1 H2.
  rewrite similar_iff, <- token_sets_equal_iff.
  pose proof (intersection_size_le_union s1 s2) as Hle.
  pose proof (union_size_pos s1 s2) as Hpos.
  assert (Hsix : size (Advanced.token_set s1 ∪ Advanced.token_set s2) ≤ 6).
  { rewrite size_union_alt.
    assert (size (Advanced.token_set s2 ∖ Advanced.token_set s1)
            ≤ size (Advanced.token_set s2)) by (apply subseteq_size; set_solver).
    pose proof (size_list_to_set_le (Py.split "_" s1)).
    pose proof (size_list_to_set_le (Py.split "_" s2)).
    unfold Advanced.token_set in *. lia. }
  lia.
Qed.

Lemma similar_short_keys_iff_same_tokens_witness :
  Advanced.similar (Advanced.identifier Sample.job_a) (Advanced.identifier Sample.job_b) = true
  ↔ Advanced.token_set (Advanced.identifier Sample.job_a)
    = Advanced.token_set (Advanced.identifier Sample.job_b).
Proof.
  apply (similar_short_keys_iff_same_tokens
           (Advanced.identifier Sample.job_a) (Advanced.identifier Sample.job_b));
    vm_compute; lia.
Defined.

Lemma lower_char_underscore (c : ascii) :
  Ascii.eqb (Py.lower_char c) "_" = Ascii.eqb c "_".
Proof. destruct c as [[] [] [] [] [] [] [] []]; reflexivity. Qed.

Lemma has_char_lower (s : string) : Py.has_char "_" (Py.lower s) = Py.has_char "_" s.
Proof.
  induction s as [|c r IH]; simpl; [reflexivity|].
  rewrite lower_char_underscore, IH. reflexivity.
Qed.

Lemma split_without_separator (sep : ascii) (s : string) :
  Py.has_char sep s = false → Py.split sep s = [s].
Proof.
  induction s as [|c r IH]; simpl; [reflexivity|].
  intros Hno. apply orb_false_iff in Hno as [Hc Hr].
  rewrite Hc, (IH Hr). reflexivity.
Qed.

Lemma split_at_separator (sep : ascii) (a b : string) :
  Py.has_char sep a = false →
  Py.split sep (a ++ String sep b) = a :: Py.split sep b.
Proof.
  induction a as [|c r IH]; simpl.
  - intros _. rewrite Ascii.eqb_refl. reflexivity.
  - intros Hno. apply orb_false_iff in Hno as [Hc Hr].
    rewrite Hc, (IH Hr). reflexivity.
Qed.

Lemma identifier_tokens (job : Advanced.Job) :
  Py.has_char "_" (Advanced.title job) = false →
  Py.has_char "_" (Advanced.company job) = false →
  Py.has_char "_" (Advanced.location job) = false →
  Py.split "_" (Advanced.identifier job)
  = [Py.lower (Advanced.title job); Py.lower (Advanced.company job);
     Py.lower (Advanced.location job)].
Proof.
  intros Ht Hc Hl. unfold Advanced.identifier.
  assert (Hsep : ∀ x : string, ("_" ++ x)%string = String "_" x) by reflexivity.
  rewrite !Hsep.
  rewrite split_at_separator by (rewrite has_char_lower; exact Ht).
  rewrite split_at_separator by (rewrite has_char_lower; exact Hc).
  rewrite split_without_separator by (rewrite has_char_lower; exact Hl).
  reflexivity.
Qed.

(** X3. For two listings whose title, company and location hold no
    underscore, the second is a near-duplicate of the first exactly when the
    lower-cased title, company and location of the two listings form the same
    set: nothing short of equal fields (in any order) is ever merged. *)
Theorem near_duplicate_iff_same_fields (a b : Advanced.Job) :
  Py.has_char "_" (Advanced.title a) = false →
  Py.has_char "_" (Advanced.company a) = false →
  Py.has_char "_" (Advanced.location a) = false →
  Py.has_char "_" (Advanced.title b) = false →
  Py.has_char "_" (Advanced.company b) = false →
  Py.has_char "_" (Advanced.location b) = false →
  (Advanced.is_duplicate {[Advanced.identifier a]} (Advanced.identifier b) = true
   ↔ (list_to_set [Py.lower (Advanced.title a); Py.lower (Advanced.company a);
                   Py.lower (Advanced.location a)] : gset string)
     = list_to_set [Py.lower (Advanced.title b); Py.lower (Advanced.company b);
                    Py.lower (Advanced.location b)]).
Proof.
  intros Hta Hca Hla Htb Hcb Hlb.
  pose proof (identifier_tokens a Hta Hca Hla) as Ha.
  pose proof (identifier_tokens b Htb Hcb Hlb) as Hb.
  unfold Advanced.is_duplicate. rewrite elements_singleton. simpl. rewrite orb_false_r.
  fold (Advanced.similar (Advanced.identifier b) (Advanced.identifier a)).
  rewrite similar_short_keys_iff_same_tokens by (rewrite ?Ha, ?Hb; simpl; lia).
  unfold Advanced.token_set. rewrite Ha, Hb. split; intros Heq; symmetry; exact Heq.
Qed.

Lemma near_duplicate_iff_same_fields_witness :
  Advanced.is_duplicate {[Advanced.identifier Sample.job_a]}
    (Advanced.identifier Sample.job_b) = true
  ↔ (list_to_set ["senior python developer"; "acme corp"; "remote"] : gset string)
    = list_to_set ["senior python developer"; "acme corp"; "remote usa"].
Proof.
  apply (near_duplicate_iff_same_fields Sample.job_a Sample.job_b); reflexivity.
Defined.

(** * Further properties of duplicate removal *)

Lemma is_duplicate_true_iff (seen : gset string) (key : string) :
  Advanced.is_duplicate seen key = true
  ↔ ∃ seen_id, seen_id ∈ seen ∧ Advanced.similar key seen_id = true.
Proof.
  unfold Advanced.is_duplicate. rewrite existsb_exists. split.
  - intros (seen_id & Hin & Hsim). exists seen_id. split; [|exact Hsim].
    apply elem_of_elements, list_elem_of_In. exact Hin.
  - intros (seen_id & Hin & Hsim). exists seen_id. split; [|exact Hsim].
    apply list_elem_of_In, elem_of_elements. exact Hin.
Qed.

Lemma is_duplicate_false_iff (seen : gset string) (key : string) :
  Advanced.is_duplicate seen key = false
  ↔ ∀ seen_id, seen_id ∈ seen → Advanced.similar key seen_id = false.
Proof.
  rewrite <- not_true_iff_false, is_duplicate_true_iff. split.
  - intros Hnone seen_id Hin. apply not_true_iff_false. intros Hsim.
    apply Hnone. exists seen_id. split; assumption.
  - intros Hall (seen_id & Hin & Hsim). rewrite (Hall seen_id Hin) in Hsim. discriminate.
Qed.

Lemma similar_refl (key : string) : Advanced.similar key key = true.
Proof.
  apply similar_iff.
  assert (Heq : Advanced.token_set key ∩ Advanced.token_set key
                = Advanced.token_set key ∪ Advanced.token_set key) by set_solver.
  rewrite Heq. pose proof (union_size_pos key key). lia.
Qed.

Lemma advanced_remove_duplicates_from_sublist (jobs : list Advanced.Job) :
  ∀ seen, sublist (Advanced.remove_duplicates_from seen jobs) jobs.
Proof.
  induction jobs as [|job jobs IH]; intros seen; simpl; [constructor|].
  destruct (Advanced.is_duplicate seen (Advanced.identifier job)).
  - apply sublist_cons, IH.
  - apply sublist_skip, IH.
Qed.

Lemma advanced_remove_duplicates_from_fresh (jobs : list Advanced.Job) :
  ∀ seen kept,
    In kept (Advanced.remove_duplicates_from seen jobs) →
    ∀ seen_id, seen_id ∈ seen → Advanced.similar (Advanced.identifier kept) seen_id = false.
Proof.
  induction jobs as [|job jobs IH]; intros seen kept Hin seen_id Hseen; simpl in Hin;
    [contradiction|].
  destruct (Advanced.is_duplicate seen (Advanced.identifier job)) eqn:Hdup.
  - exact (IH seen kept Hin seen_id Hseen).
  - destruct Hin as [<-|Hin].
    + exact (proj1 (is_duplicate_false_iff _ _) Hdup seen_id Hseen).
    + apply (IH _ kept Hin). set_solver.
Qed.

Lemma advanced_remove_duplicates_from_pairwise (jobs : list Advanced.Job) :
  ∀ seen,
    ForallOrdPairs
      (fun earlier later =>
         Advanced.similar (Advanced.identifier later) (Advanced.identifier earlier) = false)
      (Advanced.remove_duplicates_from seen jobs).
Proof.
  induction jobs as [|job jobs IH]; intros seen; simpl; [constructor|].
  destruct (Advanced.is_duplicate seen (Advanced.identifier job)) eqn:Hdup; [apply IH|].
  constructor; [|apply IH].
  apply List.Forall_forall. intros later Hin.
  apply (advanced_remove_duplicates_from_fresh jobs _ later Hin). set_solver.
Qed.

(** X4. The listings retained by the Jaccard duplicate removal are a
    subsequence of the input (nothing is reordered or invented), no retained
    listing is more than 0.85 similar to a listing retained before it, and no
    two retained listings have the same composite key. *)
Theorem remove_duplicates_advanced_output (jobs : list Advanced.Job) :
  let retained := Advanced.remove_duplicates_advanced jobs in
  sublist retained jobs
  ∧ ForallOrdPairs
      (fun earlier later =>
         Advanced.similar (Advanced.identifier later) (Advanced.identifier earlier) = false)
      retained
  ∧ ForallOrdPairs
      (fun earlier later => Advanced.identifier earlier ≠ Advanced.identifier later)
      retained.
Proof.
  intros retained. subst retained. unfold Advanced.remove_duplicates_advanced.
  pose proof (advanced_remove_duplicates_from_pairwise jobs ∅) as Hpairs.
  split; [apply advanced_remove_duplicates_from_sublist|]. split; [exact Hpairs|].
  induction Hpairs as [|earlier rest Hhead _ IH]; constructor; [|exact IH].
  apply List.Forall_forall. intros later Hin Heq.
  rewrite List.Forall_forall in Hhead. specialize (Hhead later Hin).
  rewrite <- Heq, similar_refl in Hhead. discriminate.
Qed.

Lemma advanced_remove_duplicates_from_covers (jobs : list Advanced.Job) :
  ∀ seen job,
    In job jobs →
    In job (Advanced.remove_duplicates_from seen jobs)
    ∨ (∃ seen_id, seen_id ∈ seen ∧ Advanced.similar (Advanced.identifier job) seen_id = true)
    ∨ (∃ kept, In kept (Advanced.remove_duplicates_from seen jobs)
               ∧ Advanced.similar (Advanced.identifier job) (Advanced.identifier kept) = true).
Proof.
  induction jobs as [|first jobs IH]; intros seen job Hin; [contradiction|].
  simpl. destruct (Advanced.is_duplicate seen (Advanced.identifier first)) eqn:Hdup.
  - destruct Hin as [<-|Hin].
    + right; left. apply is_duplicate_true_iff. exact Hdup.
    + apply IH. exact Hin.
  - destruct Hin as [<-|Hin]; [left; left; reflexivity|].
    destruct (IH ({[Advanced.identifier first]} ∪ seen) job Hin)
      as [Hkept|[(seen_id & Hseen & Hsim)|(kept & Hkept & Hsim)]].
    + left. right. exact Hkept.
    + apply elem_of_union in Hseen as [Hfirst|Hseen].
      * apply elem_of_singleton in Hfirst. subst seen_id.
        right; right. exists first. split; [left; reflexivity | exact Hsim].
      * right; left. exists seen_id. split; assumption.
    + right; right. exists kept. split; [right; exact Hkept | exact Hsim].
Qed.

(** X5. The Jaccard duplicate removal loses no listing without a
    representative: every input listing is either retained or more than 0.85
    similar to a retained listing; and the first listing of a non-empty input
    is always retained. *)
Theorem remove_duplicates_advanced_covers (jobs : list Advanced.Job) :
  (∀ job, In job jobs →
          In job (Advanced.remove_duplicates_advanced jobs)
          ∨ ∃ kept, In kept (Advanced.remove_duplicates_advanced jobs)
                    ∧ Advanced.similar (Advanced.identifier job)
                                       (Advanced.identifier kept) = true)
  ∧ head (Advanced.remove_duplicates_advanced jobs) = head jobs.
Proof.
  split.
  - intros job Hin.
    destruct (advanced_remove_duplicates_from_covers jobs ∅ job Hin)
      as [Hkept|[(seen_id & Hseen & _)|Hsim]].
    + left. exact Hkept.
    + set_solver.
    + right. exact Hsim.
  - destruct jobs as [|job jobs]; reflexivity.
Qed.

Lemma legal_remove_duplicates_from_sublist (jobs : list Legal.JobListing) :
  ∀ seen, sublist (Legal.remove_duplicates_from seen jobs) jobs.
Proof.
  induction jobs as [|job jobs IH]; intros seen; simpl; [constructor|].
  destruct (bool_decide (Legal.identifier job ∉ seen)).
  - apply sublist_skip, IH.
  - apply sublist_cons, IH.
Qed.

Lemma legal_remove_duplicates_from_fresh (jobs : list Legal.JobListing) :
  ∀ seen kept,
    In kept (Legal.remove_duplicates_from seen jobs) → Legal.identifier kept ∉ seen.
Proof.
  induction jobs as [|job jobs IH]; intros seen kept Hin; simpl in Hin; [contradiction|].
  destruct (bool_decide_reflect (Legal.identifier job ∉ seen)) as [Hnew|Hold].
  - destruct Hin as [<-|Hin]; [exact Hnew|].
    specialize (IH _ kept Hin). set_solver.
  - exact (IH seen kept Hin).
Qed.

Lemma legal_remove_duplicates_from_NoDup (jobs : list Legal.JobListing) :
  ∀ seen, List.NoDup (map Legal.identifier (Legal.remove_duplicates_from seen jobs)).
Proof.
  induction jobs as [|job jobs IH]; intros seen; simpl; [constructor|].
  destruct (bool_decide (Legal.identifier job ∉ seen)); [|apply IH].
  simpl. constructor; [|apply IH].
  intros Hin. apply in_map_iff in Hin as (kept & Hkey & Hkept).
  apply legal_remove_duplicates_from_fresh in Hkept. set_solver.
Qed.

Lemma legal_remove_duplicates_from_keys (jobs : list Legal.JobListing) :
  ∀ seen job,
    In job jobs →
    Legal.identifier job ∈ seen
    ∨ In (Legal.identifier job) (map Legal.identifier (Legal.remove_duplicates_from seen jobs)).
Proof.
  induction jobs as [|first jobs IH]; intros seen job Hin; [contradiction|].
  simpl. destruct (bool_decide_reflect (Legal.identifier first ∉ seen)) as [Hnew|Hold].
  - destruct Hin as [<-|Hin]; [right; left; reflexivity|].
    destruct (IH ({[Legal.identifier first]} ∪ seen) job Hin) as [Hseen|Hkept].
    + apply elem_of_union in Hseen as [Hfirst|Hseen]; [|left; exact Hseen].
      apply elem_of_singleton in Hfirst. right. left. symmetry. exact Hfirst.
    + right. right. exact Hkept.
  - destruct Hin as [<-|Hin]; [|apply IH; exact Hin].
    left. destruct (decide (Legal.identifier first ∈ seen)); [assumption|contradiction].
Qed.

(** X6. The listings retained by the exact duplicate removal are a
    subsequence of the input, carry pairwise distinct composite keys, and
    every composite key of the input is still present among them. *)
Theorem remove_duplicates_output (jobs : list Legal.JobListing) :
  let retained := Legal.remove_duplicates jobs in
  sublist retained jobs
  ∧ List.NoDup (map Legal.identifier retained)
  ∧ (∀ job, In job jobs → In (Legal.identifier job) (map Legal.identifier retained)).
Proof.
  intros retained. subst retained. unfold Legal.remove_duplicates.
  split; [apply legal_remove_duplicates_from_sublist|].
  split; [apply legal_remove_duplicates_from_NoDup|].
  intros job Hin.
  destruct (legal_remove_duplicates_from_keys jobs ∅ job Hin) as [Hseen|Hkept];
    [set_solver | exact Hkept].
Qed.

Lemma legal_remove_duplicates_from_app (earlier : list Legal.JobListing) :
  ∀ seen later,
    Legal.remove_duplicates_from seen (earlier ++ later)
    = Legal.remove_duplicates_from seen earlier
      ++ Legal.remove_duplicates_from (list_to_set (map Legal.identifier earlier) ∪ seen) later.
Proof.
  induction earlier as [|job earlier IH]; intros seen later; simpl.
  - f_equal. set_solver.
  - destruct (bool_decide_reflect (Legal.identifier job ∉ seen)) as [Hnew|Hold].
    + simpl. f_equal. rewrite IH. f_equal. f_equal. set_solver.
    + rewrite IH. f_equal. f_equal.
      assert (Legal.identifier job ∈ seen)
        by (destruct (decide (Legal.identifier job ∈ seen)); [assumption|contradiction]).
      set_solver.
Qed.

(** X7. Duplicate removal over the concatenation of two batches keeps the
    retained listings of the first batch unchanged and adds, from the second
    batch, only listings whose composite key does not occur in the first: on
    a tie the listing of the earlier source wins. *)
Theorem remove_duplicates_app (earlier later : list Legal.JobListing) :
  let added := Legal.remove_duplicates_from (list_to_set (map Legal.identifier earlier)) later in
  Legal.remove_duplicates (earlier ++ later) = Legal.remove_duplicates earlier ++ added
  ∧ Forall (fun job => ¬ In (Legal.identifier job) (map Legal.identifier earlier)) added.
Proof.
  intros added. split.
  - unfold Legal.remove_duplicates. rewrite legal_remove_duplicates_from_app.
    subst added. f_equal. f_equal. set_solver.
  - apply List.Forall_forall. intros job Hin Hkey.
    apply legal_remove_duplicates_from_fresh in Hin.
    apply Hin. apply elem_of_list_to_set, list_elem_of_In. exact Hkey.
Qed.

(** X8. Exact duplicate removal returns its input unchanged exactly when
    the composite keys of the input are pairwise distinct. *)
Theorem remove_duplicates_fixed_point (jobs : list Legal.JobListing) :
  Legal.remove_duplicates jobs = jobs ↔ List.NoDup (map Legal.identifier jobs).
Proof.
  split.
  - intros Hfix. rewrite <- Hfix. apply legal_remove_duplicates_from_NoDup.
  - unfold Legal.remove_duplicates.
    assert (Hgen : ∀ seen,
               (∀ job, In job jobs → Legal.identifier job ∉ seen) →
               List.NoDup (map Legal.identifier jobs) →
               Legal.remove_duplicates_from seen jobs = jobs).
    { induction jobs as [|job jobs IH]; intros seen Hfresh Hnodup; simpl; [reflexivity|].
      inversion Hnodup as [|key keys Hnotin Hrest]; subst.
      rewrite bool_decide_eq_true_2 by (apply Hfresh; left; reflexivity).
      f_equal. apply IH; [|exact Hrest].
      intros other Hin Hseen.
      apply elem_of_union in Hseen as [Hsame|Hseen].
      - apply elem_of_singleton in Hsame. apply Hnotin. rewrite <- Hsame.
        apply in_map. exact Hin.
      - apply (Hfresh other); [right; exact Hin | exact Hseen]. }
    intros Hnodup. apply Hgen; [|exact Hnodup]. intros job _. set_solver.
Qed.

(** * Further properties of the proxy rotation *)

Lemma after_requests_disabled (n : nat) (self : Advanced.Scraper) :
  Advanced.use_proxies (Advanced.config self) = false →
  Advanced.after_requests n self = self.
Proof.
  intros Hoff. induction n as [|n IH]; simpl; [reflexivity|].
  unfold Advanced.get_next_proxy. rewrite Hoff. simpl. exact IH.
Qed.

Lemma after_requests_in_range (n : nat) (self : Advanced.Scraper) :
  Advanced.current_proxy_index self < length (Advanced.proxies self) →
  Advanced.proxies (Advanced.after_requests n self) = Advanced.proxies self
  ∧ Advanced.config (Advanced.after_requests n self) = Advanced.config self
  ∧ Advanced.current_proxy_index (Advanced.after_requests n self)
    < length (Advanced.proxies self).
Proof.
  intros Hidx.
  destruct (Advanced.use_proxies (Advanced.config self)) eqn:Huse.
  - assert (Hpool : Advanced.proxies self ≠ [])
      by (intros Hnil; rewrite Hnil in Hidx; simpl in Hidx; lia).
    destruct (after_requests_index n self Huse Hpool Hidx) as (Hc & Hp & _ & Hi).
    repeat split; [exact Hp | exact Hc |].
    rewrite Hi. apply Nat.mod_upper_bound. lia.
  - rewrite after_requests_disabled by exact Huse. repeat split. exact Hidx.
Qed.

Lemma get_next_proxy_in_range (self : Advanced.Scraper) :
  Advanced.current_proxy_index self < length (Advanced.proxies self) →
  ∃ proxy, fst (Advanced.get_next_proxy self) = Ok proxy.
Proof.
  intros Hidx. unfold Advanced.get_next_proxy.
  destruct (negb (Advanced.use_proxies (Advanced.config self))
            || bool_decide (Advanced.proxies self = [])); [exists None; reflexivity|].
  simpl.
  match goal with |- context [Advanced.proxies self !! ?i] => set (index := i) end.
  assert (Hlt : index < length (Advanced.proxies self)).
  { subst index. destruct (_ =? _)%nat; [apply Nat.mod_upper_bound; lia | exact Hidx]. }
  destruct (lookup_lt_is_Some_2 _ _ Hlt) as [proxy Hproxy].
  rewrite Hproxy. exists proxy. reflexivity.
Qed.

(** X9. As long as the proxy index starts inside the pool, it stays inside
    the pool and no request ever raises an IndexError, however many requests
    are made and whether or not proxies are enabled. *)
Theorem get_next_proxy_never_raises (self : Advanced.Scraper) (n : nat) :
  Advanced.current_proxy_index self < length (Advanced.proxies self) →
  Advanced.current_proxy_index (Advanced.after_requests n self)
  < length (Advanced.proxies (Advanced.after_requests n self))
  ∧ ∃ proxy, fst (Advanced.get_next_proxy (Advanced.after_requests n self)) = Ok proxy.
Proof.
  intros Hidx.
  destruct (after_requests_in_range n self Hidx) as (Hp & _ & Hi).
  assert (Hrange : Advanced.current_proxy_index (Advanced.after_requests n self)
                   < length (Advanced.proxies (Advanced.after_requests n self)))
    by (rewrite Hp; exact Hi).
  split; [exact Hrange | apply get_next_proxy_in_range; exact Hrange].
Qed.

Lemma get_next_proxy_never_raises_witness :
  Advanced.current_proxy_index (Advanced.after_requests 12 Sample.rotating)
  < length (Advanced.proxies (Advanced.after_requests 12 Sample.rotating))
  ∧ ∃ proxy, fst (Advanced.get_next_proxy (Advanced.after_requests 12 Sample.rotating))
             = Ok proxy.
Proof.
  apply (get_next_proxy_never_raises Sample.rotating 12). simpl. lia.
Defined.

Lemma after_requests_snoc (n : nat) :
  ∀ self, snd (Advanced.get_next_proxy (Advanced.after_requests n self))
          = Advanced.after_requests (S n) self.
Proof.
  induction n as [|n IH]; intros self; [reflexivity|].
  change (Advanced.after_requests (S n) self)
    with (Advanced.after_requests n (snd (Advanced.get_next_proxy self))).
  rewrite IH. reflexivity.
Qed.

Lemma load_proxy_list_eq (decoded_env : option (list string)) :
  Advanced.load_proxy_list decoded_env
  = map Advanced.as_proxy (default [] decoded_env) ++ Advanced.free_proxies.
Proof.
  unfold Advanced.load_proxy_list.
  rewrite bool_decide_eq_false_2.
  - destruct decoded_env; reflexivity.
  - intros Hnil. apply app_eq_nil in Hnil as [_ Hnil]. discriminate.
Qed.

(** X10. Whatever SCRAPING_PROXIES holds, the pool built by
    [load_proxy_list] is the proxies of the environment followed by the two
    built-in ones; it is never empty and never holds the direct-connection
    entry. With proxies enabled, the [n]-th request (from 0) of a new scraper
    goes through pool entry [(n / 5 + 1) mod size]: the rotation starts at
    the second entry and reaches the first entry last. *)
Theorem load_proxy_list_schedule (cfg : Advanced.AdvancedScrapingConfig)
    (decoded_env : option (list string)) (n : nat) :
  let pool := Advanced.load_proxy_list decoded_env in
  pool = map Advanced.as_proxy (default [] decoded_env) ++ Advanced.free_proxies
  ∧ length pool = length (default [] decoded_env) + 2
  ∧ Forall (fun entry => ∃ proxy, entry = Some (Advanced.mkProxy proxy proxy)) pool
  ∧ (Advanced.use_proxies cfg = true →
     ∃ entry,
       pool !! ((n / 5 + 1) mod length pool) = Some entry
       ∧ fst (Advanced.get_next_proxy
                (Advanced.after_requests n (Advanced.scraper_in_env cfg decoded_env)))
         = Ok entry).
Proof.
  intros pool.
  assert (Hpool : pool = map Advanced.as_proxy (default [] decoded_env)
                         ++ Advanced.free_proxies) by apply load_proxy_list_eq.
  assert (Hlen : length pool = length (default [] decoded_env) + 2).
  { rewrite Hpool, length_app, length_map. reflexivity. }
  split; [exact Hpool|]. split; [exact Hlen|]. split.
  - rewrite Hpool. apply Forall_app. split.
    + apply List.Forall_forall. intros entry Hin.
      apply in_map_iff in Hin as (proxy & <- & _). exists proxy. reflexivity.
    + repeat constructor; eexists; reflexivity.
  - intros Huse.
    set (self := Advanced.scraper_in_env cfg decoded_env).
    assert (Hne : Advanced.proxies self ≠ [])
      by (intros Hnil; change (pool = []) in Hnil; rewrite Hnil in Hlen; simpl in Hlen; lia).
    assert (Hidx : Advanced.current_proxy_index self < length (Advanced.proxies self))
      by (change (0 < length pool); lia).
    destruct (after_requests_index n self Huse Hne Hidx) as (Hc & Hp & Hr & Hi).
    pose proof (after_requests_snoc n self) as Hnext.
    destruct (after_requests_index (S n) self Huse Hne Hidx) as (_ & _ & _ & Hi').
    assert (Hrot : Advanced.rotations 0 (S n) = n / 5 + 1).
    { unfold Advanced.rotations.
      replace (0 + S n + 4) with (n + 1 * 5) by lia.
      rewrite Nat.div_add by lia.
      replace ((0 + 4) / 5) with 0 by reflexivity. lia. }
    change (Advanced.request_count self) with 0 in Hi'.
    change (Advanced.current_proxy_index self) with 0 in Hi'.
    change (Advanced.proxies self) with pool in Hi'.
    rewrite Hrot, Nat.add_0_l in Hi'.
    assert (Hlt : (n / 5 + 1) mod length pool < length pool)
      by (apply Nat.mod_upper_bound; lia).
    destruct (lookup_lt_is_Some_2 _ _ Hlt) as [entry Hentry].
    exists entry. split; [exact Hentry|].
    rewrite <- Hnext in Hi'.
    set (current := Advanced.after_requests n self) in *.
    assert (Huse' : Advanced.use_proxies (Advanced.config current) = true)
      by (rewrite Hc; exact Huse).
    assert (Hne' : Advanced.proxies current ≠ []) by (rewrite Hp; exact Hne).
    rewrite (get_next_proxy_enabled current Huse' Hne') in Hi'.
    cbn [Advanced.current_proxy_index] in Hi'.
    unfold Advanced.get_next_proxy.
    rewrite Huse', bool_decide_eq_false_2 by exact Hne'.
    cbn [negb orb fst]. rewrite Hi', Hp.
    change (Advanced.proxies self) with pool. rewrite Hentry. reflexivity.
Qed.

Lemma load_proxy_list_schedule_witness :
  ∃ entry,
    Advanced.load_proxy_list (Some ["http://10.0.0.1:3128"]) !! 2 = Some entry
    ∧ fst (Advanced.get_next_proxy
             (Advanced.after_requests 7
                (Advanced.scraper_in_env (Advanced.default_config true)
                   (Some ["http://10.0.0.1:3128"]))))
      = Ok entry.
Proof.
  apply (proj2 (proj2 (proj2
           (load_proxy_list_schedule (Advanced.default_config true)
              (Some ["http://10.0.0.1:3128"]) 7)))).
  reflexivity.
Defined.

(** * Classification of descriptions *)

Lemma lower_char_idem (c : ascii) : Py.lower_char (Py.lower_char c) = Py.lower_char c.
Proof. destruct c as [[] [] [] [] [] [] [] []]; reflexivity. Qed.

Lemma lower_char_upper_char (c : ascii) : Py.lower_char (Py.upper_char c) = Py.lower_char c.
Proof. destruct c as [[] [] [] [] [] [] [] []]; reflexivity. Qed.

Lemma lower_idem (s : string) : Py.lower (Py.lower s) = Py.lower s.
Proof. induction s as [|c r IH]; simpl; [|rewrite lower_char_idem, IH]; reflexivity. Qed.

Lemma lower_upper (s : string) :
  Py.isascii s = true → Py.lower (Py.upper s) = Py.lower s.
Proof.
  induction s as [|c r IH]; simpl; [reflexivity|].
  intros Hascii. apply andb_prop in Hascii as [_ Hrest].
  rewrite lower_char_upper_char, (IH Hrest). reflexivity.
Qed.

Lemma lower_app (a b : string) : Py.lower (a ++ b) = (Py.lower a ++ Py.lower b)%string.
Proof.
  induction a as [|c r IH]; [reflexivity|].
  change (Py.lower (String c (r ++ b))
          = String (Py.lower_char c) (Py.lower r ++ Py.lower b)).
  simpl. rewrite IH. reflexivity.
Qed.

Lemma prefix_app (a b : string) : String.prefix a (a ++ b) = true.
Proof.
  induction a as [|c r IH]; [destruct b; reflexivity|].
  change (String.prefix (String c r) (String c (r ++ b)) = true). simpl.
  destruct (ascii_dec c c); [exact IH | congruence].
Qed.

Lemma contains_unfold (sub s : string) :
  Py.contains sub s
  = String.prefix sub s
    || match s with
       | EmptyString => false
       | String _ r => Py.contains sub r
       end.
Proof. destruct s; reflexivity. Qed.

Lemma contains_app (pre sub post : string) : Py.contains sub (pre ++ sub ++ post) = true.
Proof.
  induction pre as [|c r IH].
  - change ("" ++ sub ++ post)%string with (sub ++ post)%string.
    rewrite contains_unfold, prefix_app. reflexivity.
  - change (String c r ++ sub ++ post)%string with (String c (r ++ sub ++ post)).
    rewrite contains_unfold, IH. apply orb_true_r.
Qed.

Lemma any_term_in_app (terms : list string) (pre word post : string) :
  In (Py.lower word) terms →
  Advanced.any_term_in terms (Py.lower (pre ++ word ++ post)) = true.
Proof.
  intros Hin. unfold Advanced.any_term_in. apply existsb_exists.
  exists (Py.lower word). split; [exact Hin|].
  rewrite !lower_app. apply contains_app.
Qed.

(** X11. Each classifier of a description answers with one of its fixed
    labels: the job type is remote, hybrid, part-time, contract or full-time,
    the experience level senior, junior, mid or not specified. Lower-casing
    the description changes neither answer, and neither does upper-casing a
    description that is ASCII text. *)
Theorem classification_labels (description : string) :
  In (Advanced.extract_job_type_from_description description)
     ["remote"; "hybrid"; "part-time"; "contract"; "full-time"]
  ∧ In (Advanced.extract_experience_level description)
       ["senior"; "junior"; "mid"; "not specified"]
  ∧ Advanced.extract_job_type_from_description (Py.lower description)
    = Advanced.extract_job_type_from_description description
  ∧ Advanced.extract_experience_level (Py.lower description)
    = Advanced.extract_experience_level description
  ∧ (Py.isascii description = true →
     Advanced.extract_job_type_from_description (Py.upper description)
     = Advanced.extract_job_type_from_description description
     ∧ Advanced.extract_experience_level (Py.upper description)
       = Advanced.extract_experience_level description).
Proof.
  unfold Advanced.extract_job_type_from_description, Advanced.extract_experience_level.
  rewrite !lower_idem.
  split; [|split; [|split; [|split]]]; try reflexivity.
  - repeat (destruct (Advanced.any_term_in _ _); [simpl; tauto|]). simpl; tauto.
  - repeat (destruct (Advanced.any_term_in _ _); [simpl; tauto|]). simpl; tauto.
  - intros Hascii. rewrite !(lower_upper _ Hascii). split; reflexivity.
Qed.

Lemma classification_labels_witness :
  Advanced.extract_job_type_from_description (Py.upper "Flexible hours, senior engineer")
  = Advanced.extract_job_type_from_description "Flexible hours, senior engineer"
  ∧ Advanced.extract_experience_level (Py.upper "Flexible hours, senior engineer")
    = Advanced.extract_experience_level "Flexible hours, senior engineer".
Proof.
  apply (proj2 (proj2 (proj2 (proj2
           (classification_labels "Flexible hours, senior engineer"))))).
  reflexivity.
Defined.

(** X12. The first group of terms wins: a description that mentions
    remote, work from home or wfh anywhere, in any casing, is classified
    remote whatever else it says, and one that mentions senior, lead,
    principal, 5+ years or 7+ years is classified senior even when it also
    mentions junior or mid terms. *)
Theorem classification_priority (pre word post : string) :
  (In (Py.lower word) ["remote"; "work from home"; "wfh"] →
   Advanced.extract_job_type_from_description (pre ++ word ++ post) = "remote")
  ∧ (In (Py.lower word) ["senior"; "lead"; "principal"; "5+ years"; "7+ years"] →
     Advanced.extract_experience_level (pre ++ word ++ post) = "senior").
Proof.
  split; intros Hin.
  - unfold Advanced.extract_job_type_from_description.
    rewrite (any_term_in_app _ pre word post Hin). reflexivity.
  - unfold Advanced.extract_experience_level.
    rewrite (any_term_in_app _ pre word post Hin). reflexivity.
Qed.

Lemma classification_priority_witness :
  Advanced.extract_job_type_from_description
    ("Hybrid contract role, " ++ "Work From Home" ++ " possible") = "remote"
  ∧ Advanced.extract_experience_level
      ("Junior or mid developer reporting to the team " ++ "LEAD" ++ "") = "senior".
Proof.
  split.
  - apply (proj1 (classification_priority "Hybrid contract role, " "Work From Home"
                    " possible")).
    simpl. tauto.
  - apply (proj2 (classification_priority "Junior or mid developer reporting to the team "
                    "LEAD" "")).
    simpl. tauto.
Defined.

(** X13. The relevance score, computed on binary64 floats, always lies
    between 0.5 and 1.0; it is exactly 1.0 when the title names a developer,
    engineer or programmer, the description is longer than 100 characters and
    there are more than 3 requirements, and below 1.0 otherwise, so the cap
    at 1.0 never changes the sum. *)
Theorem calculate_relevance_score_range (title description : string)
    (requirements : list string) :
  let score := Advanced.calculate_relevance_score title description requirements in
  let all_bonuses :=
    Advanced.any_term_in ["developer"; "engineer"; "programmer"] (Py.lower title)
    && (100 <? String.length description)%nat
    && (3 <? length requirements)%nat in
  PrimFloat.leb 0.5 score = true
  ∧ PrimFloat.leb score 1 = true
  ∧ PrimFloat.eqb score 1 = all_bonuses
  ∧ PrimFloat.ltb score 1 = negb all_bonuses.
Proof.
  intros score all_bonuses. subst score all_bonuses.
  unfold Advanced.calculate_relevance_score.
  destruct (Advanced.any_term_in _ _), (100 <? String.length description)%nat,
    (3 <? length requirements)%nat; repeat split.
Qed.

(** * Crawling the result pages *)

Lemma make_request_requested (web : Advanced.Web) (url : string) (st : Advanced.Crawl) :
  let st' := snd (Advanced.make_request_with_protection web url st) in
  match fst (Advanced.make_request_with_protection web url st) with
  | Ok _ => Advanced.requested st' = Advanced.requested st ++ [url]
  | Raise _ => Advanced.requested st' = Advanced.requested st
  end
  ∧ Advanced.rotator st' = snd (Advanced.get_next_proxy (Advanced.rotator st)).
Proof.
  unfold Advanced.make_request_with_protection.
  destruct (Advanced.get_next_proxy (Advanced.rotator st)) as [[proxy|e] rotator'];
    simpl; [|split; reflexivity].
  destruct (Advanced.http_get web url proxy) as [[status text]|e]; simpl;
    [destruct (status =? 200)%nat; simpl|]; split; reflexivity.
Qed.

Lemma indeed_pages_requested (web : Advanced.Web) (keywords location : string)
    (starts : list nat) :
  ∀ jobs st,
    ∃ visited,
      visited `prefix_of` map (Advanced.indeed_search_url keywords location) starts
      ∧ Advanced.requested (snd (Advanced.indeed_pages web keywords location starts jobs st))
        = Advanced.requested st ++ visited.
Proof.
  induction starts as [|start starts IH]; intros jobs st; simpl.
  - exists []. split; [reflexivity | rewrite app_nil_r; reflexivity].
  - pose proof (make_request_requested web
                  (Advanced.indeed_search_url keywords location start) st) as [Hreq _].
    destruct (Advanced.make_request_with_protection web
                (Advanced.indeed_search_url keywords location start) st)
      as [[html|e] st']; simpl in Hreq.
    + assert (Hstep : ∀ jobs',
                ∃ visited,
                  visited `prefix_of`
                    Advanced.indeed_search_url keywords location start
                    :: map (Advanced.indeed_search_url keywords location) starts
                  ∧ Advanced.requested
                      (snd (Advanced.indeed_pages web keywords location starts jobs' st'))
                    = Advanced.requested st ++ visited).
      { intros jobs'. destruct (IH jobs' st') as (visited & Hprefix & Hvisited).
        exists (Advanced.indeed_search_url keywords location start :: visited). split.
        - apply prefix_cons. exact Hprefix.
        - rewrite Hvisited, Hreq, <- app_assoc. reflexivity. }
      assert (Hstop : ∃ visited,
                visited `prefix_of`
                  Advanced.indeed_search_url keywords location start
                  :: map (Advanced.indeed_search_url keywords location) starts
                ∧ Advanced.requested st' = Advanced.requested st ++ visited).
      { exists [Advanced.indeed_search_url keywords location start]. split; [|exact Hreq].
        apply prefix_cons, prefix_nil. }
      destruct html as [[|c html]|]; [apply Hstep | | apply Hstep].
      destruct (Advanced.select_cards web "div[data-jk]" (String c html));
        [exact Hstop | apply Hstep].
    + exists []. split; [apply prefix_nil | rewrite app_nil_r; exact Hreq].
Qed.

(** X14. One Indeed scrape requests at most ten result pages, and the
    pages it requests are an initial run of the addresses with start = 0,
    10, ..., 90, in that order; it never raises. *)
Theorem scrape_indeed_advanced_requests (web : Advanced.Web)
    (search_params : Advanced.SearchParams) (st : Advanced.Crawl) :
  let keywords := Py.replace_char " " "%20" (Advanced.sp_keywords search_params) in
  let location := Py.replace_char " " "%20" (Advanced.sp_location search_params) in
  ∃ visited,
    visited `prefix_of`
      map (fun page => Advanced.indeed_search_url keywords location (10 * page)) (seq 0 10)
    ∧ length visited ≤ 10
    ∧ Advanced.requested (snd (Advanced.scrape_indeed_advanced web search_params st))
      = Advanced.requested st ++ visited.
Proof.
  intros keywords location. unfold Advanced.scrape_indeed_advanced.
  destruct (indeed_pages_requested web keywords location Advanced.page_starts [] st)
    as (visited & Hprefix & Hvisited).
  unfold Advanced.page_starts in Hprefix. rewrite map_map in Hprefix.
  exists visited. split; [exact Hprefix|]. split; [|exact Hvisited].
  apply prefix_length in Hprefix. rewrite length_map, length_seq in Hprefix. exact Hprefix.
Qed.

Lemma get_next_proxy_keeps_range (self : Advanced.Scraper) :
  Advanced.current_proxy_index self < length (Advanced.proxies self) →
  let self' := snd (Advanced.get_next_proxy self) in
  Advanced.current_proxy_index self' < length (Advanced.proxies self')
  ∧ Advanced.request_count self'
    = Advanced.request_count self
      + (if Advanced.use_proxies (Advanced.config self) then 1 else 0).
Proof.
  intros Hidx self'.
  destruct (after_requests_in_range 1 self Hidx) as (Hp & _ & Hi).
  change (Advanced.after_requests 1 self) with self' in Hp, Hi.
  split; [rewrite Hp; exact Hi|].
  subst self'. unfold Advanced.get_next_proxy.
  destruct (Advanced.use_proxies (Advanced.config self)); simpl.
  - rewrite bool_decide_eq_false_2; [reflexivity|].
    intros Hnil. rewrite Hnil in Hidx. simpl in Hidx. lia.
  - lia.
Qed.

Lemma indeed_pages_unusable (web : Advanced.Web) (keywords location : string)
    (starts : list nat) :
  (∀ url proxy, Advanced.unusable (Advanced.http_get web url proxy)) →
  ∀ jobs st,
    Advanced.current_proxy_index (Advanced.rotator st)
    < length (Advanced.proxies (Advanced.rotator st)) →
    let result := Advanced.indeed_pages web keywords location starts jobs st in
    fst result = jobs
    ∧ Advanced.requested (snd result)
      = Advanced.requested st ++ map (Advanced.indeed_search_url keywords location) starts
    ∧ Advanced.request_count (Advanced.rotator (snd result))
      = Advanced.request_count (Advanced.rotator st)
        + (if Advanced.use_proxies (Advanced.config (Advanced.rotator st))
           then length starts else 0).
Proof.
  intros Hdead. induction starts as [|start starts IH]; intros jobs st Hidx; simpl.
  - rewrite app_nil_r. repeat split. destruct (Advanced.use_proxies _); lia.
  - set (url := Advanced.indeed_search_url keywords location start).
    destruct (get_next_proxy_in_range _ Hidx) as [proxy Hproxy].
    destruct (get_next_proxy_keeps_range _ Hidx) as [Hidx' Hcount].
    assert (Hconfig : Advanced.config (snd (Advanced.get_next_proxy (Advanced.rotator st)))
                      = Advanced.config (Advanced.rotator st)).
    { destruct (after_requests_in_range 1 _ Hidx) as (_ & Hc & _). exact Hc. }
    assert (Hrequest : ∃ html,
               Advanced.make_request_with_protection web url st
               = (Ok html,
                  Advanced.mkCrawl (snd (Advanced.get_next_proxy (Advanced.rotator st)))
                                   (Advanced.requested st ++ [url]))
               ∧ (html = None ∨ html = Some "")).
    { unfold Advanced.make_request_with_protection.
      destruct (Advanced.get_next_proxy (Advanced.rotator st)) as [first rotator'].
      simpl in Hproxy. subst first. simpl.
      specialize (Hdead url proxy).
      destruct (Advanced.http_get web url proxy) as [[status text]|e]; simpl in Hdead.
      - destruct (Nat.eqb_spec status 200) as [Hok|Hbad].
        + exists (Some text). split; [reflexivity|]. right.
          destruct Hdead as [Hne|Hempty]; [contradiction | rewrite Hempty; reflexivity].
        + exists None. split; [reflexivity | left; reflexivity].
      - exists None. split; [reflexivity | left; reflexivity]. }
    destruct Hrequest as (html & Hrequest & Hhtml). rewrite Hrequest.
    set (st' := Advanced.mkCrawl _ _) in *.
    destruct (IH jobs st' Hidx') as (Hjobs & Hvisited & Hcounter).
    assert (Hgoal :
      fst (Advanced.indeed_pages web keywords location starts jobs st') = jobs
      ∧ Advanced.requested (snd (Advanced.indeed_pages web keywords location starts jobs st'))
        = Advanced.requested st
          ++ url :: map (Advanced.indeed_search_url keywords location) starts
      ∧ Advanced.request_count
          (Advanced.rotator (snd (Advanced.indeed_pages web keywords location starts jobs st')))
        = Advanced.request_count (Advanced.rotator st)
          + (if Advanced.use_proxies (Advanced.config (Advanced.rotator st))
             then S (length starts) else 0)).
    { split; [exact Hjobs|]. split.
      - rewrite Hvisited. subst st'. simpl. rewrite <- app_assoc. reflexivity.
      - rewrite Hcounter. subst st'. cbn [Advanced.rotator]. rewrite Hcount, Hconfig.
        destruct (Advanced.use_proxies _); lia. }
    destruct Hhtml as [-> | ->]; exact Hgoal.
Qed.

(** X15. A site that never yields a usable page (every request raises,
    or answers with a status other than 200, or with an empty body) does not
    end the scan early: all ten pages are requested, ten proxy requests are
    counted when proxies are enabled, and no job is returned. *)
Theorem scrape_indeed_advanced_dead_site (web : Advanced.Web)
    (search_params : Advanced.SearchParams) (st : Advanced.Crawl) :
  (∀ url proxy, Advanced.unusable (Advanced.http_get web url proxy)) →
  Advanced.current_proxy_index (Advanced.rotator st)
  < length (Advanced.proxies (Advanced.rotator st)) →
  let result := Advanced.scrape_indeed_advanced web search_params st in
  fst result = []
  ∧ length (Advanced.requested (snd result)) = length (Advanced.requested st) + 10
  ∧ Advanced.request_count (Advanced.rotator (snd result))
    = Advanced.request_count (Advanced.rotator st)
      + (if Advanced.use_proxies (Advanced.config (Advanced.rotator st)) then 10 else 0).
Proof.
  intros Hdead Hidx result. subst result. unfold Advanced.scrape_indeed_advanced.
  destruct (indeed_pages_unusable web
              (Py.replace_char " " "%20" (Advanced.sp_keywords search_params))
              (Py.replace_char " " "%20" (Advanced.sp_location search_params))
              Advanced.page_starts Hdead [] st Hidx) as (Hjobs & Hvisited & Hcounter).
  split; [exact Hjobs|]. split; [|exact Hcounter].
  rewrite Hvisited, length_app, length_map. reflexivity.
Qed.

Lemma scrape_indeed_advanced_dead_site_witness :
  let result := Advanced.scrape_indeed_advanced Sample.dead_site Sample.python_remote
                  Sample.new_crawl in
  fst result = []
  ∧ length (Advanced.requested (snd result)) = 0 + 10
  ∧ Advanced.request_count (Advanced.rotator (snd result)) = 0 + 10.
Proof.
  apply (scrape_indeed_advanced_dead_site Sample.dead_site Sample.python_remote
           Sample.new_crawl).
  - intros url proxy. left. discriminate.
  - simpl. lia.
Defined.

(** X16. A first page that loads but shows no job card ends the scan at
    once: exactly one page is requested and no job is returned. *)
Theorem scrape_indeed_advanced_stops_on_empty_page (web : Advanced.Web)
    (search_params : Advanced.SearchParams) (st : Advanced.Crawl) (c : ascii) (body : string) :
  let keywords := Py.replace_char " " "%20" (Advanced.sp_keywords search_params) in
  let location := Py.replace_char " " "%20" (Advanced.sp_location search_params) in
  let first_page := Advanced.indeed_search_url keywords location 0 in
  Advanced.current_proxy_index (Advanced.rotator st)
  < length (Advanced.proxies (Advanced.rotator st)) →
  (∀ proxy, Advanced.http_get web first_page proxy = Ok (200, String c body)) →
  Advanced.select_cards web "div[data-jk]" (String c body) = [] →
  let result := Advanced.scrape_indeed_advanced web search_params st in
  fst result = []
  ∧ Advanced.requested (snd result) = Advanced.requested st ++ [first_page].
Proof.
  intros keywords location first_page Hidx Hpage Hcards result. subst result.
  unfold Advanced.scrape_indeed_advanced. fold keywords location.
  change Advanced.page_starts with (0 :: map (fun page => 10 * page) (seq 1 9)).
  generalize (map (fun page => 10 * page) (seq 1 9)). intros later_pages.
  cbn [Advanced.indeed_pages]. fold first_page.
  destruct (get_next_proxy_in_range _ Hidx) as [proxy Hproxy].
  unfold Advanced.make_request_with_protection.
  destruct (Advanced.get_next_proxy (Advanced.rotator st)) as [first rotator'].
  simpl in Hproxy. subst first. rewrite Hpage. simpl. rewrite Hcards. simpl.
  split; reflexivity.
Qed.

Lemma scrape_indeed_advanced_stops_on_empty_page_witness :
  let result := Advanced.scrape_indeed_advanced Sample.empty_site Sample.python_remote
                  Sample.new_crawl in
  fst result = []
  ∧ Advanced.requested (snd result)
    = [] ++ ["https://www.indeed.com/jobs?q=python%20developer&l=remote&start=0"].
Proof.
  apply (scrape_indeed_advanced_stops_on_empty_page Sample.empty_site Sample.python_remote
           Sample.new_crawl "<" "html></html>").
  - simpl. lia.
  - intros proxy. reflexivity.
  - reflexivity.
Defined.

Lemma scrape_indeed_advanced_requests_length (web : Advanced.Web)
    (search_params : Advanced.SearchParams) (st : Advanced.Crawl) :
  length (Advanced.requested (snd (Advanced.scrape_indeed_advanced web search_params st)))
  ≤ length (Advanced.requested st) + 10.
Proof.
  unfold Advanced.scrape_indeed_advanced.
  destruct (indeed_pages_requested web
              (Py.replace_char " " "%20" (Advanced.sp_keywords search_params))
              (Py.replace_char " " "%20" (Advanced.sp_location search_params))
              Advanced.page_starts [] st) as (visited & Hprefix & Hvisited).
  rewrite Hvisited, length_app.
  apply prefix_length in Hprefix. rewrite length_map in Hprefix.
  change (length Advanced.page_starts) with 10 in Hprefix. lia.
Qed.

Lemma scrape_glassdoor_advanced_requested (web : Advanced.Web)
    (search_params : Advanced.SearchParams) (st : Advanced.Crawl) :
  length (Advanced.requested (snd (Advanced.scrape_glassdoor_advanced web search_params st)))
  ≤ length (Advanced.requested st) + 1.
Proof.
  unfold Advanced.scrape_glassdoor_advanced.
  match goal with |- context [Advanced.make_request_with_protection web ?u st] =>
    pose proof (make_request_requested web u st) as [Hreq _];
    destruct (Advanced.make_request_with_protection web u st) as [[html|e] st']
  end; simpl in Hreq.
  - assert (Hlen : length (Advanced.requested st') ≤ length (Advanced.requested st) + 1)
      by (rewrite Hreq, length_app; simpl; lia).
    destruct html as [[|c html]|]; exact Hlen.
  - simpl. rewrite Hreq. lia.
Qed.

(** X17. The aggregate of [scrape_all_sources_advanced] always reports
    success; [totalJobs] is the number of listings returned, which are a
    subsequence of the Indeed listings followed by the Glassdoor listings
    with no two of them near-duplicates; the per-source counts are taken
    before duplicate removal, so their sum is at least [totalJobs]; and the
    whole run issues at most eleven page requests. *)
Theorem scrape_all_sources_advanced_result (web : Advanced.Web)
    (search_params : Advanced.SearchParams) (st : Advanced.Crawl) :
  let indeed_jobs := fst (Advanced.scrape_indeed_advanced web search_params st) in
  let st1 := snd (Advanced.scrape_indeed_advanced web search_params st) in
  let glassdoor_jobs := fst (Advanced.scrape_glassdoor_advanced web search_params st1) in
  let result := fst (Advanced.scrape_all_sources_advanced web search_params st) in
  let st' := snd (Advanced.scrape_all_sources_advanced web search_params st) in
  Advanced.success result = true
  ∧ Advanced.totalJobs result = length (Advanced.jobs result)
  ∧ Advanced.sourceResults result
    = [("indeed_advanced", length indeed_jobs); ("glassdoor_advanced", length glassdoor_jobs)]
  ∧ Advanced.totalJobs result ≤ list_sum (map snd (Advanced.sourceResults result))
  ∧ sublist (Advanced.jobs result) (indeed_jobs ++ glassdoor_jobs)
  ∧ ForallOrdPairs
      (fun earlier later =>
         Advanced.similar (Advanced.identifier later) (Advanced.identifier earlier) = false)
      (Advanced.jobs result)
  ∧ length (Advanced.requested st') ≤ length (Advanced.requested st) + 11.
Proof.
  intros indeed_jobs st1 glassdoor_jobs result st'.
  subst result st'. unfold Advanced.scrape_all_sources_advanced.
  pose proof (scrape_glassdoor_advanced_requested web search_params st1) as Hglassdoor.
  pose proof (scrape_indeed_advanced_requests_length web search_params st) as Hindeed.
  fold st1 in Hindeed.
  subst indeed_jobs glassdoor_jobs st1.
  destruct (Advanced.scrape_indeed_advanced web search_params st) as [indeed_jobs st1].
  cbn [fst snd] in *.
  destruct (Advanced.scrape_glassdoor_advanced web search_params st1)
    as [glassdoor_jobs st2].
  cbn [fst snd Advanced.success Advanced.totalJobs Advanced.sourceResults Advanced.jobs] in *.
  pose proof (advanced_remove_duplicates_from_sublist (indeed_jobs ++ glassdoor_jobs) ∅)
    as Hsub.
  repeat split.
  - apply sublist_length in Hsub. rewrite length_app in Hsub. simpl.
    unfold Advanced.remove_duplicates_advanced. lia.
  - exact Hsub.
  - apply advanced_remove_duplicates_from_pairwise.
  - lia.
Qed.

(** * Further properties of the robots gate *)

Lemma retrievals_app (l1 l2 : list Legal.Event) :
  Legal.retrievals (l1 ++ l2) = Legal.retrievals l1 + Legal.retrievals l2.
Proof. unfold Legal.retrievals. rewrite List.filter_app, length_app. reflexivity. Qed.

Lemma check_robots_txt_cached (w : Legal.World) (self : Legal.Scraper)
    (base_url endpoint : string) (rp : Legal.RobotFileParser) (st : Legal.State) :
  Legal.respect_robots (Legal.config self) = true →
  Legal.robots_cache st !! base_url = Some rp →
  let allowed := Legal.can_fetch rp "*" (Legal.urljoin w base_url endpoint) in
  Legal.check_robots_txt w self base_url endpoint st
  = (Ok allowed,
     Legal.mkState (Legal.robots_cache st) (Legal.draws st)
       (Legal.trace st
        ++ (if allowed then [] else [Legal.LogWarning (Legal.urljoin w base_url endpoint)]))).
Proof.
  intros Hrespect Hcached allowed. unfold Legal.check_robots_txt.
  rewrite Hrespect. simpl. unfold Legal.bind at 1, Legal.cached_robots.
  rewrite Hcached. run_monad. fold allowed.
  destruct allowed; run_monad; [rewrite app_nil_r; destruct st|]; reflexivity.
Qed.

(** X18. A robots.txt that was read successfully is cached under the base
    address: the first check retrieves it once and answers from it, and every
    later check for that base address, for whatever endpoint, answers from
    the same parser without a retrieval and without touching the cache. *)
Theorem check_robots_txt_caches (w : Legal.World) (self : Legal.Scraper)
    (base_url endpoint endpoint' : string) (rp : Legal.RobotFileParser) (st : Legal.State) :
  Legal.respect_robots (Legal.config self) = true →
  Legal.robots_cache st !! base_url = None →
  Legal.robots_read w (Legal.urljoin w base_url "/robots.txt") = Some rp →
  let first := Legal.check_robots_txt w self base_url endpoint st in
  let second := Legal.check_robots_txt w self base_url endpoint' (snd first) in
  fst first = Ok (Legal.can_fetch rp "*" (Legal.urljoin w base_url endpoint))
  ∧ Legal.robots_cache (snd first) = <[base_url := rp]> (Legal.robots_cache st)
  ∧ Legal.retrievals (Legal.trace (snd first)) = Legal.retrievals (Legal.trace st) + 1
  ∧ fst second = Ok (Legal.can_fetch rp "*" (Legal.urljoin w base_url endpoint'))
  ∧ Legal.robots_cache (snd second) = Legal.robots_cache (snd first)
  ∧ Legal.retrievals (Legal.trace (snd second)) = Legal.retrievals (Legal.trace (snd first)).
Proof.
  intros Hrespect Hcache Hread first second.
  assert (Hfirst : first
    = (Ok (Legal.can_fetch rp "*" (Legal.urljoin w base_url endpoint)),
       Legal.mkState (<[base_url := rp]> (Legal.robots_cache st)) (Legal.draws st)
         ((Legal.trace st ++ [Legal.RobotsRead (Legal.urljoin w base_url "/robots.txt")])
          ++ (if Legal.can_fetch rp "*" (Legal.urljoin w base_url endpoint) then []
              else [Legal.LogWarning (Legal.urljoin w base_url endpoint)])))).
  { subst first. unfold Legal.check_robots_txt. rewrite Hrespect. simpl.
    unfold Legal.bind at 1, Legal.cached_robots. rewrite Hcache, Hread.
    unfold Legal.cache_robots. run_monad.
    destruct (Legal.can_fetch rp "*" (Legal.urljoin w base_url endpoint));
      run_monad; rewrite ?app_nil_r; reflexivity. }
  assert (Hcached : Legal.robots_cache (snd first) !! base_url = Some rp)
    by (rewrite Hfirst; simpl; apply lookup_insert_eq).
  pose proof (check_robots_txt_cached w self base_url endpoint' rp (snd first)
                Hrespect Hcached) as Hsecond.
  fold second in Hsecond. simpl in Hsecond.
  rewrite Hsecond. rewrite Hfirst. simpl.
  repeat split.
  - rewrite !retrievals_app.
    destruct (Legal.can_fetch rp "*" (Legal.urljoin w base_url endpoint)); simpl;
      unfold Legal.retrievals; simpl; lia.
  - rewrite !retrievals_app.
    destruct (Legal.can_fetch rp "*" (Legal.urljoin w base_url endpoint')); simpl;
      unfold Legal.retrievals; simpl; lia.
Qed.

Lemma check_robots_txt_caches_witness :
  let first := Legal.check_robots_txt Sample.guarded Sample.scraper
                 "https://www.monster.com" "/jobs/search" Legal.initial_state in
  let second := Legal.check_robots_txt Sample.guarded Sample.scraper
                  "https://www.monster.com" "/jobs" (snd first) in
  fst first = Ok false
  ∧ Legal.retrievals (Legal.trace (snd first)) = 0 + 1
  ∧ fst second = Ok true
  ∧ Legal.retrievals (Legal.trace (snd second)) = Legal.retrievals (Legal.trace (snd first)).
Proof.
  destruct (check_robots_txt_caches Sample.guarded Sample.scraper
              "https://www.monster.com" "/jobs/search" "/jobs" Sample.no_search
              Legal.initial_state eq_refl eq_refl eq_refl)
    as (H1 & _ & H3 & H4 & _ & H6).
  repeat split; assumption.
Defined.

Ltac close_untouched :=
  unfold Legal.robots_untouched; simpl; rewrite ?retrievals_app; simpl;
  split; [reflexivity | unfold Legal.retrievals; simpl; lia].

Lemma robots_untouched_trans (st1 st2 st3 : Legal.State) :
  Legal.robots_untouched st1 st2 → Legal.robots_untouched st2 st3 →
  Legal.robots_untouched st1 st3.
Proof.
  intros [Hc1 Hr1] [Hc2 Hr2]. split; [rewrite Hc2; exact Hc1 | rewrite Hr2; exact Hr1].
Qed.

Lemma scrape_via_api_untouched (w : Legal.World) (self : Legal.Scraper) (source : string)
    (params : Legal.Params) (st : Legal.State) :
  Legal.robots_untouched st (snd (Legal.scrape_via_api w self source params st)).
Proof.
  unfold Legal.scrape_via_api. run_monad.
  destruct (Legal.get_source (Legal.job_sources self) source); simpl; [|close_untouched].
  repeat (destruct (String.eqb source _); simpl; [run_monad; close_untouched|]).
  close_untouched.
Qed.

Lemma scrape_via_web_untouched (w : Legal.World) (self : Legal.Scraper) (source : string)
    (params : Legal.Params) (st : Legal.State) :
  Legal.respect_robots (Legal.config self) = false →
  Legal.robots_untouched st (snd (Legal.scrape_via_web w self source params st)).
Proof.
  intros Hoff. unfold Legal.scrape_via_web, Legal.check_robots_txt. rewrite Hoff.
  run_monad.
  destruct (Legal.get_source (Legal.job_sources self) source); simpl; [|close_untouched].
  repeat (destruct (String.eqb source _); simpl;
          [run_monad; destruct (Legal.site w _ params); close_untouched|]).
  close_untouched.
Qed.

Lemma respectful_delay_untouched (w : Legal.World) (self : Legal.Scraper) (source : string)
    (st : Legal.State) :
  Legal.robots_untouched st (snd (Legal.respectful_delay w self source st)).
Proof. close_untouched. Qed.

Lemma select_and_scrape_untouched (w : Legal.World) (self : Legal.Scraper)
    (params : Legal.Params) (name : string) (source_config : Legal.SourceConfig)
    (st : Legal.State) :
  Legal.respect_robots (Legal.config self) = false
  ∨ Legal.legal_status source_config = "API_AVAILABLE" →
  Legal.robots_untouched st
    (snd (Legal.select_and_scrape w self params name source_config st)).
Proof.
  intros Hcase. unfold Legal.select_and_scrape, Legal.scrape_via_api_with_fallback.
  destruct (String.eqb_spec (Legal.legal_status source_config) "API_AVAILABLE")
    as [Havailable|Hother];
    [rewrite bind_ret_snd; apply scrape_via_api_untouched|].
  destruct Hcase as [Hoff|Havailable]; [|contradiction].
  destruct (String.eqb (Legal.legal_status source_config) "API_PREFERRED").
  { destruct (Legal.env_truthy w _); rewrite bind_ret_snd;
      [apply scrape_via_api_untouched | apply scrape_via_web_untouched; exact Hoff]. }
  destruct (String.eqb (Legal.legal_status source_config) "SCRAPING_ALLOWED");
    [rewrite bind_ret_snd; apply scrape_via_web_untouched; exact Hoff|].
  destruct (String.eqb (Legal.legal_status source_config) "API_ONLY"); close_untouched.
Qed.

Lemma process_source_untouched (w : Legal.World) (self : Legal.Scraper)
    (params : Legal.Params) (all_jobs : list Legal.JobListing)
    (entry : string * Legal.SourceConfig) (st : Legal.State) :
  Legal.respect_robots (Legal.config self) = false
  ∨ Legal.legal_status (snd entry) = "API_AVAILABLE" →
  Legal.robots_untouched st (snd (Legal.process_source w self params all_jobs entry st)).
Proof.
  intros Hcase. destruct entry as [name source_config]. simpl in Hcase.
  rewrite process_source_cases.
  pose proof (select_and_scrape_untouched w self params name source_config st Hcase)
    as Hselect.
  destruct (Legal.select_and_scrape w self params name source_config st)
    as [[[jobs|]|e] st1]; cbn [snd] in *.
  - eapply robots_untouched_trans; [exact Hselect | apply respectful_delay_untouched].
  - exact Hselect.
  - eapply robots_untouched_trans; [exact Hselect | close_untouched].
Qed.

Lemma process_sources_untouched (w : Legal.World) (self : Legal.Scraper)
    (params : Legal.Params) (entries : list (string * Legal.SourceConfig)) :
  Legal.respect_robots (Legal.config self) = false
  ∨ Forall (fun entry => Legal.legal_status (snd entry) = "API_AVAILABLE") entries →
  ∀ all_jobs st,
    Legal.robots_untouched st
      (snd (Legal.process_sources w self params all_jobs entries st)).
Proof.
  induction entries as [|entry entries IH]; intros Hcase all_jobs st; simpl.
  - close_untouched.
  - assert (Hentry : Legal.respect_robots (Legal.config self) = false
                     ∨ Legal.legal_status (snd entry) = "API_AVAILABLE").
    { destruct Hcase as [Hoff|Hall]; [left; exact Hoff|].
      right. inversion Hall; assumption. }
    assert (Hrest : Legal.respect_robots (Legal.config self) = false
                    ∨ Forall (fun entry => Legal.legal_status (snd entry) = "API_AVAILABLE")
                             entries).
    { destruct Hcase as [Hoff|Hall]; [left; exact Hoff|].
      right. inversion Hall; assumption. }
    unfold Legal.bind. rewrite process_source_returns.
    eapply robots_untouched_trans;
      [apply (process_source_untouched w self params [] entry st Hentry) | apply IH, Hrest].
Qed.

(** X19. The robots gate is consulted only on the HTML path and only when
    the switch is on: a comprehensive run with [respect_robots] off, or over
    sources that are all API_AVAILABLE, retrieves no robots.txt and leaves the
    robots cache as it was. *)
Theorem run_without_robots (w : Legal.World) (self : Legal.Scraper)
    (search_params : option Legal.Params) (st : Legal.State) :
  Legal.respect_robots (Legal.config self) = false
  ∨ Forall (fun entry => Legal.legal_status (snd entry) = "API_AVAILABLE")
           (Legal.job_sources self) →
  let st' := snd (Legal.scrape_jobs_comprehensive w self search_params st) in
  Legal.robots_cache st' = Legal.robots_cache st
  ∧ Legal.retrievals (Legal.trace st') = Legal.retrievals (Legal.trace st).
Proof.
  intros Hcase st'. subst st'. unfold Legal.scrape_jobs_comprehensive.
  rewrite bind_ret_snd.
  apply (process_sources_untouched w self _ (Legal.job_sources self) Hcase [] st).
Qed.

Lemma run_without_robots_witness :
  let st' := snd (Legal.scrape_jobs_comprehensive Sample.guarded Sample.careless_scraper None
                    Legal.initial_state) in
  Legal.robots_cache st' = ∅ ∧ Legal.retrievals (Legal.trace st') = 0.
Proof.
  apply (run_without_robots Sample.guarded Sample.careless_scraper None Legal.initial_state).
  left. reflexivity.
Defined.

(** * What the strategies fetch *)

Lemma fetches_app (l1 l2 : list Legal.Event) :
  Legal.fetches (l1 ++ l2) = Legal.fetches l1 ++ Legal.fetches l2.
Proof. apply List.filter_app. Qed.

Ltac close_fetches :=
  simpl; rewrite ?fetches_app; simpl; rewrite <- ?app_assoc, ?app_nil_r; try reflexivity.

Lemma check_robots_txt_fetches (w : Legal.World) (self : Legal.Scraper)
    (base_url endpoint : string) (st : Legal.State) :
  ∃ allowed st',
    Legal.check_robots_txt w self base_url endpoint st = (Ok allowed, st')
    ∧ Legal.fetches (Legal.trace st') = Legal.fetches (Legal.trace st).
Proof.
  unfold Legal.check_robots_txt.
  destruct (Legal.respect_robots (Legal.config self)); simpl;
    [|eexists _, _; split; reflexivity].
  unfold Legal.bind at 1, Legal.cached_robots.
  destruct (Legal.robots_cache st !! base_url) as [rp|].
  - run_monad.
    destruct (Legal.can_fetch rp "*" (Legal.urljoin w base_url endpoint));
      run_monad; eexists _, _; (split; [reflexivity|]); close_fetches.
  - destruct (Legal.robots_read w (Legal.urljoin w base_url "/robots.txt")) as [rp|].
    + unfold Legal.cache_robots. run_monad.
      destruct (Legal.can_fetch rp "*" (Legal.urljoin w base_url endpoint));
        run_monad; eexists _, _; (split; [reflexivity|]); close_fetches.
    + run_monad. eexists _, _. split; [reflexivity|]. close_fetches.
Qed.

Lemma scrape_via_web_unfold (w : Legal.World) (self : Legal.Scraper) (source : string)
    (params : Legal.Params) (st : Legal.State) :
  let st0 := Legal.mkState (Legal.robots_cache st) (Legal.draws st)
                           (Legal.trace st ++ [Legal.ViaWeb source]) in
  Legal.scrape_via_web w self source params st
  = match Legal.get_source (Legal.job_sources self) source with
    | None => (Raise "KeyError", st0)
    | Some source_config =>
        match Legal.check_robots_txt w self (Legal.base_url source_config)
                (Legal.search_endpoint source_config) st0 with
        | (Ok true, st1) =>
            Legal.try_except
              (if String.eqb source "monster"
               then Legal.call_site w Legal.scrape_monster_web params
               else if String.eqb source "dice"
                    then Legal.call_site w Legal.scrape_dice_web params
                    else if String.eqb source "weworkremotely"
                         then Legal.call_site w Legal.scrape_weworkremotely_web params
                         else Legal.ret [])
              (fun e => Legal.bind (Legal.emit (Legal.LogError source e))
                                   (fun _ => Legal.ret [])) st1
        | (Ok false, st1) =>
            (Ok [], Legal.mkState (Legal.robots_cache st1) (Legal.draws st1)
                                  (Legal.trace st1 ++ [Legal.LogWarning source]))
        | (Raise e, st1) => (Raise e, st1)
        end
    end.
Proof.
  intros st0. unfold Legal.scrape_via_web. unfold Legal.bind at 1. unfold Legal.emit at 1.
  fold st0. unfold Legal.bind at 1, Legal.source_config_of.
  destruct (Legal.get_source (Legal.job_sources self) source) as [source_config|];
    [|reflexivity].
  unfold Legal.ret at 1. unfold Legal.bind at 1.
  destruct (Legal.check_robots_txt w self (Legal.base_url source_config)
              (Legal.search_endpoint source_config) st0) as [[[|]|e] st1]; reflexivity.
Qed.

(** X20. When the robots gate denies the search page of a configured
    source, the HTML strategy returns no listing, calls no per-site scraper
    and logs the refusal. *)
Theorem scrape_via_web_denied (w : Legal.World) (self : Legal.Scraper) (source : string)
    (params : Legal.Params) (source_config : Legal.SourceConfig) (st st1 : Legal.State) :
  Legal.get_source (Legal.job_sources self) source = Some source_config →
  Legal.check_robots_txt w self (Legal.base_url source_config)
    (Legal.search_endpoint source_config)
    (Legal.mkState (Legal.robots_cache st) (Legal.draws st)
                   (Legal.trace st ++ [Legal.ViaWeb source]))
  = (Ok false, st1) →
  Legal.scrape_via_web w self source params st
  = (Ok [], Legal.mkState (Legal.robots_cache st1) (Legal.draws st1)
                          (Legal.trace st1 ++ [Legal.LogWarning source]))
  ∧ Legal.fetches (Legal.trace (snd (Legal.scrape_via_web w self source params st)))
    = Legal.fetches (Legal.trace st).
Proof.
  intros Hsource Hdenied.
  pose proof (scrape_via_web_unfold w self source params st) as Hweb. simpl in Hweb.
  rewrite Hsource, Hdenied in Hweb. rewrite Hweb. split; [reflexivity|].
  destruct (check_robots_txt_fetches w self (Legal.base_url source_config)
              (Legal.search_endpoint source_config)
              (Legal.mkState (Legal.robots_cache st) (Legal.draws st)
                             (Legal.trace st ++ [Legal.ViaWeb source])))
    as (allowed & st1' & Hcheck & Hfetches).
  rewrite Hdenied in Hcheck. inversion Hcheck; subst.
  close_fetches. rewrite Hfetches. close_fetches.
Qed.

Lemma scrape_via_web_denied_witness :
  Legal.scrape_via_web Sample.guarded Sample.scraper "monster" Legal.default_params
    Legal.initial_state
  = (Ok [],
     Legal.mkState (<["https://www.monster.com" := Sample.no_search]> ∅) 0
       ([Legal.ViaWeb "monster"; Legal.RobotsRead "https://www.monster.com/robots.txt";
         Legal.LogWarning "https://www.monster.com/jobs/search"]
        ++ [Legal.LogWarning "monster"])).
Proof.
  apply (proj1 (scrape_via_web_denied Sample.guarded Sample.scraper "monster"
                  Legal.default_params
                  (Legal.mkSource "https://www.monster.com" "/jobs/search" false
                     None None 3 "SCRAPING_ALLOWED")
                  Legal.initial_state
                  (Legal.mkState (<["https://www.monster.com" := Sample.no_search]> ∅) 0
                     [Legal.ViaWeb "monster";
                      Legal.RobotsRead "https://www.monster.com/robots.txt";
                      Legal.LogWarning "https://www.monster.com/jobs/search"])
                  eq_refl eq_refl)).
Defined.

Lemma get_source_of_entry (sources : list (string * Legal.SourceConfig))
    (name : string) (source_config : Legal.SourceConfig) :
  In (name, source_config) sources →
  ∃ found, Legal.get_source sources name = Some found.
Proof.
  induction sources as [|[n c] sources IH]; intros Hin; [contradiction|]. simpl.
  destruct (String.eqb_spec n name) as [_|Hne]; [exists c; reflexivity|].
  destruct Hin as [Heq|Hin]; [congruence | exact (IH Hin)].
Qed.

(** X21. The HTML strategy contains the failures of the per-site
    scrapers: for every source of [job_sources] it returns, with an empty
    list and a logged error when the per-site scraper raises; only a source
    that is not in [job_sources] makes it raise, a KeyError, before any
    network access. *)
Theorem scrape_via_web_contains_errors (w : Legal.World) (self : Legal.Scraper)
    (source : string) (params : Legal.Params) (st : Legal.State) :
  ((∃ source_config, In (source, source_config) (Legal.job_sources self)) →
   ∃ jobs st', Legal.scrape_via_web w self source params st = (Ok jobs, st'))
  ∧ (Legal.get_source (Legal.job_sources self) source = None →
     Legal.scrape_via_web w self source params st
     = (Raise "KeyError",
        Legal.mkState (Legal.robots_cache st) (Legal.draws st)
                      (Legal.trace st ++ [Legal.ViaWeb source])))
  ∧ (∀ a e source_config st1,
       In (source, a) [("monster", Legal.scrape_monster_web);
                       ("dice", Legal.scrape_dice_web);
                       ("weworkremotely", Legal.scrape_weworkremotely_web)] →
       Legal.get_source (Legal.job_sources self) source = Some source_config →
       Legal.check_robots_txt w self (Legal.base_url source_config)
         (Legal.search_endpoint source_config)
         (Legal.mkState (Legal.robots_cache st) (Legal.draws st)
                        (Legal.trace st ++ [Legal.ViaWeb source]))
       = (Ok true, st1) →
       Legal.site w a params = Raise e →
       Legal.scrape_via_web w self source params st
       = (Ok [],
          Legal.mkState (Legal.robots_cache st1) (Legal.draws st1)
                        (Legal.trace st1 ++ [Legal.Fetch a; Legal.LogError source e]))).
Proof.
  pose proof (scrape_via_web_unfold w self source params st) as Hweb. simpl in Hweb.
  set (st0 := Legal.mkState (Legal.robots_cache st) (Legal.draws st)
                            (Legal.trace st ++ [Legal.ViaWeb source])) in *.
  split; [|split].
  - intros (source_config & Hin).
    destruct (get_source_of_entry _ _ _ Hin) as [found Hfound].
    rewrite Hfound in Hweb.
    destruct (check_robots_txt_fetches w self (Legal.base_url found)
                (Legal.search_endpoint found) st0) as (allowed & st1 & Hcheck & _).
    rewrite Hcheck in Hweb. rewrite Hweb.
    destruct allowed; [|eexists _, _; reflexivity].
    unfold Legal.try_except.
    repeat (destruct (String.eqb source _);
            [run_monad; destruct (Legal.site w _ params);
             eexists _, _; reflexivity|]).
    eexists _, _. reflexivity.
  - intros Hmissing. rewrite Hmissing in Hweb. exact Hweb.
  - intros a e source_config st1 Hadapter Hsource Hallowed Hraise.
    rewrite Hsource in Hweb. fold st0 in Hallowed. rewrite Hallowed in Hweb.
    rewrite Hweb. unfold Legal.try_except.
    destruct Hadapter as [Heq|[Heq|[Heq|[]]]]; inversion Heq; subst; simpl;
      run_monad; rewrite Hraise; simpl; rewrite <- app_assoc; reflexivity.
Qed.

Lemma scrape_via_web_contains_errors_witness :
  (∃ jobs st', Legal.scrape_via_web Sample.failing_api Sample.careless_scraper "dice"
                 Legal.default_params Legal.initial_state = (Ok jobs, st'))
  ∧ Legal.scrape_via_web Sample.failing_api Sample.careless_scraper "dice"
      Legal.default_params Legal.initial_state
    = (Ok [], Legal.mkState ∅ 0 ([Legal.ViaWeb "dice"]
                                  ++ [Legal.Fetch Legal.scrape_dice_web;
                                      Legal.LogError "dice" "TimeoutError"])).
Proof.
  pose proof (scrape_via_web_contains_errors Sample.failing_api Sample.careless_scraper
                "dice" Legal.default_params Legal.initial_state) as (Hreturns & _ & Herror).
  split.
  - apply Hreturns. eexists. do 5 right. left. reflexivity.
  - apply (Herror Legal.scrape_dice_web "TimeoutError"
             (Legal.mkSource "https://www.dice.com" "/jobs" false None None 2.5
                "SCRAPING_ALLOWED")
             (Legal.mkState ∅ 0 [Legal.ViaWeb "dice"])).
    + right. left. reflexivity.
    + reflexivity.
    + reflexivity.
    + reflexivity.
Defined.

Lemma not_adapter_name (name : string) :
  ¬ In name Legal.adapter_names →
  String.eqb name "github_jobs" = false ∧ String.eqb name "remoteok" = false
  ∧ String.eqb name "stackoverflow_jobs" = false ∧ String.eqb name "monster" = false
  ∧ String.eqb name "dice" = false ∧ String.eqb name "weworkremotely" = false.
Proof.
  intros Hnot. unfold Legal.adapter_names in Hnot.
  repeat split; apply String.eqb_neq; intros ->; apply Hnot; simpl; tauto.
Qed.

Lemma scrape_via_api_without_adapter (w : Legal.World) (self : Legal.Scraper)
    (name : string) (params : Legal.Params) (st : Legal.State) :
  ¬ In name Legal.adapter_names →
  Legal.contribution
    (fst (Legal.bind (Legal.scrape_via_api w self name params)
                     (fun jobs => Legal.ret (Some jobs)) st)) = []
  ∧ Legal.fetches (Legal.trace (snd (Legal.scrape_via_api w self name params st)))
    = Legal.fetches (Legal.trace st).
Proof.
  intros Hnot. destruct (not_adapter_name name Hnot) as (H1 & H2 & H3 & _).
  unfold Legal.scrape_via_api. run_monad. rewrite H1, H2, H3.
  destruct (Legal.get_source (Legal.job_sources self) name); simpl;
    split; try reflexivity; close_fetches.
Qed.

Lemma scrape_via_web_without_adapter (w : Legal.World) (self : Legal.Scraper)
    (name : string) (params : Legal.Params) (st : Legal.State) :
  ¬ In name Legal.adapter_names →
  Legal.contribution
    (fst (Legal.bind (Legal.scrape_via_web w self name params)
                     (fun jobs => Legal.ret (Some jobs)) st)) = []
  ∧ Legal.fetches (Legal.trace (snd (Legal.scrape_via_web w self name params st)))
    = Legal.fetches (Legal.trace st).
Proof.
  intros Hnot. destruct (not_adapter_name name Hnot) as (_ & _ & _ & H4 & H5 & H6).
  unfold Legal.bind at 1.
  pose proof (scrape_via_web_unfold w self name params st) as Hweb. simpl in Hweb.
  rewrite Hweb. clear Hweb. rewrite H4, H5, H6.
  destruct (Legal.get_source (Legal.job_sources self) name) as [source_config|];
    [|split; [reflexivity | close_fetches]].
  match goal with |- context [Legal.check_robots_txt w self ?b ?e ?s] =>
    destruct (check_robots_txt_fetches w self b e s) as (allowed & st1 & Hcheck & Hfetches)
  end.
  rewrite Hcheck. simpl in Hfetches. rewrite fetches_app in Hfetches. simpl in Hfetches.
  rewrite app_nil_r in Hfetches.
  destruct allowed; simpl; (split; [reflexivity|]); close_fetches; exact Hfetches.
Qed.

(** X22. A source for which no per-site scraper exists never contributes
    a listing and never causes a page fetch, whatever its legal status, the
    environment and the network: such are indeed, naukri, glassdoor and
    linkedin in the built-in [job_sources]. *)
Theorem source_without_adapter_is_empty (w : Legal.World) (self : Legal.Scraper)
    (params : Legal.Params) (name : string) (source_config : Legal.SourceConfig)
    (st : Legal.State) :
  ¬ In name Legal.adapter_names →
  let run := Legal.select_and_scrape w self params name source_config st in
  Legal.contribution (fst run) = []
  ∧ Legal.fetches (Legal.trace (snd run)) = Legal.fetches (Legal.trace st).
Proof.
  intros Hnot run. subst run.
  unfold Legal.select_and_scrape, Legal.scrape_via_api_with_fallback.
  pose proof (scrape_via_api_without_adapter w self name params st Hnot) as [Hapi1 Hapi2].
  pose proof (scrape_via_web_without_adapter w self name params st Hnot) as [Hweb1 Hweb2].
  destruct (String.eqb (Legal.legal_status source_config) "API_AVAILABLE");
    [rewrite bind_ret_snd; split; assumption|].
  destruct (String.eqb (Legal.legal_status source_config) "API_PREFERRED").
  { destruct (Legal.env_truthy w _); rewrite bind_ret_snd; split; assumption. }
  destruct (String.eqb (Legal.legal_status source_config) "SCRAPING_ALLOWED");
    [rewrite bind_ret_snd; split; assumption|].
  destruct (String.eqb (Legal.legal_status source_config) "API_ONLY"); split; reflexivity.
Qed.

Lemma source_without_adapter_is_empty_witness :
  let run := Legal.select_and_scrape Sample.with_indeed_key Sample.scraper
               Legal.default_params "indeed" Sample.indeed Legal.initial_state in
  Legal.contribution (fst run) = []
  ∧ Legal.fetches (Legal.trace (snd run)) = Legal.fetches (Legal.trace Legal.initial_state).
Proof.
  apply (source_without_adapter_is_empty Sample.with_indeed_key Sample.scraper
           Legal.default_params "indeed" Sample.indeed Legal.initial_state).
  unfold Legal.adapter_names. simpl. intros H.
  repeat (destruct H as [H|H]; [discriminate|]). exact H.
Defined.

(** * What the configuration controls *)

Section ConfigurationIgnored.

Variable w : Legal.World.
Variables c1 c2 : Legal.ScrapingConfig.
Variable sources : list (string * Legal.SourceConfig).
Hypothesis same_switch : Legal.respect_robots c1 = Legal.respect_robots c2.

Let self1 := Legal.mkScraper c1 sources.
Let self2 := Legal.mkScraper c2 sources.

Lemma check_robots_txt_same_switch (base_url endpoint : string) :
  Legal.check_robots_txt w self1 base_url endpoint
  = Legal.check_robots_txt w self2 base_url endpoint.
Proof.
  unfold Legal.check_robots_txt. subst self1 self2. simpl. rewrite same_switch. reflexivity.
Qed.

Lemma scrape_via_web_same_switch (name : string) (params : Legal.Params) (st : Legal.State) :
  Legal.scrape_via_web w self1 name params st = Legal.scrape_via_web w self2 name params st.
Proof.
  pose proof (scrape_via_web_unfold w self1 name params st) as H1.
  pose proof (scrape_via_web_unfold w self2 name params st) as H2.
  simpl in H1, H2. rewrite H1, H2.
  destruct (Legal.get_source sources name) as [source_config|]; [|reflexivity].
  rewrite check_robots_txt_same_switch. reflexivity.
Qed.

Lemma select_and_scrape_same_switch (params : Legal.Params) (name : string)
    (source_config : Legal.SourceConfig) (st : Legal.State) :
  Legal.select_and_scrape w self1 params name source_config st
  = Legal.select_and_scrape w self2 params name source_config st.
Proof.
  unfold Legal.select_and_scrape, Legal.scrape_via_api_with_fallback.
  destruct (String.eqb (Legal.legal_status source_config) "API_AVAILABLE"); [reflexivity|].
  destruct (String.eqb (Legal.legal_status source_config) "API_PREFERRED").
  { destruct (Legal.env_truthy w _); [reflexivity|].
    unfold Legal.bind. rewrite scrape_via_web_same_switch. reflexivity. }
  destruct (String.eqb (Legal.legal_status source_config) "SCRAPING_ALLOWED");
    [|reflexivity].
  unfold Legal.bind. rewrite scrape_via_web_same_switch. reflexivity.
Qed.

Lemma process_source_same_switch (params : Legal.Params) (all_jobs : list Legal.JobListing)
    (entry : string * Legal.SourceConfig) (st : Legal.State) :
  In entry sources →
  Legal.process_source w self1 params all_jobs entry st
  = Legal.process_source w self2 params all_jobs entry st.
Proof.
  intros Hin. destruct entry as [name source_config].
  destruct (get_source_of_entry _ _ _ Hin) as [found Hfound].
  rewrite !process_source_cases, select_and_scrape_same_switch.
  destruct (Legal.select_and_scrape w self2 params name source_config st)
    as [[[jobs|]|e] st1]; try reflexivity.
  unfold Legal.respectful_delay, Legal.min_delay_of. subst self1 self2. simpl.
  rewrite Hfound. reflexivity.
Qed.

Lemma process_sources_same_switch (params : Legal.Params)
    (entries : list (string * Legal.SourceConfig)) :
  (∀ entry, In entry entries → In entry sources) →
  ∀ all_jobs st,
    Legal.process_sources w self1 params all_jobs entries st
    = Legal.process_sources w self2 params all_jobs entries st.
Proof.
  induction entries as [|entry entries IH]; intros Hsub all_jobs st; simpl; [reflexivity|].
  unfold Legal.bind.
  rewrite (process_source_same_switch params all_jobs entry st)
    by (apply Hsub; left; reflexivity).
  destruct (Legal.process_source w self2 params all_jobs entry st) as [[all_jobs'|e] st'];
    [|reflexivity].
  apply IH. intros other Hin. apply Hsub. right. exact Hin.
Qed.

End ConfigurationIgnored.

(** X23. For a given behaviour of the network and of the per-site
    scrapers, a comprehensive run depends on the [ScrapingConfig] only through
    [respect_robots]: two scrapers with the same [job_sources] whose
    configurations agree on that switch return the same listings and leave
    the same state. In particular [delay_min] and [delay_max] change no wait
    during a run, and [retry_attempts] causes no retry. *)
Theorem run_ignores_configuration (w : Legal.World) (c1 c2 : Legal.ScrapingConfig)
    (sources : list (string * Legal.SourceConfig)) (search_params : option Legal.Params)
    (st : Legal.State) :
  Legal.respect_robots c1 = Legal.respect_robots c2 →
  Legal.scrape_jobs_comprehensive w (Legal.mkScraper c1 sources) search_params st
  = Legal.scrape_jobs_comprehensive w (Legal.mkScraper c2 sources) search_params st.
Proof.
  intros Hswitch. unfold Legal.scrape_jobs_comprehensive, Legal.bind. simpl.
  rewrite (process_sources_same_switch w c1 c2 sources Hswitch _ sources (fun _ H => H)).
  reflexivity.
Qed.

Lemma run_ignores_configuration_witness :
  Legal.scrape_jobs_comprehensive Sample.guarded Sample.scraper None Legal.initial_state
  = Legal.scrape_jobs_comprehensive Sample.guarded Sample.patient_scraper None
      Legal.initial_state.
Proof.
  apply (run_ignores_configuration Sample.guarded Legal.default_config
           (Legal.mkScrapingConfig 5 8 5 30 3 true true) Legal.default_job_sources None
           Legal.initial_state).
  reflexivity.
Defined.

(** * Further properties of the requirement tags *)

Lemma prefix_app_l (a b s : string) :
  String.prefix (a ++ b) s = true → String.prefix a s = true.
Proof.
  revert s. induction a as [|c r IH]; intros s; [destruct s; reflexivity|].
  change (String c r ++ b)%string with (String c (r ++ b)).
  destruct s as [|c' s]; simpl; [discriminate|].
  destruct (ascii_dec c c'); [apply IH | discriminate].
Qed.

Lemma contains_app_l (a b s : string) :
  Py.contains (a ++ b) s = true → Py.contains a s = true.
Proof.
  induction s as [|c s IH].
  - rewrite (contains_unfold (a ++ b) ""), (contains_unfold a "").
    rewrite !orb_false_r. apply prefix_app_l.
  - rewrite (contains_unfold (a ++ b) (String c s)), (contains_unfold a (String c s)).
    intros Hin. apply orb_true_iff in Hin as [Hprefix|Hrest].
    + rewrite (prefix_app_l _ _ _ Hprefix). reflexivity.
    + rewrite (IH Hrest). apply orb_true_r.
Qed.

Lemma in_firstn {A} (n : nat) :
  ∀ (l : list A) (x : A), In x (firstn n l) → In x l.
Proof.
  induction n as [|n IH]; intros [|y l] x Hin; simpl in Hin; try contradiction.
  destruct Hin as [Heq|Hin]; [left; exact Heq | right; exact (IH l x Hin)].
Qed.

Lemma vocabularies_NoDup :
  List.NoDup (map Py.title Legal.tech_skills)
  ∧ List.NoDup (map Py.title Advanced.skills_database).
Proof.
  split; apply NoDup_ListNoDup.
  - refine (bool_decide_unpack (NoDup (map Py.title Legal.tech_skills)) _).
    vm_compute. exact I.
  - refine (bool_decide_unpack (NoDup (map Py.title Advanced.skills_database)) _).
    vm_compute. exact I.
Qed.

Lemma javascript_tag_only_from_javascript (text_lower : string) :
  In "Javascript"
     (map Py.title (List.filter (fun skill => Py.contains skill text_lower) Legal.tech_skills)) →
  Py.contains "javascript" text_lower = true.
Proof.
  intros Hin. apply in_map_iff in Hin as (skill & Htitle & Hskill).
  apply filter_In in Hskill as [Hvocabulary Hoccurs].
  unfold Legal.tech_skills in Hvocabulary. simpl in Hvocabulary.
  repeat (destruct Hvocabulary as [<-|Hvocabulary];
          [first [exact Hoccurs | vm_compute in Htitle; discriminate]|]).
  contradiction.
Qed.

(** X24. The requirement tags of a description hold no tag twice; they
    are the same for a description that is ASCII text and for its upper-cased
    form; an empty description has no tags; and, the match being by
    substring, a description tagged Javascript is always tagged Java as
    well. *)
Theorem extract_requirements_tags (text : string) :
  List.NoDup (Legal.extract_requirements text)
  ∧ List.NoDup (Advanced.extract_skills_from_text text)
  ∧ (Py.isascii text = true →
     Legal.extract_requirements (Py.upper text) = Legal.extract_requirements text
     ∧ Advanced.extract_skills_from_text (Py.upper text)
       = Advanced.extract_skills_from_text text)
  ∧ Legal.extract_requirements "" = []
  ∧ (In "Javascript" (Legal.extract_requirements text) →
     In "Java" (Legal.extract_requirements text)).
Proof.
  destruct vocabularies_NoDup as [Hlegal Hadvanced].
  split; [|split; [|split; [|split]]].
  - apply NoDup_ListNoDup. apply NoDup_ListNoDup in Hlegal.
    eapply sublist_NoDup; [exact Hlegal | apply tags_in_vocabulary_order].
  - apply NoDup_ListNoDup. apply NoDup_ListNoDup in Hadvanced.
    eapply sublist_NoDup; [exact Hadvanced | apply tags_in_vocabulary_order].
  - intros Hascii.
    unfold Legal.extract_requirements, Advanced.extract_skills_from_text.
    rewrite (lower_upper _ Hascii). split; reflexivity.
  - reflexivity.
  - unfold Legal.extract_requirements, Py.slice_to. rewrite scan_filter.
    intros Hin.
    assert (Hjs : Py.contains "javascript" (Py.lower text) = true).
    { apply javascript_tag_only_from_javascript.
      exact (in_firstn 10 _ _ Hin). }
    assert (Hjava : Py.contains "java" (Py.lower text) = true)
      by (apply (contains_app_l "java" "script"); exact Hjs).
    assert (Hsplit : Legal.tech_skills
                     = "python" :: "javascript" :: "java" :: skipn 3 Legal.tech_skills)
      by reflexivity.
    rewrite Hsplit. generalize (skipn 3 Legal.tech_skills). intros others.
    cbn [List.filter]. rewrite Hjs, Hjava.
    destruct (Py.contains "python" (Py.lower text)); cbn [map firstn].
    + right; right; left; reflexivity.
    + right; left; reflexivity.
Qed.

(** * The RemoteOK filter *)

Lemma contains_empty_text (sub : string) : Py.contains sub "" = String.eqb sub "".
Proof. destruct sub; reflexivity. Qed.

(** X25. The search filter accepts every item when keywords and location
    are empty; keywords and a location that are ASCII text match the same
    items as their upper-cased forms; an item whose location mentions remote
    passes the location test for every requested location; and an item
    without a location entry is rejected as soon as a location is
    requested. *)
Theorem matches_search_criteria_properties (job_data : Legal.RawJob) (params : Legal.Params) :
  (Py.isascii (Legal.keywords params) = true →
   Py.isascii (Legal.p_location params) = true →
   Legal.matches_search_criteria job_data
     (Legal.mkParams (Py.upper (Legal.keywords params)) (Py.upper (Legal.p_location params))
                     (Legal.p_experience_level params) (Legal.p_job_type params))
   = Legal.matches_search_criteria job_data params)
  ∧ (Legal.keywords params = "" → Legal.p_location params = "" →
     Legal.matches_search_criteria job_data params = true)
  ∧ (Py.contains "remote" (Py.lower (Legal.raw_get job_data "location" "")) = true →
     Legal.matches_search_criteria job_data params
     = Legal.matches_search_criteria job_data
         (Legal.mkParams (Legal.keywords params) "" (Legal.p_experience_level params)
                         (Legal.p_job_type params)))
  ∧ (Legal.fields job_data !! "location" = None →
     Py.lower (Legal.p_location params) ≠ "" →
     Legal.matches_search_criteria job_data params = false).
Proof.
  unfold Legal.matches_search_criteria. cbn [Legal.keywords Legal.p_location].
  split; [|split; [|split]].
  - intros Hkeywords Hlocation.
    rewrite (lower_upper _ Hkeywords), (lower_upper _ Hlocation). reflexivity.
  - intros -> ->. reflexivity.
  - intros ->. rewrite !orb_true_r. reflexivity.
  - intros Hmissing Hrequested.
    assert (Hlocation : Legal.raw_get job_data "location" "" = "")
      by (unfold Legal.raw_get; rewrite Hmissing; reflexivity).
    rewrite Hlocation. change (Py.lower "") with "".
    rewrite contains_empty_text.
    apply String.eqb_neq in Hrequested. rewrite Hrequested.
    change (Py.contains "remote" "") with false. apply andb_false_r.
Qed.



(** * The summary by source *)

Lemma count_by_source_from (jobs : list Legal.JobListing) :
  ∀ (sources : gmap string nat) (name : string),
    default 0
      (fold_left
         (fun sources job =>
            <[Legal.source job := default 0 (sources !! Legal.source job) + 1]> sources)
         jobs sources !! name)
    = default 0 (sources !! name)
      + length (List.filter (fun job => String.eqb (Legal.source job) name) jobs).
Proof.
  induction jobs as [|job jobs IH]; intros sources name; simpl; [lia|].
  rewrite IH.
  destruct (String.eqb_spec (Legal.source job) name) as [->|Hne]; simpl.
  - rewrite lookup_insert_eq. simpl. lia.
  - rewrite lookup_insert_ne by exact Hne. reflexivity.
Qed.

(** X27. The summary that [main] prints counts, for every source name,
    exactly the jobs that carry it; a source has an entry in the summary if
    and only if at least one job carries it. *)
Theorem count_by_source_counts (jobs : list Legal.JobListing) (name : string) :
  default 0 (Legal.count_by_source jobs !! name)
  = length (List.filter (fun job => String.eqb (Legal.source job) name) jobs)
  ∧ (is_Some (Legal.count_by_source jobs !! name)
     ↔ ∃ job, In job jobs ∧ Legal.source job = name).
Proof.
  assert (Hcount : default 0 (Legal.count_by_source jobs !! name)
                   = length (List.filter (fun job => String.eqb (Legal.source job) name) jobs)).
  { unfold Legal.count_by_source. rewrite count_by_source_from, lookup_empty. reflexivity. }
  split; [exact Hcount|].
  assert (Hpositive : ∀ (l : list Legal.JobListing) (sources : gmap string nat),
            (∀ key n, sources !! key = Some n → 0 < n) →
            ∀ key n,
              fold_left
                (fun sources job =>
                   <[Legal.source job := default 0 (sources !! Legal.source job) + 1]> sources)
                l sources !! key = Some n → 0 < n).
  { induction l as [|job l IH]; intros sources Hsources key n; simpl; [apply Hsources|].
    apply IH. intros key' n' Hlookup.
    destruct (decide (Legal.source job = key')) as [Heq|Hne].
    - subst key'. rewrite lookup_insert_eq in Hlookup. inversion Hlookup. lia.
    - rewrite lookup_insert_ne in Hlookup by exact Hne. exact (Hsources _ _ Hlookup). }
  split.
  - intros [n Hn].
    assert (0 < n).
    { apply (Hpositive jobs ∅ (fun key m H => ltac:(rewrite lookup_empty in H; discriminate))
               name n Hn). }
    rewrite Hn in Hcount. simpl in Hcount.
    destruct (List.filter (fun job => String.eqb (Legal.source job) name) jobs)
      as [|job kept] eqn:Hfilter; [simpl in Hcount; lia|].
    assert (Hin : In job (List.filter (fun job => String.eqb (Legal.source job) name) jobs))
      by (rewrite Hfilter; left; reflexivity).
    apply filter_In in Hin as [Hin Hsource]. exists job. split; [exact Hin|].
    apply String.eqb_eq. exact Hsource.
  - intros (job & Hin & Hsource).
    assert (Hmember : In job (List.filter (fun job => String.eqb (Legal.source job) name) jobs)).
    { apply filter_In. split; [exact Hin | apply String.eqb_eq; exact Hsource]. }
    destruct (Legal.count_by_source jobs !! name) as [n|] eqn:Hlookup; [eexists; reflexivity|].
    simpl in Hcount.
    destruct (List.filter (fun job => String.eqb (Legal.source job) name) jobs);
      [contradiction | simpl in Hcount; lia].
Qed.

(** * The composite key *)

Lemma string_app_assoc (a b c : string) : ((a ++ b) ++ c = a ++ (b ++ c))%string.
Proof.
  induction a as [|x a IH]; [reflexivity|].
  change (String x ((a ++ b) ++ c) = String x (a ++ (b ++ c))). rewrite IH. reflexivity.
Qed.

(** X28. The composite key does not keep its three fields apart: moving a
    piece of the title across the underscore into the company leaves the key
    unchanged, and so does upper-casing a title and a company that are ASCII
    text; exact duplicate removal then keeps only the first of two such
    listings. *)
Theorem identifier_collisions (a b : Legal.JobListing) (head_ moved : string) :
  Legal.location a = Legal.location b →
  (Legal.title a = (head_ ++ "_" ++ moved)%string ∧ Legal.title b = head_
   ∧ Legal.company b = (moved ++ "_" ++ Legal.company a)%string)
  ∨ (Py.isascii (Legal.title a) = true ∧ Py.isascii (Legal.company a) = true
     ∧ Legal.title b = Py.upper (Legal.title a)
     ∧ Legal.company b = Py.upper (Legal.company a)) →
  Legal.identifier a = Legal.identifier b
  ∧ Legal.remove_duplicates [a; b] = [a].
Proof.
  intros Hlocation Hcase.
  assert (Hkey : Legal.identifier a = Legal.identifier b).
  { unfold Legal.identifier. rewrite <- Hlocation.
    destruct Hcase as [(Ha & Hb & Hc)|(Htitle & Hcompany & Ht & Hc)].
    - rewrite Ha, Hb, Hc, !lower_app.
      change (Py.lower "_") with "_".
      rewrite !string_app_assoc. reflexivity.
    - rewrite Ht, Hc, (lower_upper _ Htitle), (lower_upper _ Hcompany). reflexivity. }
  split; [exact Hkey|].
  unfold Legal.remove_duplicates. cbn [Legal.remove_duplicates_from].
  rewrite bool_decide_eq_true_2 by set_solver.
  rewrite <- Hkey. rewrite bool_decide_eq_false_2 by set_solver. reflexivity.
Qed.

Lemma identifier_collisions_witness :
  Legal.identifier Sample.backend_at_acme = Legal.identifier Sample.backend_at_python_acme
  ∧ Legal.remove_duplicates [Sample.backend_at_acme; Sample.backend_at_python_acme]
    = [Sample.backend_at_acme].
Proof.
  apply (identifier_collisions Sample.backend_at_acme Sample.backend_at_python_acme
           "Backend" "Python").
  - reflexivity.
  - left. repeat split.
Defined.

Lemma remove_duplicates_advanced_covers_witness :
  In Sample.job_b (Advanced.remove_duplicates_advanced [Sample.job_a; Sample.job_b])
  ∨ ∃ kept, In kept (Advanced.remove_duplicates_advanced [Sample.job_a; Sample.job_b])
            ∧ Advanced.similar (Advanced.identifier Sample.job_b)
                               (Advanced.identifier kept) = true.
Proof.
  apply (proj1 (remove_duplicates_advanced_covers [Sample.job_a; Sample.job_b])).
  right. left. reflexivity.
Defined.

Lemma remove_duplicates_output_witness :
  In (Legal.identifier Sample.backend_at_python_acme)
     (map Legal.identifier
          (Legal.remove_duplicates [Sample.backend_at_acme; Sample.backend_at_python_acme])).
Proof.
  apply (proj2 (proj2 (remove_duplicates_output
                         [Sample.backend_at_acme; Sample.backend_at_python_acme]))).
  right. left. reflexivity.
Defined.

Lemma extract_requirements_tags_witness :
  (Legal.extract_requirements (Py.upper "We build it in JavaScript")
   = Legal.extract_requirements "We build it in JavaScript"
   ∧ Advanced.extract_skills_from_text (Py.upper "We build it in JavaScript")
     = Advanced.extract_skills_from_text "We build it in JavaScript")
  ∧ In "Java" (Legal.extract_requirements "We build it in JavaScript").
Proof.
  pose proof (extract_requirements_tags "We build it in JavaScript")
    as (_ & _ & Hcase & _ & Hjava).
  split.
  - apply Hcase. reflexivity.
  - apply Hjava. vm_compute. tauto.
Defined.

Lemma matches_search_criteria_properties_witness :
  Legal.matches_search_criteria Sample.remote_item
    (Legal.mkParams (Py.upper (Legal.keywords Sample.berlin_search))
       (Py.upper (Legal.p_location Sample.berlin_search))
       (Legal.p_experience_level Sample.berlin_search)
       (Legal.p_job_type Sample.berlin_search))
  = Legal.matches_search_criteria Sample.remote_item Sample.berlin_search
  ∧ Legal.matches_search_criteria Sample.remote_item Sample.berlin_search
    = Legal.matches_search_criteria Sample.remote_item
        (Legal.mkParams "rust" "" "mid" "full-time").
Proof.
  pose proof (matches_search_criteria_properties Sample.remote_item Sample.berlin_search)
    as (Hcase & _ & Hremote & _).
  split.
  - apply Hcase; reflexivity.
  - apply Hremote. reflexivity.
Defined.

(** * The waits of a run *)

Lemma sleeps_app (l1 l2 : list Legal.Event) :
  Legal.sleeps (l1 ++ l2) = Legal.sleeps l1 + Legal.sleeps l2.
Proof. unfold Legal.sleeps. rewrite List.filter_app, length_app. reflexivity. Qed.

Ltac close_sleeps :=
  simpl; rewrite ?sleeps_app; simpl; unfold Legal.sleeps; simpl; split; [lia | reflexivity].

Lemma check_robots_txt_sleeps (w : Legal.World) (self : Legal.Scraper)
    (base_url endpoint : string) (st : Legal.State) :
  ∃ allowed st',
    Legal.check_robots_txt w self base_url endpoint st = (Ok allowed, st')
    ∧ Legal.sleeps (Legal.trace st') = Legal.sleeps (Legal.trace st)
    ∧ Legal.draws st' = Legal.draws st.
Proof.
  unfold Legal.check_robots_txt.
  destruct (Legal.respect_robots (Legal.config self)); simpl;
    [|eexists _, _; repeat split; reflexivity].
  unfold Legal.bind at 1, Legal.cached_robots.
  destruct (Legal.robots_cache st !! base_url) as [rp|].
  - run_monad.
    destruct (Legal.can_fetch rp "*" (Legal.urljoin w base_url endpoint));
      run_monad; eexists _, _; (split; [reflexivity|]); close_sleeps.
  - destruct (Legal.robots_read w (Legal.urljoin w base_url "/robots.txt")) as [rp|].
    + unfold Legal.cache_robots. run_monad.
      destruct (Legal.can_fetch rp "*" (Legal.urljoin w base_url endpoint));
        run_monad; eexists _, _; (split; [reflexivity|]); close_sleeps.
    + run_monad. eexists _, _. split; [reflexivity|]. close_sleeps.
Qed.

Lemma scrape_via_api_sleeps (w : Legal.World) (self : Legal.Scraper) (source : string)
    (params : Legal.Params) (st : Legal.State) :
  let st' := snd (Legal.scrape_via_api w self source params st) in
  Legal.sleeps (Legal.trace st') = Legal.sleeps (Legal.trace st)
  ∧ Legal.draws st' = Legal.draws st.
Proof.
  unfold Legal.scrape_via_api. run_monad.
  destruct (Legal.get_source (Legal.job_sources self) source); simpl; [|close_sleeps].
  repeat (destruct (String.eqb source _); simpl; [run_monad; close_sleeps|]).
  close_sleeps.
Qed.

Lemma scrape_via_web_sleeps (w : Legal.World) (self : Legal.Scraper) (source : string)
    (params : Legal.Params) (st : Legal.State) :
  let st' := snd (Legal.scrape_via_web w self source params st) in
  Legal.sleeps (Legal.trace st') = Legal.sleeps (Legal.trace st)
  ∧ Legal.draws st' = Legal.draws st.
Proof.
  pose proof (scrape_via_web_unfold w self source params st) as Hweb. simpl in Hweb.
  cbn zeta. rewrite Hweb. clear Hweb.
  destruct (Legal.get_source (Legal.job_sources self) source) as [source_config|];
    [|close_sleeps].
  match goal with |- context [Legal.check_robots_txt w self ?b ?e ?s] =>
    destruct (check_robots_txt_sleeps w self b e s) as (allowed & st1 & Hcheck & Hs & Hd)
  end.
  rewrite Hcheck. simpl in Hs, Hd. rewrite sleeps_app in Hs. simpl in Hs.
  change (Legal.sleeps [Legal.ViaWeb source]) with 0 in Hs.
  destruct allowed.
  - unfold Legal.try_except.
    repeat (destruct (String.eqb source _);
            [run_monad; destruct (Legal.site w _ params); simpl;
             rewrite ?sleeps_app; unfold Legal.sleeps in *; simpl; split; lia|]).
    simpl. split; lia.
  - simpl. rewrite sleeps_app. unfold Legal.sleeps in *. simpl. split; lia.
Qed.

Lemma select_and_scrape_sleeps (w : Legal.World) (self : Legal.Scraper)
    (params : Legal.Params) (name : string) (source_config : Legal.SourceConfig)
    (st : Legal.State) :
  let st' := snd (Legal.select_and_scrape w self params name source_config st) in
  Legal.sleeps (Legal.trace st') = Legal.sleeps (Legal.trace st)
  ∧ Legal.draws st' = Legal.draws st.
Proof.
  unfold Legal.select_and_scrape, Legal.scrape_via_api_with_fallback.
  destruct (String.eqb (Legal.legal_status source_config) "API_AVAILABLE");
    [rewrite bind_ret_snd; apply scrape_via_api_sleeps|].
  destruct (String.eqb (Legal.legal_status source_config) "API_PREFERRED").
  { destruct (Legal.env_truthy w _); rewrite bind_ret_snd;
      [apply scrape_via_api_sleeps | apply scrape_via_web_sleeps]. }
  destruct (String.eqb (Legal.legal_status source_config) "SCRAPING_ALLOWED");
    [rewrite bind_ret_snd; apply scrape_via_web_sleeps|].
  destruct (String.eqb (Legal.legal_status source_config) "API_ONLY");
    simpl; split; reflexivity.
Qed.

Lemma process_sources_sleeps (w : Legal.World) (self : Legal.Scraper)
    (params : Legal.Params) (entries : list (string * Legal.SourceConfig)) :
  ∀ all_jobs st,
    let st' := snd (Legal.process_sources w self params all_jobs entries st) in
    let waits := length (List.filter Legal.returned (Legal.outcomes w self params entries st)) in
    Legal.sleeps (Legal.trace st') = Legal.sleeps (Legal.trace st) + waits
    ∧ Legal.draws st' = Legal.draws st + waits.
Proof.
  induction entries as [|[name source_config] entries IH]; intros all_jobs st;
    [simpl; split; lia|].
  cbn [Legal.process_sources Legal.outcomes fst snd].
  unfold Legal.bind. rewrite process_source_returns. cbn [fst snd].
  destruct (IH (all_jobs
                ++ Legal.contribution
                     (fst (Legal.select_and_scrape w self params name source_config st)))
               (snd (Legal.process_source w self params [] (name, source_config) st)))
    as [Hs Hd].
  cbn zeta in *. rewrite Hs, Hd. clear Hs Hd IH.
  assert (Hcons : ∀ outcome rest,
            length (List.filter Legal.returned (outcome :: rest))
            = (if Legal.returned outcome then 1 else 0)
              + length (List.filter Legal.returned rest))
    by (intros outcome rest; simpl; destruct (Legal.returned outcome); reflexivity).
  rewrite Hcons. clear Hcons.
  generalize (length (List.filter Legal.returned
                        (Legal.outcomes w self params entries
                           (snd (Legal.process_source w self params []
                                   (name, source_config) st))))).
  intros later_waits.
  rewrite process_source_cases.
  pose proof (select_and_scrape_sleeps w self params name source_config st) as [Hs Hd].
  cbn zeta in Hs, Hd. unfold Legal.returned. cbn [snd].
  destruct (Legal.select_and_scrape w self params name source_config st)
    as [[[jobs|]|e] st1]; cbn [fst snd] in *.
  - unfold Legal.respectful_delay, Legal.bind, Legal.uniform, Legal.emit. simpl.
    rewrite sleeps_app. change (Legal.sleeps [Legal.Sleep _]) with 1. split; lia.
  - split; lia.
  - simpl. rewrite sleeps_app. change (Legal.sleeps [Legal.LogError name e]) with 0.
    split; lia.
Qed.

(** X29. A comprehensive run waits exactly once after every source whose
    strategy returned, the last one included, and never after a source that
    was skipped or whose strategy raised; each wait consumes one random
    draw. *)
Theorem run_waits_once_per_returned_source (w : Legal.World) (self : Legal.Scraper)
    (search_params : option Legal.Params) (st : Legal.State) :
  let params := default Legal.default_params search_params in
  let st' := snd (Legal.scrape_jobs_comprehensive w self search_params st) in
  let waits :=
    length (List.filter Legal.returned
                        (Legal.outcomes w self params (Legal.job_sources self) st)) in
  Legal.sleeps (Legal.trace st') = Legal.sleeps (Legal.trace st) + waits
  ∧ Legal.draws st' = Legal.draws st + waits
  ∧ waits ≤ length (Legal.job_sources self).
Proof.
  intros params st' waits. subst st'. unfold Legal.scrape_jobs_comprehensive.
  rewrite bind_ret_snd. fold params.
  destruct (process_sources_sleeps w self params (Legal.job_sources self) [] st) as [Hs Hd].
  split; [exact Hs|]. split; [exact Hd|].
  subst waits.
  pose proof (filter_length_le Legal.returned
                (Legal.outcomes w self params (Legal.job_sources self) st)) as Hle.
  rewrite <- (length_map fst
                (Legal.outcomes w self params (Legal.job_sources self) st)) in Hle.
  rewrite outcomes_names, length_map in Hle. exact Hle.
Qed.

(** * The comprehensive run at run time *)

Ltac run_runtime :=
  unfold Runtime.bind, Runtime.try_except, Runtime.lift, Runtime.finish, Runtime.ret,
    Runtime.call_site, Legal.emit, Legal.source_config_of, Legal.ret, Legal.raise; simpl.

Lemma runtime_scrape_via_api_outcome (w : Runtime.World) (self : Legal.Scraper)
    (source : string) (params : Legal.Params) (st : Legal.State) :
  let run := Runtime.scrape_via_api w self source params st in
  Legal.strategies (Legal.trace (snd run))
  = Legal.strategies (Legal.trace st) ++ [Legal.ViaApi source]
  ∧ match fst run with
    | Runtime.Returned jobs =>
        jobs = [] ∨ ∃ a, Runtime.site w a params = Runtime.Returned jobs
    | Runtime.Raised _ => True
    | Runtime.Escaped e => ∃ a, Runtime.site w a params = Runtime.Escaped e
    end.
Proof.
  unfold Runtime.scrape_via_api. run_runtime.
  destruct (Legal.get_source (Legal.job_sources self) source); simpl;
    [|split; [close_strategies | exact I]].
  repeat (destruct (String.eqb source _); simpl;
          [run_runtime; destruct (Runtime.site w _ params) eqn:Hsite; simpl;
           (split; [close_strategies | eauto])|]).
  split; [close_strategies | left; reflexivity].
Qed.

Lemma runtime_scrape_via_web_unfold (w : Runtime.World) (self : Legal.Scraper)
    (source : string) (params : Legal.Params) (st : Legal.State) :
  let st0 := Legal.mkState (Legal.robots_cache st) (Legal.draws st)
                           (Legal.trace st ++ [Legal.ViaWeb source]) in
  Runtime.scrape_via_web w self source params st
  = match Legal.get_source (Legal.job_sources self) source with
    | None => (Runtime.Raised "KeyError", st0)
    | Some source_config =>
        match Legal.check_robots_txt (Runtime.outside w) self (Legal.base_url source_config)
                (Legal.search_endpoint source_config) st0 with
        | (Ok true, st1) =>
            Runtime.try_except
              (if String.eqb source "monster"
               then Runtime.call_site w Legal.scrape_monster_web params
               else if String.eqb source "dice"
                    then Runtime.call_site w Legal.scrape_dice_web params
                    else if String.eqb source "weworkremotely"
                         then Runtime.call_site w Legal.scrape_weworkremotely_web params
                         else Runtime.ret [])
              (fun e => Runtime.bind (Runtime.lift (Legal.emit (Legal.LogError source e)))
                                     (fun _ => Runtime.ret [])) st1
        | (Ok false, st1) =>
            (Runtime.Returned [],
             Legal.mkState (Legal.robots_cache st1) (Legal.draws st1)
                           (Legal.trace st1 ++ [Legal.LogWarning source]))
        | (Raise e, st1) => (Runtime.Raised e, st1)
        end
    end.
Proof.
  intros st0. unfold Runtime.scrape_via_web. unfold Runtime.bind at 1.
  unfold Runtime.lift at 1, Legal.emit at 1. fold st0.
  unfold Runtime.bind at 1, Runtime.lift at 1, Legal.source_config_of.
  destruct (Legal.get_source (Legal.job_sources self) source) as [source_config|];
    [|reflexivity].
  unfold Legal.ret at 1. unfold Runtime.bind at 1, Runtime.lift at 1.
  destruct (Legal.check_robots_txt (Runtime.outside w) self (Legal.base_url source_config)
              (Legal.search_endpoint source_config) st0) as [[[|]|e] st1]; reflexivity.
Qed.

Lemma runtime_scrape_via_web_outcome (w : Runtime.World) (self : Legal.Scraper)
    (source : string) (params : Legal.Params) (st : Legal.State) :
  let run := Runtime.scrape_via_web w self source params st in
  Legal.strategies (Legal.trace (snd run))
  = Legal.strategies (Legal.trace st) ++ [Legal.ViaWeb source]
  ∧ match fst run with
    | Runtime.Returned jobs =>
        jobs = [] ∨ ∃ a, Runtime.site w a params = Runtime.Returned jobs
    | Runtime.Raised _ => True
    | Runtime.Escaped e => ∃ a, Runtime.site w a params = Runtime.Escaped e
    end.
Proof.
  pose proof (runtime_scrape_via_web_unfold w self source params st) as Hweb.
  cbn zeta in *. rewrite Hweb. clear Hweb.
  set (st0 := Legal.mkState _ _ (Legal.trace st ++ [Legal.ViaWeb source])).
  assert (H0 : Legal.strategies (Legal.trace st0)
               = Legal.strategies (Legal.trace st) ++ [Legal.ViaWeb source])
    by (subst st0; close_strategies).
  destruct (Legal.get_source (Legal.job_sources self) source) as [source_config|];
    [|simpl; split; [exact H0 | exact I]].
  destruct (check_robots_txt_returns (Runtime.outside w) self (Legal.base_url source_config)
              (Legal.search_endpoint source_config) st0) as (allowed & st1 & Hcheck & H1).
  rewrite Hcheck. rewrite <- H0, <- H1. clear Hcheck.
  destruct allowed.
  - unfold Runtime.try_except.
    repeat (destruct (String.eqb source _);
            [run_runtime; destruct (Runtime.site w _ params) eqn:Hsite; simpl;
             (split; [close_strategies | eauto])|]).
    simpl. split; [reflexivity | left; reflexivity].
  - simpl. split; [close_strategies | left; reflexivity].
Qed.

Lemma runtime_bind_ret_some {A} (m : Runtime.M A) (st : Legal.State) :
  Runtime.bind m (fun x => Runtime.ret (Some x)) st
  = (match fst (m st) with
     | Runtime.Returned x => Runtime.Returned (Some x)
     | Runtime.Raised e => Runtime.Raised e
     | Runtime.Escaped e => Runtime.Escaped e
     end, snd (m st)).
Proof. unfold Runtime.bind, Runtime.ret. destruct (m st) as [[x|e|e] st']; reflexivity. Qed.

Lemma runtime_select_and_scrape_outcome (w : Runtime.World) (self : Legal.Scraper)
    (params : Legal.Params) (name : string) (source_config : Legal.SourceConfig)
    (st : Legal.State) :
  let run := Runtime.select_and_scrape w self params name source_config st in
  Legal.attempted (Legal.trace (snd run))
  = Legal.attempted (Legal.trace st)
    ++ (if Legal.has_strategy (name, source_config) then [name] else [])
  ∧ match fst run with
    | Runtime.Returned (Some jobs) =>
        jobs = [] ∨ ∃ a, Runtime.site w a params = Runtime.Returned jobs
    | Runtime.Returned None => True
    | Runtime.Raised _ => True
    | Runtime.Escaped e => ∃ a, Runtime.site w a params = Runtime.Escaped e
    end.
Proof.
  cbn zeta.
  pose proof (runtime_scrape_via_api_outcome w self name params st) as [Hapi1 Hapi2].
  pose proof (runtime_scrape_via_web_outcome w self name params st) as [Hweb1 Hweb2].
  cbn zeta in *.
  assert (Hvia_api :
    Legal.attempted (Legal.trace (snd (Runtime.scrape_via_api w self name params st)))
    = Legal.attempted (Legal.trace st) ++ [name])
    by (unfold Legal.attempted; rewrite Hapi1, map_app; reflexivity).
  assert (Hvia_web :
    Legal.attempted (Legal.trace (snd (Runtime.scrape_via_web w self name params st)))
    = Legal.attempted (Legal.trace st) ++ [name])
    by (unfold Legal.attempted; rewrite Hweb1, map_app; reflexivity).
  clear Hapi1 Hweb1.
  unfold Runtime.select_and_scrape, Runtime.scrape_via_api_with_fallback, Legal.has_strategy.
  cbn [snd].
  destruct (String.eqb (Legal.legal_status source_config) "API_AVAILABLE"); cbn [orb].
  { rewrite runtime_bind_ret_some. cbn [fst snd]. split; [exact Hvia_api|].
    destruct (fst (Runtime.scrape_via_api w self name params st)); exact Hapi2. }
  destruct (String.eqb (Legal.legal_status source_config) "API_PREFERRED"); cbn [orb].
  { destruct (Legal.env_truthy (Runtime.outside w) _); rewrite runtime_bind_ret_some;
      cbn [fst snd].
    - split; [exact Hvia_api|].
      destruct (fst (Runtime.scrape_via_api w self name params st)); exact Hapi2.
    - split; [exact Hvia_web|].
      destruct (fst (Runtime.scrape_via_web w self name params st)); exact Hweb2. }
  destruct (String.eqb (Legal.legal_status source_config) "SCRAPING_ALLOWED").
  { rewrite runtime_bind_ret_some. cbn [fst snd]. split; [exact Hvia_web|].
    destruct (fst (Runtime.scrape_via_web w self name params st)); exact Hweb2. }
  destruct (String.eqb (Legal.legal_status source_config) "API_ONLY");
    simpl; rewrite app_nil_r; split; reflexivity || exact I.
Qed.

Arguments Runtime.process_source : simpl never.
Arguments Runtime.select_and_scrape : simpl never.
Arguments Runtime.respectful_delay : simpl never.

Lemma runtime_process_source_cases (w : Runtime.World) (self : Legal.Scraper)
    (params : Legal.Params) (all_jobs : list Runtime.JobObject) (name : string)
    (source_config : Legal.SourceConfig) (st : Legal.State) :
  Runtime.process_source w self params all_jobs (name, source_config) st
  = match Runtime.select_and_scrape w self params name source_config st with
    | (Runtime.Returned (Some jobs), st1) =>
        (match Runtime.cancelled w (Legal.draws st1) with
         | Some e => Runtime.Escaped e
         | None => Runtime.Returned (all_jobs ++ jobs)
         end,
         snd (Legal.respectful_delay (Runtime.outside w) self name st1))
    | (Runtime.Returned None, st1) => (Runtime.Returned all_jobs, st1)
    | (Runtime.Raised e, st1) =>
        (Runtime.Returned all_jobs, snd (Legal.emit (Legal.LogError name e) st1))
    | (Runtime.Escaped e, st1) => (Runtime.Escaped e, st1)
    end.
Proof.
  unfold Runtime.process_source, Runtime.try_except, Runtime.bind.
  destruct (Runtime.select_and_scrape w self params name source_config st)
    as [[[jobs|]|e|e] st1]; try reflexivity.
  unfold Runtime.respectful_delay, Runtime.bind, Runtime.lift, Runtime.finish, Runtime.ret.
  unfold Legal.respectful_delay, Legal.bind, Legal.uniform, Legal.emit. cbn [fst snd].
  destruct (Runtime.cancelled w (Legal.draws st1)); reflexivity.
Qed.

Lemma runtime_process_source_attempted (w : Runtime.World) (self : Legal.Scraper)
    (params : Legal.Params) (all_jobs : list Runtime.JobObject)
    (entry : string * Legal.SourceConfig) (st : Legal.State) :
  Legal.attempted
    (Legal.trace (snd (Runtime.process_source w self params all_jobs entry st)))
  = Legal.attempted (Legal.trace st) ++ (if Legal.has_strategy entry then [fst entry] else []).
Proof.
  destruct entry as [name source_config]. cbn [fst].
  pose proof (runtime_select_and_scrape_outcome w self params name source_config st)
    as [Hattempted _].
  cbn zeta in Hattempted. rewrite <- Hattempted. clear Hattempted.
  rewrite runtime_process_source_cases.
  destruct (Runtime.select_and_scrape w self params name source_config st)
    as [[[jobs|]|e|e] st1]; cbn [fst snd]; try reflexivity.
  - destruct (respectful_delay_returns (Runtime.outside w) self name st1)
      as (st2 & Hdelay & Hsame).
    rewrite Hdelay. cbn [snd]. unfold Legal.attempted. rewrite Hsame. reflexivity.
  - unfold Legal.attempted. simpl. rewrite strategies_app. simpl.
    rewrite app_nil_r. reflexivity.
Qed.

Lemma runtime_process_source_returns (w : Runtime.World) (self : Legal.Scraper)
    (params : Legal.Params) (all_jobs : list Runtime.JobObject)
    (entry : string * Legal.SourceConfig) (st : Legal.State) :
  Runtime.uninterrupted w →
  Runtime.process_source w self params all_jobs entry st
  = (Runtime.Returned
       (all_jobs
        ++ Runtime.contribution
             (fst (Runtime.select_and_scrape w self params (fst entry) (snd entry) st))),
     snd (Runtime.process_source w self params [] entry st)).
Proof.
  intros [Hsite Hwait]. destruct entry as [name source_config]. cbn [fst snd].
  rewrite !runtime_process_source_cases.
  pose proof (runtime_select_and_scrape_outcome w self params name source_config st)
    as [_ Hshape].
  cbn zeta in Hshape.
  destruct (Runtime.select_and_scrape w self params name source_config st)
    as [[[jobs|]|e|e] st1]; cbn [fst snd Runtime.contribution] in *;
    rewrite ?app_nil_r; try reflexivity.
  - rewrite Hwait. reflexivity.
  - destruct Hshape as [a Ha]. destruct (Hsite a params e Ha).
Qed.

Lemma runtime_process_sources_returns (w : Runtime.World) (self : Legal.Scraper)
    (params : Legal.Params) (entries : list (string * Legal.SourceConfig)) :
  Runtime.uninterrupted w →
  ∀ (all_jobs : list Runtime.JobObject) (st : Legal.State),
    ∃ st',
      Runtime.process_sources w self params all_jobs entries st
      = (Runtime.Returned
           (all_jobs
            ++ concat (map (fun outcome => Runtime.contribution (snd outcome))
                           (Runtime.outcomes w self params entries st))), st')
      ∧ map fst (Runtime.outcomes w self params entries st) = map fst entries
      ∧ Legal.attempted (Legal.trace st')
        = Legal.attempted (Legal.trace st)
          ++ map fst (List.filter Legal.has_strategy entries).
Proof.
  intros Hquiet.
  induction entries as [|entry entries IH]; intros all_jobs st.
  - exists st. cbn. rewrite !app_nil_r. repeat split; reflexivity.
  - cbn [Runtime.process_sources Runtime.outcomes]. unfold Runtime.bind.
    pose proof (runtime_process_source_attempted w self params [] entry st) as Hstep.
    rewrite (runtime_process_source_returns w self params all_jobs entry st Hquiet).
    pose proof (runtime_process_source_returns w self params [] entry st Hquiet) as Hempty.
    destruct (Runtime.process_source w self params [] entry st) as [outcome st1].
    cbn [snd] in *. injection Hempty as ->.
    set (added := Runtime.contribution
                    (fst (Runtime.select_and_scrape w self params (fst entry) (snd entry) st))).
    destruct (IH (all_jobs ++ added) st1) as (st' & Hrun & Hnames & Hattempted).
    exists st'. split; [|split].
    + rewrite Hrun. cbn [map concat fst snd]. fold added. rewrite <- app_assoc. reflexivity.
    + cbn [map fst]. rewrite Hnames. reflexivity.
    + rewrite Hattempted, Hstep, <- app_assoc. f_equal.
      cbn [List.filter]. destruct (Legal.has_strategy entry); reflexivity.
Qed.


(** ** Duplicate removal at run time *)

Lemma as_listing_of_listing (job : Runtime.JobObject) (listing : Legal.JobListing) :
  Runtime.as_listing job = Some listing → job = Runtime.of_listing listing.
Proof.
  destruct job as [[title|] [company|] [location|] ? ? ? ? ? ? ? ? ?];
    unfold Runtime.as_listing; simpl; intros Heq; try discriminate.
  injection Heq as <-. reflexivity.
Qed.

Lemma well_typed_listings (jobs : list Runtime.JobObject) :
  Forall Runtime.well_typed jobs → ∃ listings, jobs = map Runtime.of_listing listings.
Proof.
  induction 1 as [|job jobs [listing Hjob] _ [listings ->]]; [exists []; reflexivity|].
  exists (listing :: listings). simpl. rewrite (as_listing_of_listing _ _ Hjob). reflexivity.
Qed.

Lemma identifier_of_listing (listing : Legal.JobListing) :
  Runtime.identifier (Runtime.of_listing listing) = Runtime.Returned (Legal.identifier listing).
Proof. reflexivity. Qed.

Lemma runtime_remove_duplicates_from_of_listings (listings : list Legal.JobListing) :
  ∀ seen,
    Runtime.remove_duplicates_from seen (map Runtime.of_listing listings)
    = Runtime.Returned (map Runtime.of_listing (Legal.remove_duplicates_from seen listings)).
Proof.
  induction listings as [|listing listings IH]; intros seen; [reflexivity|].
  cbn [map Runtime.remove_duplicates_from Legal.remove_duplicates_from].
  rewrite identifier_of_listing.
  destruct (bool_decide (Legal.identifier listing ∉ seen)); rewrite IH; reflexivity.
Qed.

Lemma runtime_remove_duplicates_from_raises (jobs : list Runtime.JobObject) :
  Exists (fun job => ¬ Runtime.well_typed job) jobs →
  ∀ seen, Runtime.remove_duplicates_from seen jobs = Runtime.Raised "AttributeError".
Proof.
  induction jobs as [|job jobs IH]; intros Hsome seen; [inversion Hsome|].
  cbn [Runtime.remove_duplicates_from].
  destruct job as [[title|] [company|] [location|] ? ? ? ? ? ? ? ? ?];
    unfold Runtime.identifier; cbn [Runtime.title Runtime.company Runtime.location];
    try reflexivity.
  assert (Hrest : Exists (fun job => ¬ Runtime.well_typed job) jobs).
  { inversion Hsome as [? ? Hhead|? ? Htail]; subst; [|exact Htail].
    exfalso. apply Hhead. unfold Runtime.well_typed, Runtime.as_listing. simpl.
    eexists. reflexivity. }
  destruct (bool_decide _); rewrite (IH Hrest); reflexivity.
Qed.

Lemma NoDup_map_returned (keys : list string) :
  List.NoDup keys → List.NoDup (map (@Runtime.Returned string) keys).
Proof.
  induction 1 as [|key keys Hfresh _ IH]; simpl; constructor; [|exact IH].
  intros Hin. apply in_map_iff in Hin as (other & Heq & Hin).
  injection Heq as ->. exact (Hfresh Hin).
Qed.

Lemma runtime_remove_duplicates_typed (jobs : list Runtime.JobObject) :
  Forall Runtime.well_typed jobs →
  ∃ retained,
    Runtime.remove_duplicates jobs = Runtime.Returned retained
    ∧ sublist retained jobs
    ∧ List.NoDup (map Runtime.identifier retained)
    ∧ (∀ job, In job jobs → In (Runtime.identifier job) (map Runtime.identifier retained)).
Proof.
  intros Htyped. destruct (well_typed_listings jobs Htyped) as [listings ->].
  exists (map Runtime.of_listing (Legal.remove_duplicates_from ∅ listings)).
  assert (Hkeys : ∀ l, map Runtime.identifier (map Runtime.of_listing l)
                       = map Runtime.Returned (map Legal.identifier l)).
  { intros l. rewrite !map_map. apply map_ext. intros listing. reflexivity. }
  split; [apply runtime_remove_duplicates_from_of_listings|].
  split; [apply map_sublist, legal_remove_duplicates_from_sublist|].
  split.
  - rewrite Hkeys. apply NoDup_map_returned, legal_remove_duplicates_from_NoDup.
  - intros job Hin. apply in_map_iff in Hin as (listing & <- & Hin).
    rewrite Hkeys, identifier_of_listing. apply in_map.
    destruct (legal_remove_duplicates_from_keys listings ∅ listing Hin) as [Hseen|Hkept];
      [set_solver | exact Hkept].
Qed.

(** ** Containment of the errors of a source *)




(** * The unguarded duplicate removal of a run *)

(** X30. [remove_duplicates] lower-cases [title], [company] and
    [location] without a guard, and the run calls it after the loop, outside
    every [try]. It returns for listings that hold strings in the three
    fields and raises AttributeError as soon as one listing holds [None] in
    one of them. A run whose sources hand back such a listing processes every
    source and then raises AttributeError, so that the listings of all
    sources are lost. *)
Theorem remove_duplicates_unguarded (w : Runtime.World) (self : Legal.Scraper)
    (search_params : option Legal.Params) (st : Legal.State) :
  let params := default Legal.default_params search_params in
  (∀ jobs,
     Forall Runtime.well_typed jobs →
     ∃ retained, Runtime.remove_duplicates jobs = Runtime.Returned retained)
  ∧ (∀ jobs,
       Exists (fun job => ¬ Runtime.well_typed job) jobs →
       Runtime.remove_duplicates jobs = Runtime.Raised "AttributeError")
  ∧ (Runtime.uninterrupted w →
     Exists (fun job => ¬ Runtime.well_typed job) (Runtime.merged w self params st) →
     ∃ st',
       Runtime.scrape_jobs_comprehensive w self search_params st
       = (Runtime.Raised "AttributeError", st')
       ∧ Legal.attempted (Legal.trace st')
         = Legal.attempted (Legal.trace st)
           ++ map fst (List.filter Legal.has_strategy (Legal.job_sources self))).
Proof.
  intros params. split; [|split].
  - intros jobs Htyped.
    destruct (runtime_remove_duplicates_typed jobs Htyped) as (retained & Hretained & _).
    exists retained. exact Hretained.
  - intros jobs Hsome. apply runtime_remove_duplicates_from_raises. exact Hsome.
  - intros Hquiet Hsome.
    destruct (runtime_process_sources_returns w self params (Legal.job_sources self) Hquiet
                [] st) as (st' & Hrun & _ & Hattempted).
    exists st'. split; [|exact Hattempted].
    unfold Runtime.scrape_jobs_comprehensive, Runtime.bind, Runtime.finish.
    fold params. rewrite Hrun. cbn [app].
    unfold Runtime.remove_duplicates.
    rewrite (runtime_remove_duplicates_from_raises _ Hsome). reflexivity.
Qed.

Lemma remove_duplicates_unguarded_witness :
  Runtime.remove_duplicates [Sample.python_at_acme; Sample.untitled]
  = Runtime.Raised "AttributeError"
  ∧ ∃ st',
      Runtime.scrape_jobs_comprehensive Sample.null_title Sample.scraper None
        Legal.initial_state
      = (Runtime.Raised "AttributeError", st')
      ∧ Legal.attempted (Legal.trace st')
        = Legal.attempted (Legal.trace Legal.initial_state)
          ++ map fst (List.filter Legal.has_strategy (Legal.job_sources Sample.scraper)).
Proof.
  pose proof (remove_duplicates_unguarded Sample.null_title Sample.scraper None
                Legal.initial_state) as (_ & Hraises & Hrun).
  assert (Hnull : ¬ Runtime.well_typed Sample.untitled)
    by (intros [listing Hlisting]; discriminate Hlisting).
  split.
  - apply Hraises. right. left. exact Hnull.
  - apply Hrun.
    + split; [|reflexivity]. intros a params e. destruct a; discriminate.
    + assert (Hmerged : Runtime.merged Sample.null_title Sample.scraper
                          (default Legal.default_params None) Legal.initial_state
                        = [Sample.untitled; Sample.python_at_acme])
        by (vm_compute; reflexivity).
      rewrite Hmerged. left. exact Hnull.
Defined.

(** * The run of [Legal] is the run at run time of an annotated world *)

Lemma annotated_scrape_via_api (w : Legal.World) (self : Legal.Scraper) (source : string)
    (params : Legal.Params) (st : Legal.State) :
  Runtime.scrape_via_api (Runtime.annotated w) self source params st
  = Runtime.at_run_time (map Runtime.of_listing) (Legal.scrape_via_api w self source params st).
Proof.
  unfold Runtime.scrape_via_api, Legal.scrape_via_api. run_runtime. run_monad.
  destruct (Legal.get_source (Legal.job_sources self) source); simpl; [|reflexivity].
  repeat (destruct (String.eqb source _);
          [run_runtime; run_monad; destruct (Legal.site w _ params); reflexivity|]).
  reflexivity.
Qed.

Lemma annotated_scrape_via_web (w : Legal.World) (self : Legal.Scraper) (source : string)
    (params : Legal.Params) (st : Legal.State) :
  Runtime.scrape_via_web (Runtime.annotated w) self source params st
  = Runtime.at_run_time (map Runtime.of_listing) (Legal.scrape_via_web w self source params st).
Proof.
  pose proof (runtime_scrape_via_web_unfold (Runtime.annotated w) self source params st)
    as Hruntime.
  pose proof (scrape_via_web_unfold w self source params st) as Htyped.
  cbn zeta in *. rewrite Hruntime, Htyped. clear Hruntime Htyped.
  cbn [Runtime.outside Runtime.annotated].
  destruct (Legal.get_source (Legal.job_sources self) source) as [source_config|];
    [|reflexivity].
  destruct (Legal.check_robots_txt w self (Legal.base_url source_config)
              (Legal.search_endpoint source_config) _) as [[[|]|e] st1]; try reflexivity.
  unfold Runtime.try_except, Legal.try_except.
  repeat (destruct (String.eqb source _);
          [run_runtime; run_monad; destruct (Legal.site w _ params); reflexivity|]).
  reflexivity.
Qed.

Lemma annotated_select_and_scrape (w : Legal.World) (self : Legal.Scraper)
    (params : Legal.Params) (name : string) (source_config : Legal.SourceConfig)
    (st : Legal.State) :
  Runtime.select_and_scrape (Runtime.annotated w) self params name source_config st
  = Runtime.at_run_time (option_map (map Runtime.of_listing))
      (Legal.select_and_scrape w self params name source_config st).
Proof.
  assert (Hbind : ∀ (m : Runtime.M (list Runtime.JobObject))
                    (m' : Legal.M (list Legal.JobListing)),
            m st = Runtime.at_run_time (map Runtime.of_listing) (m' st) →
            Runtime.bind m (fun jobs => Runtime.ret (Some jobs)) st
            = Runtime.at_run_time (option_map (map Runtime.of_listing))
                (Legal.bind m' (fun jobs => Legal.ret (Some jobs)) st)).
  { intros m m' Heq. unfold Runtime.bind, Legal.bind. rewrite Heq.
    destruct (m' st) as [[jobs|e] st1]; reflexivity. }
  unfold Runtime.select_and_scrape, Legal.select_and_scrape,
    Runtime.scrape_via_api_with_fallback, Legal.scrape_via_api_with_fallback.
  cbn [Runtime.outside Runtime.annotated].
  destruct (String.eqb (Legal.legal_status source_config) "API_AVAILABLE");
    [apply Hbind, annotated_scrape_via_api|].
  destruct (String.eqb (Legal.legal_status source_config) "API_PREFERRED").
  { destruct (Legal.env_truthy w _); apply Hbind;
      [apply annotated_scrape_via_api | apply annotated_scrape_via_web]. }
  destruct (String.eqb (Legal.legal_status source_config) "SCRAPING_ALLOWED");
    [apply Hbind, annotated_scrape_via_web|].
  destruct (String.eqb (Legal.legal_status source_config) "API_ONLY"); reflexivity.
Qed.

Lemma annotated_process_source (w : Legal.World) (self : Legal.Scraper)
    (params : Legal.Params) (all_jobs : list Legal.JobListing)
    (entry : string * Legal.SourceConfig) (st : Legal.State) :
  Runtime.process_source (Runtime.annotated w) self params (map Runtime.of_listing all_jobs)
    entry st
  = Runtime.at_run_time (map Runtime.of_listing)
      (Legal.process_source w self params all_jobs entry st).
Proof.
  destruct entry as [name source_config].
  rewrite runtime_process_source_cases, process_source_cases, annotated_select_and_scrape.
  destruct (Legal.select_and_scrape w self params name source_config st)
    as [[[jobs|]|e] st1]; cbn [Runtime.at_run_time option_map Runtime.cancelled
                                 Runtime.annotated Runtime.outside];
    rewrite ?map_app; reflexivity.
Qed.

Lemma annotated_process_sources (w : Legal.World) (self : Legal.Scraper)
    (params : Legal.Params) (entries : list (string * Legal.SourceConfig)) :
  ∀ all_jobs st,
    Runtime.process_sources (Runtime.annotated w) self params
      (map Runtime.of_listing all_jobs) entries st
    = Runtime.at_run_time (map Runtime.of_listing)
        (Legal.process_sources w self params all_jobs entries st).
Proof.
  induction entries as [|entry entries IH]; intros all_jobs st; [reflexivity|].
  cbn [Runtime.process_sources Legal.process_sources].
  unfold Runtime.bind, Legal.bind. rewrite annotated_process_source.
  destruct (Legal.process_source w self params all_jobs entry st) as [[all_jobs'|e] st1];
    cbn [Runtime.at_run_time]; [apply IH | reflexivity].
Qed.

Lemma annotated_scrape_jobs_comprehensive (w : Legal.World) (self : Legal.Scraper)
    (search_params : option Legal.Params) (st : Legal.State) :
  Runtime.scrape_jobs_comprehensive (Runtime.annotated w) self search_params st
  = Runtime.at_run_time (map Runtime.of_listing)
      (Legal.scrape_jobs_comprehensive w self search_params st).
Proof.
  unfold Runtime.scrape_jobs_comprehensive, Legal.scrape_jobs_comprehensive.
  unfold Runtime.bind, Legal.bind.
  rewrite (annotated_process_sources w self _ (Legal.job_sources self) [] st).
  destruct (Legal.process_sources w self _ [] (Legal.job_sources self) st)
    as [[all_jobs|e] st1]; cbn [Runtime.at_run_time]; [|reflexivity].
  unfold Runtime.finish, Runtime.remove_duplicates, Legal.ret, Legal.remove_duplicates.
  rewrite runtime_remove_duplicates_from_of_listings. reflexivity.
Qed.
